(** * Time-series modelling helpers ([time_series_modeling.py])

    A shallow embedding of the forecasting helpers of
    [workbooks/bmc_functions/time_series_modeling.py] and the properties the
    specification states about them.

    - Python values are modelled the way the interpreter has them: [int] as
      [Z], [float] as IEEE-754 binary64 ([spec_float] with precision 53 and
      maximal exponent 1024), exceptions as a result type.
    - pandas objects are modelled by their observable content: a Series is
      a name and a list of (timestamp, value) rows, a DataFrame an index
      and named columns.
    - pmdarima, statsmodels and matplotlib are outside the repository: their
      entry points are fields of a [backend] record, and every call leaves
      an event in a trace. *)

From Stdlib Require Import ZArith List String Bool Lia QArith DecimalString Sorted.
From Stdlib Require Import Floats.SpecFloat.
Import ListNotations.
#[local] Set Warnings "-register-all".
Local Open Scope string_scope.
Local Open Scope Z_scope.
Local Open Scope list_scope.

(** ** Python runtime *)

Module Py.

(** The exception classes the embedded code can raise. *)
Inductive exn : Type :=
| TypeError | ValueError | IndexError | KeyError
| AttributeError | OverflowError.

Inductive result (A : Type) : Type :=
| Ok (a : A)
| Raise (e : exn).
Arguments Ok {A} a.
Arguments Raise {A} e.

Definition is_ok {A} (r : result A) : bool :=
  match r with Ok _ => true | Raise _ => false end.

Definition map_result {A C} (g : A -> C) (r : result A) : result C :=
  match r with Ok a => Ok (g a) | Raise x => Raise x end.

(** *** Floats: IEEE-754 binary64 *)

Definition prec : Z := 53.
Definition emax : Z := 1024.
Definition float : Type := spec_float.

Definition fmul : float -> float -> float := SFmul prec emax.
Definition fsub : float -> float -> float := SFsub prec emax.
Definition fdiv : float -> float -> float := SFdiv prec emax.
Definition flt : float -> float -> bool := SFltb.
Definition feq : float -> float -> bool := SFeqb.
Definition fzero : float := S754_zero false.
Definition fone : float := SFone prec emax.

(** A value the interpreter can hold: canonical mantissa and exponent. *)
Definition is_float64 (x : float) : Prop := valid_binary prec emax x = true.

Definition is_finite (x : float) : bool :=
  match x with
  | S754_zero _ | S754_finite _ _ _ => true
  | _ => false
  end.

(** A zero, or a finite float with a mantissa of at most [D] binary digits
    and an exponent of at most [E]. *)
Definition finite_within (D E : Z) (x : float) : Prop :=
  match x with
  | S754_zero _ => True
  | S754_finite _ m e => Zpos (digits2_pos m) <= D /\ e <= E
  | _ => False
  end.

(** Where rounding a mantissa of at most [D] digits with an exponent of
    at most [E] lands at most, for a format of precision [p] and maximal
    exponent [em]. *)
Definition exponent_bound (p em D E : Z) : Z :=
  let E1 := Z.max E (fexp p em (D + E)) in
  Z.max E1 (fexp p em (D + 1 + E1)).

(** [float(n)] for an [int] [n]: correctly rounded, [OverflowError] when
    [n] is too large for a binary64. *)
Definition float_of_int (n : Z) : result float :=
  match binary_normalize prec emax n 0 false with
  | S754_infinity _ => Raise OverflowError
  | x => Ok x
  end.

(** [n * x] for an [int] [n] and a [float] [x]. *)
Definition int_mul_float (n : Z) (x : float) : result float :=
  match float_of_int n with
  | Ok y => Ok (fmul y x)
  | Raise e => Raise e
  end.

(** [m * 2^e] rounded to the nearest integer, ties to even. *)
Definition round_half_even (m e : Z) : Z :=
  if 0 <=? e then m * 2 ^ e
  else
    let d := 2 ^ (- e) in
    let q := m / d in
    let r := m mod d in
    match 2 * r ?= d with
    | Lt => q
    | Gt => q + 1
    | Eq => if Z.even q then q else q + 1
    end.

(** The builtin [round(x)] with one argument: an [int], [ValueError] on
    NaN and [OverflowError] on an infinity. *)
Definition round (x : float) : result Z :=
  match x with
  | S754_zero _ => Ok 0
  | S754_nan => Raise ValueError
  | S754_infinity _ => Raise OverflowError
  | S754_finite s m e => Ok (cond_Zopp s (round_half_even (Zpos m) e))
  end.

(** [sys.maxsize]: no container is longer. *)
Definition maxsize : Z := 2 ^ 63 - 1.

(** *** Sequences: slices and indexing *)

Section Sequences.
Context {A : Type}.

(** A slice bound clamped into [0 .. len], negative bounds counting
    from the end. *)
Definition clamp (len i : Z) : nat :=
  Z.to_nat (if i <? 0 then Z.max (i + len) 0 else Z.min i len).

Definition len (l : list A) : Z := Z.of_nat (List.length l).

(** [l[:stop]] *)
Definition slice_to (stop : Z) (l : list A) : list A :=
  firstn (clamp (len l) stop) l.

(** [l[start:]] *)
Definition slice_from (start : Z) (l : list A) : list A :=
  skipn (clamp (len l) start) l.

(** [l[i]], [IndexError] out of range, negative [i] from the end. *)
Definition item (i : Z) (l : list A) : result A :=
  let j := if i <? 0 then i + len l else i in
  if (j <? 0) || (len l <=? j) then Raise IndexError
  else match nth_error l (Z.to_nat j) with
       | Some a => Ok a
       | None => Raise IndexError
       end.
End Sequences.

(** *** Associations: keyword arguments, environments *)

Fixpoint lookup {V : Type} (k : string) (d : list (string * V)) : option V :=
  match d with
  | [] => None
  | (k', v) :: d' => if String.eqb k k' then Some v else lookup k d'
  end.

Definition has_key {V : Type} (k : string) (d : list (string * V)) : bool :=
  match lookup k d with Some _ => true | None => false end.

(** [d[k] = v] on a dict: the key keeps its place when it is there, and is
    appended when it is not. *)
Fixpoint dict_set {V : Type} (k : string) (v : V) (d : list (string * V))
  : list (string * V) :=
  match d with
  | [] => [(k, v)]
  | (k', v') :: d' =>
      if String.eqb k k' then (k, v) :: d' else (k', v') :: dict_set k v d'
  end.

End Py.
Import Py.


(** ** Data model *)

(** A column label, as pandas hands it back for the name of a column: a
    numpy integer for an integer column index, and for an object index
    the object it holds, a [str] or a [numpy.str_]. Labels of other kinds
    are not modelled. *)
Inductive label : Type :=
| LInt (z : Z)
| LStr (s : string)
| LNpStr (s : string).

(** A pandas Series: its name and its rows, in index order. *)
Record series : Type := mkSeries {
  sname : label;
  srows : list (Z * float)
}.

Definition sindex (s : series) : list Z := map fst (srows s).

(** [s.shape[0]] *)
Definition shape0 (s : series) : Z := len (srows s).

(** [s.iloc[:stop]] and [s.iloc[start:]] keep the name. *)
Definition iloc_to (stop : Z) (s : series) : series :=
  mkSeries (sname s) (slice_to stop (srows s)).
Definition iloc_from (start : Z) (s : series) : series :=
  mkSeries (sname s) (slice_from start (srows s)).

(** A DataFrame of floats: the index and the columns, in column order. *)
Record frame : Type := mkFrame {
  findex : list Z;
  fcols : list (string * list float)
}.


(** [f.columns = names]: [ValueError] on a length mismatch. *)
Definition set_columns (names : list string) (f : frame) : result frame :=
  if (List.length names =? List.length (fcols f))%nat
  then Ok (mkFrame (findex f) (combine names (map snd (fcols f))))
  else Raise ValueError.

(** The value a Series holds at an index label, NaN when it has none. *)
Fixpoint at_label (t : Z) (rows : list (Z * float)) : float :=
  match rows with
  | [] => S754_nan
  | (t', v) :: rows' => if t =? t' then v else at_label t rows'
  end.

Fixpoint index_equals (a b : list Z) : bool :=
  match a, b with
  | [], [] => true
  | x :: a', y :: b' => (x =? y) && index_equals a' b'
  | _, _ => false
  end.

Fixpoint is_unique (idx : list Z) : bool :=
  match idx with
  | [] => true
  | t :: idx' => negb (existsb (Z.eqb t) idx') && is_unique idx'
  end.

(** A frame without rows takes the index of the first Series with rows
    that is assigned to it; the columns it has are filled with NaN. *)
Definition ensure_valid_index (s : list (Z * float)) (f : frame) : frame :=
  match findex f, s with
  | [], _ :: _ =>
      mkFrame (map fst s)
              (map (fun c => (fst c, map (fun _ => S754_nan) s)) (fcols f))
  | _, _ => f
  end.

(** [f[name] = s] for a Series [s]. When [s] has the index of [f], its
    values are taken as they stand; otherwise [s] is reindexed on the
    index of [f], by label and with NaN for a label it has not, which
    raises [ValueError] when [s] repeats a label. *)
Definition set_column (name : string) (s : list (Z * float)) (f : frame)
  : result frame :=
  let f := ensure_valid_index s f in
  if index_equals (map fst s) (findex f) then
    Ok (mkFrame (findex f) (dict_set name (map snd s) (fcols f)))
  else if is_unique (map fst s) then
    Ok (mkFrame (findex f)
                (dict_set name (map (fun t => at_label t s) (findex f)) (fcols f)))
  else Raise ValueError.

(** [f[name]]: the column as a Series, [KeyError] when there is none. *)
Definition column (name : string) (f : frame) : result series :=
  match lookup name (fcols f) with
  | Some vs => Ok (mkSeries (LStr name) (combine (findex f) vs))
  | None => Raise KeyError
  end.

(** [f.iloc[i, j]]: row [i] of column [j], both counted from the end when
    negative, [IndexError] out of range. *)
Definition iloc2 (i j : Z) (f : frame) : result float :=
  match item j (fcols f) with
  | Raise x => Raise x
  | Ok (_, vs) => item i vs
  end.

(** An arithmetic operation of a frame with a scalar, element by element. *)
Definition frame_map (g : float -> float) (f : frame) : frame :=
  mkFrame (findex f) (map (fun c => (fst c, map g (snd c))) (fcols f)).

(** A row taken out of a frame: a Series over the column names. Its name
    is the index label of the row until the code sets another one. *)
Inductive row_name : Type :=
| RTimestamp (t : Z)
| RName (s : string).

Record row : Type := mkRow {
  r_name : row_name;
  r_values : list (string * float)
}.

Fixpoint row_values (i : Z) (cols : list (string * list float))
  : result (list (string * float)) :=
  match cols with
  | [] => Ok []
  | (n, vs) :: cols' =>
      match item i vs, row_values i cols' with
      | Ok v, Ok r => Ok ((n, v) :: r)
      | Raise x, _ => Raise x
      | _, Raise x => Raise x
      end
  end.

(** [f.iloc[i]] *)
Definition iloc_row (i : Z) (f : frame) : result row :=
  match item i (findex f), row_values i (fcols f) with
  | Ok t, Ok r => Ok (mkRow (RTimestamp t) r)
  | Raise x, _ => Raise x
  | _, Raise x => Raise x
  end.

Definition set_name (n : string) (r : row) : row := mkRow (RName n) (r_values r).

(** [name.astype('str')]: numpy scalars have [astype], the builtin [str]
    has not. *)
Definition astype_str (l : label) : result string :=
  match l with
  | LInt z => Ok (NilZero.string_of_int (Z.to_int z))
  | LStr _ => Raise AttributeError
  | LNpStr s => Ok s
  end.

(** Equality of labels as keys: a [numpy.str_] is a [str] and compares and
    hashes as one. *)
Definition label_eqb (a b : label) : bool :=
  match a, b with
  | LInt x, LInt y => x =? y
  | (LStr x | LNpStr x), (LStr y | LNpStr y) => String.eqb x y
  | _, _ => false
  end.

(** [dataframe[zipcode].copy()] on a table given by its columns, for a
    label that at most one column carries: [KeyError] when none does. With
    a label that several columns carry pandas returns a DataFrame of
    them, which is no Series; the properties below that depend on the
    column found take tables in which one column carries the label. *)
Definition getitem (zipcode : label) (dataframe : list series) : result series :=
  match find (fun s => label_eqb zipcode (sname s)) dataframe with
  | Some s => Ok s
  | None => Raise KeyError
  end.

(** A Python value passed as an argument. *)
Inductive value : Type :=
| VInt (z : Z)
| VStr (s : string)
| VBool (b : bool)
| VSeries (s : series)
| VNone.

(** A parameter of a [def]: its name and its default, when it has one. *)
Record param : Type := mkParam {
  p_name : string;
  p_default : option value
}.

Definition signature : Type := list param.
Definition kwargs : Type := list (string * value).
Definition env : Type := list (string * value).

Definition required (n : string) : param := mkParam n None.
Definition optional (n : string) (v : value) : param := mkParam n (Some v).

(** Binding the arguments of a call to the parameters of a [def] that has
    neither [*args] nor [**kwargs]: positional arguments first, then the
    keywords, then the defaults. Each way a call can fail to bind is a
    [TypeError]. *)
Definition bind_positional (sig : signature) (args : list value) : result env :=
  if (List.length sig <? List.length args)%nat then Raise TypeError
  else Ok (combine (map p_name sig) args).

Fixpoint bind_keywords (sig : signature) (kw : kwargs) (e : env) : result env :=
  match kw with
  | [] => Ok e
  | (k, v) :: kw' =>
      if negb (existsb (String.eqb k) (map p_name sig)) then Raise TypeError
      else if has_key k e then Raise TypeError
      else bind_keywords sig kw' (e ++ [(k, v)])
  end.

Fixpoint bind_defaults (sig : signature) (e : env) : result env :=
  match sig with
  | [] => Ok []
  | p :: sig' =>
      match (match lookup (p_name p) e with
             | Some v => Some v
             | None => p_default p
             end) with
      | None => Raise TypeError
      | Some v =>
          match bind_defaults sig' e with
          | Ok e' => Ok ((p_name p, v) :: e')
          | Raise x => Raise x
          end
      end
  end.

Definition bind_args (sig : signature) (args : list value) (kw : kwargs)
  : result env :=
  match bind_positional sig args with
  | Raise x => Raise x
  | Ok e0 =>
      match bind_keywords sig kw e0 with
      | Raise x => Raise x
      | Ok e1 => bind_defaults sig e1
      end
  end.

(** The value a bound parameter holds. *)
Definition arg (e : env) (k : string) : value :=
  match lookup k e with Some v => v | None => VNone end.

(** Using a value where the libraries need an [int], a Series or a
    [bool]: a value of another type is rejected there. *)
Definition as_int (v : value) : result Z :=
  match v with VInt z => Ok z | _ => Raise TypeError end.
Definition as_series (v : value) : result series :=
  match v with VSeries s => Ok s | _ => Raise TypeError end.
Definition is_True (v : value) : bool :=
  match v with VBool true => true | _ => false end.

Definition order_t : Type := Z * Z * Z.
Definition seasonal_order_t : Type := Z * Z * Z * Z.

(** A SARIMAX model: what [tsa.SARIMAX] was constructed with. *)
Record sarimax : Type := mkSarimax {
  endog : series;
  order : order_t;
  seasonal_order : seasonal_order_t;
  enforce_invertibility : bool
}.

(** What [get_forecast] returns: [conf_int()] and [predicted_mean]. *)
Record forecast_results : Type := mkForecast {
  conf_int : frame;
  predicted_mean : list (Z * float)
}.

Definition summary : Type := string.

Inductive figure : Type :=
| FigDiagnostics (m : sarimax)
| FigTrainTest (train test : series) (forecast_df : frame)
| FigFinal (zipcode_val : series) (forecast_full : frame).

(** The keyword arguments [auto_arima_model] hands to [pmd.auto_arima]. *)
Record auto_args : Type := mkAutoArgs {
  a_m : Z;
  a_start_p : Z; a_max_p : Z;
  a_start_q : Z; a_max_q : Z;
  a_start_P : Z; a_max_P : Z;
  a_start_Q : Z; a_max_Q : Z;
  a_d : Z; a_D : Z;
  a_error_action : string
}.

(** The model [pmd.auto_arima] returns, as far as the code reads it. *)
Record auto_model : Type := mkAutoModel {
  am_order : order_t;
  am_seasonal_order : seasonal_order_t;
  am_criterion : Q
}.

(** ** Calls that leave the module *)

Inductive event : Type :=
| EvPlot (what : string)
| EvShow
| EvClose
| EvDisplay
| EvAutoArima (y : series) (a : auto_args)
| EvAutoSummary (a : auto_model)
| EvSARIMAX (m : sarimax)
| EvFit (m : sarimax) (kw : kwargs)
| EvGetForecast (m : sarimax) (steps : Z)
| EvPlotDiagnostics (m : sarimax)
| EvSummary (m : sarimax).

Definition trace : Type := list event.

(** What the libraries answer during one run. Every entry point returns
    a [result]: each of them can raise on its input. A summary carries
    the date and the time of its making, so the summaries of two runs are
    the answers of two backends. *)
Record backend : Type := mkBackend {
  (** [pmdarima.arima.ndiffs(y)] *)
  ndiffs : series -> result Z;
  (** [pmdarima.arima.nsdiffs(y, m=m)] *)
  nsdiffs : series -> Z -> result Z;
  (** fitting one candidate order during the order search: its
      information criterion *)
  candidate_fit : series -> order_t -> seasonal_order_t -> result Q;
  (** [auto_model.summary()] *)
  auto_summary : auto_model -> result summary;
  (** [tsa.SARIMAX(endog, order=..., seasonal_order=...,
      enforce_invertibility=...)] *)
  sarimax_new : sarimax -> result unit;
  (** [model.fit()] *)
  sarimax_fit : sarimax -> result unit;
  (** [results.get_forecast(steps=...)] *)
  get_forecast : sarimax -> Z -> result forecast_results;
  (** [results.summary()] *)
  model_summary : sarimax -> result summary;
  (** [results.plot_diagnostics()] *)
  plot_diagnostics : sarimax -> result unit;
  (** [Series.plot(...)] *)
  series_plot : series -> result unit
}.

(** ** The monad of the embedded code: exceptions and a trace of calls

    A computation is the value it returns, or the exception it raises,
    together with the calls it made until then. *)

Definition M (A : Type) : Type := (result A * trace)%type.

Definition ret {A} (a : A) : M A := (Ok a, []).

Definition bind {A B} (c : M A) (k : A -> M B) : M B :=
  match c with
  | (Ok a, tr) => let '(r, tr') := k a in (r, tr ++ tr')
  | (Raise x, tr) => (Raise x, tr)
  end.

Definition raise {A} (x : exn) : M A := (Raise x, []).

Definition lift {A} (r : result A) : M A := (r, []).

Definition emit (e : event) : M unit := (Ok tt, [e]).

Declare Scope py_scope.
Delimit Scope py_scope with py.
Notation "x <- c ;; k" := (bind c (fun x => k))
  (at level 61, c at next level, right associativity) : py_scope.
Notation "' pat <- c ;; k" := (bind c (fun x => match x with pat => k end))
  (at level 61, pat pattern, c at next level, right associativity) : py_scope.
Notation "c ;; k" := (bind c (fun _ => k))
  (at level 61, right associativity) : py_scope.
Local Open Scope py_scope.

Definition value_of {A} (c : M A) : result A := fst c.
Definition calls_of {A} (c : M A) : trace := snd c.

(** ** The order search of pmdarima *)

Module Pmdarima.

(** Modelled from the spec: [pmd.auto_arima], the search loop of pmdarima,
    is missing from the sources. Section 4.2 has it search a bounded grid
    over (p, q, P, Q) between the start values and the maxima, with d, D
    and the period m fixed, and select the combination with the least
    information criterion; section 7 has a candidate whose fit fails
    skipped. [error_action] is the switch of the library for that: only
    ['raise'] lets the failure of a candidate out. *)

Definition range (lo hi : Z) : list Z :=
  map (fun i => lo + Z.of_nat i) (seq 0 (Z.to_nat (hi - lo + 1))).

Definition grid (a : auto_args) : list (order_t * seasonal_order_t) :=
  flat_map (fun p =>
  flat_map (fun q =>
  flat_map (fun P =>
  map (fun Q => ((p, a_d a, q), (P, a_D a, Q, a_m a)))
      (range (a_start_Q a) (a_max_Q a)))
      (range (a_start_P a) (a_max_P a)))
      (range (a_start_q a) (a_max_q a)))
      (range (a_start_p a) (a_max_p a)).

(** The better of the best model so far and a new one; the earlier one
    stays on a tie. *)
Definition better (best : option auto_model) (c : auto_model) : auto_model :=
  match best with
  | None => c
  | Some b => if Qle_bool (am_criterion b) (am_criterion c) then b else c
  end.

Fixpoint search (fit : order_t -> seasonal_order_t -> result Q)
  (error_action : string) (cands : list (order_t * seasonal_order_t))
  (best : option auto_model) : result (option auto_model) :=
  match cands with
  | [] => Ok best
  | (o, so) :: rest =>
      match fit o so with
      | Ok ic => search fit error_action rest (Some (better best (mkAutoModel o so ic)))
      | Raise x =>
          if String.eqb error_action "raise" then Raise x
          else search fit error_action rest best
      end
  end.

(** No candidate could be fitted: the library has no model to return. *)
Definition auto_arima (fit : order_t -> seasonal_order_t -> result Q)
  (a : auto_args) : result auto_model :=
  match search fit (a_error_action a) (grid a) None with
  | Ok (Some b) => Ok b
  | Ok None => Raise ValueError
  | Raise x => Raise x
  end.

(** The candidate was fitted, with the criterion the model carries. *)
Definition fitted_by (fit : order_t -> seasonal_order_t -> result Q)
  (b : auto_model) : Prop :=
  fit (am_order b) (am_seasonal_order b) = Ok (am_criterion b).

End Pmdarima.

(** ** The functions of [time_series_modeling.py] *)

(** [.85], the default threshold: the binary64 nearest to 17/20. *)
Definition threshold_default : float :=
  S754_finite false 7656119366529843 (-53).

(** [100] as the float it becomes in [roi_df]. *)
Definition hundred : float := S754_finite false 7036874417766400 (-46).

Definition auto_arima_model_sig : signature :=
  [ required "timeseries_dataset"; optional "m" (VInt 12);
    optional "start_p" (VInt 0); optional "max_p" (VInt 7);
    optional "start_q" (VInt 0); optional "max_q" (VInt 7);
    optional "start_P" (VInt 0); optional "start_Q" (VInt 0);
    optional "max_P" (VInt 7); optional "max_Q" (VInt 7) ].

Definition create_best_model_sig : signature :=
  [ required "timeseries_dataset"; optional "m" (VInt 12);
    optional "start_p" (VInt 0); optional "max_p" (VInt 5);
    optional "start_q" (VInt 0); optional "max_q" (VInt 5);
    optional "start_P" (VInt 0); optional "start_Q" (VInt 0);
    optional "max_P" (VInt 5); optional "max_Q" (VInt 5);
    optional "show_vis" (VBool false) ].

Section Functions.
Variable B : backend.

(** [s.plot(...)]: the library may reject the data. *)
Definition plot (what : string) (s : series) : M unit :=
  lift (series_plot B s) ;; emit (EvPlot what).

(** [ts_split(dataframe, threshold=.85, show_vis=False)] *)
Definition ts_split (dataframe : series) (threshold : float) (show_vis : bool)
  : M (series * series) :=
  x <- lift (int_mul_float (shape0 dataframe) threshold) ;;
  tts_cutoff <- lift (round x) ;;
  let train := iloc_to tts_cutoff dataframe in
  let test := iloc_from tts_cutoff dataframe in
  (if show_vis then
     plot "Training Data" train ;;
     plot "Testing Data" test ;;
     emit (EvPlot "legend") ;;
     emit (EvPlot "set_xlabel") ;;
     emit (EvPlot "set_ylabel") ;;
     emit (EvPlot "set_title") ;;
     _ <- lift (item (-1) (sindex train)) ;;
     emit (EvPlot "axvline") ;;
     emit EvShow
   else ret tt) ;;
  ret (train, test).

(** [ts_model.plot_diagnostics()] *)
Definition diagnostics (ts_model : sarimax) : M figure :=
  emit (EvPlotDiagnostics ts_model) ;;
  lift (plot_diagnostics B ts_model) ;;
  ret (FigDiagnostics ts_model).

(** [model_performance(ts_model, show_vis=False)] *)
Definition model_performance (ts_model : sarimax) (show_vis : bool)
  : M (summary * figure) :=
  fig <- diagnostics ts_model ;;
  emit EvClose ;;
  fig <- (if show_vis then
            fig' <- diagnostics ts_model ;;
            emit (EvPlot "tight_layout") ;;
            ret fig'
          else ret fig) ;;
  emit (EvSummary ts_model) ;;
  s <- lift (model_summary B ts_model) ;;
  ret (s, fig).

(** [pmd.auto_arima(y, ...)] *)
Definition pmd_auto_arima (y : series) (a : auto_args) : M auto_model :=
  emit (EvAutoArima y a) ;;
  lift (Pmdarima.auto_arima (candidate_fit B y) a).

(** [auto_arima_model(...)], called with positional arguments [args] and
    keyword arguments [kw]. *)
Definition auto_arima_model (args : list value) (kw : kwargs) : M auto_model :=
  e <- lift (bind_args auto_arima_model_sig args kw) ;;
  timeseries_dataset <- lift (as_series (arg e "timeseries_dataset")) ;;
  n_d <- lift (ndiffs B timeseries_dataset) ;;
  m <- lift (as_int (arg e "m")) ;;
  n_D <- lift (nsdiffs B timeseries_dataset m) ;;
  start_p <- lift (as_int (arg e "start_p")) ;;
  max_p <- lift (as_int (arg e "max_p")) ;;
  start_q <- lift (as_int (arg e "start_q")) ;;
  max_q <- lift (as_int (arg e "max_q")) ;;
  start_P <- lift (as_int (arg e "start_P")) ;;
  max_P <- lift (as_int (arg e "max_P")) ;;
  start_Q <- lift (as_int (arg e "start_Q")) ;;
  max_Q <- lift (as_int (arg e "max_Q")) ;;
  pmd_auto_arima timeseries_dataset
    {| a_m := m;
       a_start_p := start_p; a_max_p := max_p;
       a_start_q := start_q; a_max_q := max_q;
       a_start_P := start_P; a_max_P := max_P;
       a_start_Q := start_Q; a_max_Q := max_Q;
       a_d := n_d; a_D := n_D; a_error_action := "ignore" |}.

(** [tsa.SARIMAX(endog, order=..., seasonal_order=...,
    enforce_invertibility=...).fit()]: the construction, then [fit]
    without arguments. *)
Definition fit_sarimax (y : series) (o : order_t) (so : seasonal_order_t)
  (invertible : bool) : M sarimax :=
  let model := mkSarimax y o so invertible in
  emit (EvSARIMAX model) ;;
  lift (sarimax_new B model) ;;
  emit (EvFit model []) ;;
  lift (sarimax_fit B model) ;;
  ret model.

(** [create_best_model] from the SARIMAX fit on (lines 139 to 147). *)
Definition create_best_model_fit (timeseries_dataset : series)
  (auto_model_best : auto_model) (show_vis : bool) : M (auto_model * sarimax) :=
  best_model <- fit_sarimax timeseries_dataset (am_order auto_model_best)
                  (am_seasonal_order auto_model_best) false ;;
  (if show_vis then
     emit (EvAutoSummary auto_model_best) ;;
     lift (auto_summary B auto_model_best) ;;
     emit EvDisplay ;;
     _ <- model_performance best_model false ;;
     emit EvDisplay
   else ret tt) ;;
  ret (auto_model_best, best_model).

(** [create_best_model(...)], called with positional arguments [args] and
    keyword arguments [kw]. *)
Definition create_best_model (args : list value) (kw : kwargs)
  : M (auto_model * sarimax) :=
  e <- lift (bind_args create_best_model_sig args kw) ;;
  timeseries_dataset <- lift (as_series (arg e "timeseries_dataset")) ;;
  n_d <- lift (ndiffs B timeseries_dataset) ;;
  m <- lift (as_int (arg e "m")) ;;
  n_D <- lift (nsdiffs B timeseries_dataset m) ;;
  auto_model_best <-
    auto_arima_model [arg e "timeseries_dataset"]
      [ ("m", arg e "m");
        ("start_p", arg e "start_p"); ("max_p", arg e "max_p");
        ("start_q", arg e "start_q"); ("max_q", arg e "max_q");
        ("start_P", arg e "start_P"); ("start_Q", arg e "start_Q");
        ("max_P", arg e "max_P"); ("max_Q", arg e "max_Q");
        ("n_d", VInt n_d); ("n_D", VInt n_D);
        ("error_action", VStr "ignore") ] ;;
  create_best_model_fit timeseries_dataset auto_model_best
    (is_True (arg e "show_vis")).

(** [forecast_and_ci(model, test_data=None, n_yrs_future=None)] *)
Definition forecast_and_ci (model : sarimax) (test_data : option series)
  (n_yrs_future : option Z) : M frame :=
  steps <- match test_data with
           | None => match n_yrs_future with
                     | Some n => ret (12 * n)
                     | None => raise TypeError
                     end
           | Some t => ret (shape0 t)
           end ;;
  emit (EvGetForecast model steps) ;;
  forecast <- lift (get_forecast B model steps) ;;
  forecast_df <- lift (set_columns ["Lower CI"; "Upper CI"] (conf_int forecast)) ;;
  lift (set_column "Forecast" (predicted_mean forecast) forecast_df).

(** [plot_forecast_ttf(train, test, forecast_df, n_yrs_past=5,
    show_vis=False)] *)
Definition plot_forecast_ttf (train test : series) (forecast_df : frame)
  (n_yrs_past : Z) (show_vis : bool) : M figure :=
  emit (EvPlot "subplots") ;;
  let last_n_lags := 12 * n_yrs_past in
  plot "Training Data" (iloc_from (- last_n_lags) train) ;;
  plot "Test Data" test ;;
  fc <- lift (column "Forecast" forecast_df) ;;
  plot "Forecast" fc ;;
  _ <- lift (column "Lower CI" forecast_df) ;;
  _ <- lift (column "Upper CI" forecast_df) ;;
  emit (EvPlot "fill_between") ;;
  emit (EvPlot "set") ;;
  emit (EvPlot "set") ;;
  emit (EvPlot "set_title") ;;
  _ <- lift (item (-1) (sindex train)) ;;
  emit (EvPlot "axvline") ;;
  emit (EvPlot "legend") ;;
  (if show_vis then emit EvShow else emit EvClose) ;;
  ret (FigTrainTest train test forecast_df).

(** [plot_forecast_final(zipcode_val, forecast_full, show_vis=False)] *)
Definition plot_forecast_final (zipcode_val : series) (forecast_full : frame)
  (show_vis : bool) : M figure :=
  emit (EvPlot "subplots") ;;
  plot "Original Data" zipcode_val ;;
  fc <- lift (column "Forecast" forecast_full) ;;
  plot "Forecast" fc ;;
  _ <- lift (column "Lower CI" forecast_full) ;;
  _ <- lift (column "Upper CI" forecast_full) ;;
  emit (EvPlot "fill_between") ;;
  emit (EvPlot "set") ;;
  emit (EvPlot "set") ;;
  emit (EvPlot "set_title") ;;
  _ <- lift (item (-1) (sindex zipcode_val)) ;;
  emit (EvPlot "axvline") ;;
  emit (EvPlot "legend") ;;
  (if show_vis then emit EvShow else emit EvClose) ;;
  ret (FigFinal zipcode_val forecast_full).

(** The ROI of [ts_modeling_workflow] (lines 268 and 269): every entry of
    the forecast against [forecast_full.iloc[0,2]], in percent. *)
Definition roi (forecast_full : frame) : result frame :=
  match iloc2 0 2 forecast_full with
  | Raise x => Raise x
  | Ok investment_cost =>
      Ok (frame_map
            (fun v => fmul (fdiv (fsub v investment_cost) investment_cost) hundred)
            forecast_full)
  end.

Definition workflow_result : Type :=
  frame * row * summary * figure * summary * figure * figure * figure.

(** [ts_modeling_workflow] once the two models of the training data are
    there (lines 244 to 278). *)
Definition workflow_after_models (zipcode_val train test : series)
  (auto_model_train : auto_model) (best_model_train : sarimax)
  (n_yrs_past n_yrs_future : Z) (show_vis : bool) : M workflow_result :=
  '(summary_train, diag_train) <- model_performance best_model_train false ;;
  forecast_train <- forecast_and_ci best_model_train (Some test) None ;;
  training_frcst <- plot_forecast_ttf train test forecast_train n_yrs_past show_vis ;;
  best_model_full <- fit_sarimax zipcode_val (am_order auto_model_train)
                       (am_seasonal_order auto_model_train) false ;;
  '(summary_full, diag_full) <- model_performance best_model_full false ;;
  forecast_full <- forecast_and_ci best_model_full None (Some n_yrs_future) ;;
  final_frcst <- plot_forecast_final zipcode_val forecast_full show_vis ;;
  roi_df <- lift (roi forecast_full) ;;
  roi_final <- lift (iloc_row (-1) roi_df) ;;
  name <- lift (astype_str (sname zipcode_val)) ;;
  let roi_final := set_name name roi_final in
  (if show_vis then ret tt else emit EvClose) ;;
  ret (forecast_full, roi_final, summary_train, diag_train,
       summary_full, diag_full, training_frcst, final_frcst).

(** [ts_modeling_workflow(dataframe, zipcode, threshold=.85, m=12,
    n_yrs_past=5, n_yrs_future=2, show_vis=False)] *)
Definition ts_modeling_workflow (dataframe : list series) (zipcode : label)
  (threshold : float) (m n_yrs_past n_yrs_future : Z) (show_vis : bool)
  : M workflow_result :=
  zipcode_val <- lift (getitem zipcode dataframe) ;;
  '(train, test) <- ts_split zipcode_val threshold show_vis ;;
  '(auto_model_train, best_model_train) <-
    create_best_model [] [("timeseries_dataset", VSeries train); ("m", VInt m)] ;;
  workflow_after_models zipcode_val train test auto_model_train best_model_train
    n_yrs_past n_yrs_future show_vis.

End Functions.

(** What [make_dict] returns: a dict of frames, rows, summaries, figures,
    lists and dicts. *)
Inductive obj : Type :=
| OFrame (f : frame)
| ORow (r : row)
| OSummary (s : summary)
| OFigure (f : figure)
| OList (l : list obj)
| ODict (d : list (string * obj)).

(** [make_dict] from the result of the workflow on (lines 282 to 300). *)
Definition make_dict_of (r : workflow_result) : list (string * obj) :=
  let '(forecast, roi, summary_train, diag_train, summary_full, diag_full,
        training_frcst, final_frcst) := r in
  let zip_tsa_results := [] in
  let metrics := [] in
  let forecast_vis := [] in
  let metrics := dict_set "train" (OList [OSummary summary_train; OFigure diag_train]) metrics in
  let metrics := dict_set "full" (OList [OSummary summary_full; OFigure diag_full]) metrics in
  let forecast_vis := dict_set "train" (OFigure training_frcst) forecast_vis in
  let forecast_vis := dict_set "full" (OFigure final_frcst) forecast_vis in
  let zip_tsa_results := dict_set "forecasted_prices" (OFrame forecast) zip_tsa_results in
  let zip_tsa_results := dict_set "ROI" (ORow roi) zip_tsa_results in
  let zip_tsa_results := dict_set "model_metrics" (ODict metrics) zip_tsa_results in
  let zip_tsa_results := dict_set "model_visuals" (ODict forecast_vis) zip_tsa_results in
  zip_tsa_results.

(** [make_dict(dataframe, zipcode, m=12, show_vis=False)] *)
Definition make_dict (B : backend) (dataframe : list series) (zipcode : label)
  (m : Z) (show_vis : bool) : M (list (string * obj)) :=
  r <- ts_modeling_workflow B dataframe zipcode threshold_default m 5 2 show_vis ;;
  ret (make_dict_of r).

(** The [steps] timestamps that follow [last], one period apart. *)
Definition future_index (last steps : Z) : list Z :=
  map (fun i => last + 1 + Z.of_nat i) (seq 0 (Z.to_nat steps)).

(** The horizon of a forecast: the length of the test data when they are
    given, 12 steps a year when they are not. *)
Definition horizon (test_data : option series) (n_yrs_future : option Z)
  : option Z :=
  match test_data with
  | Some t => Some (shape0 t)
  | None => match n_yrs_future with Some n => Some (12 * n) | None => None end
  end.

(** ** What a run did *)

(** Every call of a run satisfies [P]. *)
Definition all_calls {A} (P : event -> Prop) (c : M A) : Prop :=
  Forall P (calls_of c).

(** The run ends in an exception. *)
Definition raises {A} (c : M A) : Prop := is_ok (value_of c) = false.

(** The calls that fit a model: the order search and the SARIMAX fit. *)
Definition fits_model (e : event) : bool :=
  match e with
  | EvAutoArima _ _ | EvSARIMAX _ | EvFit _ _ => true
  | _ => false
  end.

(** The calls of the stages behind the split: model fits, forecasts,
    diagnostics and summaries. *)
Definition past_split (e : event) : bool :=
  match e with
  | EvAutoArima _ _ | EvAutoSummary _ | EvSARIMAX _ | EvFit _ _
  | EvGetForecast _ _ | EvPlotDiagnostics _ | EvSummary _ => true
  | _ => false
  end.




(** The order search of a run was given the differencing orders that the
    tests find on its data. *)
Definition differencing_fixed (B : backend) (e : event) : Prop :=
  match e with
  | EvAutoArima y a =>
      ndiffs B y = Ok (a_d a) /\ nsdiffs B y (a_m a) = Ok (a_D a)
  | _ => True
  end.

(** ** A backend to run the functions on

    The differencing tests reject an empty series, as the input validation
    of pmdarima does, and a seasonal period below 2; a candidate with no
    autoregressive and no moving-average term at all cannot be fitted; the
    forecast repeats the last observation, one unit either way for the
    confidence interval, over the timestamps that follow the training
    index, and there is none over less than one step. The diagnostics
    index the name of the series for their titles, which a numpy integer
    refuses with [IndexError]. pandas draws every series of floats, one
    without rows as an empty chart. *)

Definition of_Z (z : Z) : float := binary_normalize prec emax z 0 false.

Definition is_empty (s : series) : bool :=
  match srows s with [] => true | _ => false end.

Definition naive_forecast (m : sarimax) (steps : Z) : result forecast_results :=
  if steps <? 1 then Raise ValueError
  else
    match item (-1) (srows (endog m)) with
    | Raise x => Raise x
    | Ok (t, v) =>
        let idx := future_index t steps in
        Ok (mkForecast
              (mkFrame idx
                 [ ("lower y", map (fun _ => fsub v fone) idx);
                   ("upper y", map (fun _ => SFadd prec emax v fone) idx) ])
              (map (fun i => (i, v)) idx))
    end.

Definition naive_candidate (y : series) (o : order_t) (so : seasonal_order_t)
  : result Q :=
  let '(p, _, q) := o in
  let '(P, _, Q, _) := so in
  if (p + q + P + Q =? 0) then Raise ValueError
  else Ok (inject_Z (Z.abs (p - 1) + Z.abs (q - 2) + P + Q)).

Definition naive : backend :=
  {| ndiffs := fun y => if is_empty y then Raise ValueError else Ok 1;
     nsdiffs := fun y m =>
       if (m <? 2) || is_empty y then Raise ValueError else Ok 0;
     candidate_fit := naive_candidate;
     auto_summary := fun _ => Ok "ARIMA Results";
     sarimax_new := fun _ => Ok tt;
     sarimax_fit := fun m => if is_empty (endog m) then Raise ValueError else Ok tt;
     get_forecast := naive_forecast;
     model_summary := fun _ => Ok "SARIMAX Results";
     plot_diagnostics := fun m =>
       match sname (endog m) with
       | LInt _ => Raise IndexError
       | _ => Ok tt
       end;
     series_plot := fun _ => Ok tt |}.

(** Monthly prices of one zipcode: [n] observations from timestamp 1 on. *)
Definition prices (n : nat) : series :=
  mkSeries (LInt 10001)
    (map (fun i => (Z.of_nat i, of_Z (100000 + 500 * Z.of_nat i))) (seq 1 n)).

(** The same prices as a column of a table whose labels are numpy
    strings. *)
Definition listings (n : nat) : series :=
  mkSeries (LNpStr "10001") (srows (prices n)).

(** [1.5] and [2.0 ** 64] *)
Definition one_and_half : float := S754_finite false 6755399441055744 (-52).
Definition two64 : float := S754_finite false 4503599627370496 12.

(** A forecast of two months: 100 and 105, between 90 and 110 and between
    95 and 120. *)
Definition forecast_example : frame :=
  mkFrame [1; 2]
    [ ("Lower CI", [of_Z 90; of_Z 95]);
      ("Upper CI", [of_Z 110; of_Z 120]);
      ("Forecast", [of_Z 100; of_Z 105]) ].

(** The model an order search returned, to run the later stages on. *)
Definition auto_example : auto_model := mkAutoModel (1, 1, 2) (0, 0, 0, 12) 0.

(** The arguments of the order search of [auto_arima_model(prices, max_p=2,
    max_q=3, max_P=1, max_Q=1)] on the backend above. *)
Definition search_example : auto_args :=
  {| a_m := 12;
     a_start_p := 0; a_max_p := 2;
     a_start_q := 0; a_max_q := 3;
     a_start_P := 0; a_max_P := 1;
     a_start_Q := 0; a_max_Q := 1;
     a_d := 1; a_D := 0; a_error_action := "ignore" |}.

Definition search_example_kw : kwargs :=
  [("max_p", VInt 2); ("max_q", VInt 3); ("max_P", VInt 1); ("max_Q", VInt 1)].

(** ** Notions for further properties *)

(** A frame whose columns are all as long as its index. *)
Definition well_formed (f : frame) : Prop :=
  Forall (fun c => List.length (snd c) = List.length (findex f)) (fcols f).

(** The return of [v] on the cost [c], in percent, as [roi_df] has it. *)
Definition percent_of (c v : float) : float :=
  fmul (fdiv (fsub v c) c) hundred.

(** The calls that only draw. *)
Definition is_drawing (e : event) : bool :=
  match e with EvPlot _ => true | _ => false end.

(** The final ROI of a result of the workflow. *)
Definition roi_final_of (r : workflow_result) : row :=
  let '(_, roi_final, _, _, _, _, _, _) := r in roi_final.

(** The integer a call gives for the parameter [k] by keyword, [dflt]
    when it has no such keyword. *)
Definition keyword_or (kw : kwargs) (k : string) (dflt : Z) : Z :=
  match lookup k kw with Some (VInt z) => z | _ => dflt end.

(** ** Facts about binary64 rounding

    Coarse bounds on the mantissa and exponent that [binary_round_aux]
    returns: enough to show that a product of moderate size is finite. *)

(** Forget what a power of two is before linear arithmetic. *)
Ltac forget_pow :=
  repeat match goal with
         | |- context [2 ^ ?x] =>
             let v := fresh "pw" in set (v := 2 ^ x) in *; clearbody v
         | H : context [2 ^ ?x] |- _ =>
             let v := fresh "pw" in set (v := 2 ^ x) in *; clearbody v
         end.

Section RoundingBounds.
Variables p em : Z.

Lemma digits2_pos_bounds (m : positive) :
  2 ^ (Zpos (digits2_pos m) - 1) <= Zpos m < 2 ^ Zpos (digits2_pos m).
Proof.
  induction m as [m IH|m IH|]; simpl digits2_pos.
  - rewrite Pos2Z.inj_succ, (Pos2Z.inj_xI m).
    replace (Z.succ (Zpos (digits2_pos m)) - 1)
      with (Z.succ (Zpos (digits2_pos m) - 1)) by lia.
    rewrite !Z.pow_succ_r by lia. forget_pow. lia.
  - rewrite Pos2Z.inj_succ, (Pos2Z.inj_xO m).
    replace (Z.succ (Zpos (digits2_pos m)) - 1)
      with (Z.succ (Zpos (digits2_pos m) - 1)) by lia.
    rewrite !Z.pow_succ_r by lia. forget_pow. lia.
  - cbn. lia.
Qed.

Lemma Zdigits2_le (a k : Z) :
  0 <= a -> 0 <= k -> a < 2 ^ k -> Zdigits2 a <= k.
Proof.
  intros Ha Hk Hlt. destruct a as [|m|m]; simpl; try lia.
  destruct (Z_le_gt_dec (Zpos (digits2_pos m)) k) as [|Hgt]; [assumption|].
  pose proof (digits2_pos_bounds m) as [Hlo _].
  assert (2 ^ k <= 2 ^ (Zpos (digits2_pos m) - 1))
    by (apply Z.pow_le_mono_r; lia).
  forget_pow. lia.
Qed.

Lemma Zdigits2_lt_pow (a : Z) : 0 <= a -> a < 2 ^ Zdigits2 a.
Proof.
  intros Ha. destruct a as [|m|m]; simpl; try lia.
  apply digits2_pos_bounds.
Qed.

Lemma Zdigits2_nonneg (a : Z) : 0 <= Zdigits2 a.
Proof. destruct a; simpl; lia. Qed.

Lemma Zdigits2_mono (a b : Z) : 0 <= a <= b -> Zdigits2 a <= Zdigits2 b.
Proof.
  intros H. apply Zdigits2_le; try lia.
  - apply Zdigits2_nonneg.
  - pose proof (Zdigits2_lt_pow b). forget_pow. lia.
Qed.

Lemma Zdigits2_succ (a : Z) : 0 <= a -> Zdigits2 (a + 1) <= Zdigits2 a + 1.
Proof.
  intros Ha. pose proof (Zdigits2_nonneg a). pose proof (Zdigits2_lt_pow a Ha).
  apply Zdigits2_le; try lia.
  rewrite Z.pow_add_r by lia. change (2 ^ 1) with 2. forget_pow. lia.
Qed.

Lemma Zdigits2_mul (a b : Z) :
  0 <= a -> 0 <= b -> Zdigits2 (a * b) <= Zdigits2 a + Zdigits2 b.
Proof.
  intros Ha Hb.
  pose proof (Zdigits2_nonneg a). pose proof (Zdigits2_nonneg b).
  pose proof (Zdigits2_lt_pow a Ha). pose proof (Zdigits2_lt_pow b Hb).
  apply Zdigits2_le; try nia.
  rewrite Z.pow_add_r by lia. forget_pow. nia.
Qed.

Lemma shr_1_range (r : shr_record) :
  0 <= shr_m r -> 0 <= shr_m (shr_1 r) <= shr_m r.
Proof.
  destruct r as [m r s]. destruct m as [|[m|m|]|m]; simpl; lia.
Qed.

Lemma iter_shr_1_range (n : positive) :
  forall r, 0 <= shr_m r -> 0 <= shr_m (iter_pos shr_1 n r) <= shr_m r.
Proof.
  induction n as [n IH|n IH|]; intros r Hr; simpl.
  - pose proof (shr_1_range r Hr) as H1.
    pose proof (IH (shr_1 r) (proj1 H1)) as H2.
    pose proof (IH _ (proj1 H2)). lia.
  - pose proof (IH r Hr) as H1. pose proof (IH _ (proj1 H1)). lia.
  - apply shr_1_range, Hr.
Qed.

Lemma shr_m_of_loc (m : Z) (l : location) : shr_m (shr_record_of_loc m l) = m.
Proof. destruct l as [|[]]; reflexivity. Qed.

Lemma fexp_mono (x y : Z) : x <= y -> fexp p em x <= fexp p em y.
Proof. unfold fexp. lia. Qed.

(** One alignment step: the mantissa does not grow, the exponent is at
    most the larger of the old one and the canonical one. *)
Lemma shr_fexp_range (m e : Z) (l : location) (D E : Z) :
  0 <= m -> Zdigits2 m <= D -> e <= E ->
  0 <= shr_m (fst (shr_fexp p em m e l)) <= m /\
  snd (shr_fexp p em m e l) <= Z.max E (fexp p em (D + E)).
Proof.
  intros Hm HD HE. unfold shr_fexp, shr.
  destruct (fexp p em (Zdigits2 m + e) - e) as [|n|n] eqn:Hn; simpl.
  - rewrite shr_m_of_loc. lia.
  - pose proof (iter_shr_1_range n (shr_record_of_loc m l)) as H.
    rewrite shr_m_of_loc in H. split; [apply H, Hm|].
    pose proof (fexp_mono (Zdigits2 m + e) (D + E)). lia.
  - rewrite shr_m_of_loc. lia.
Qed.

Lemma round_nearest_even_range (m : Z) (l : location) :
  m <= round_nearest_even m l <= m + 1.
Proof. destruct l as [|[]]; simpl; try destruct (Z.even m); lia. Qed.

Lemma binary_round_aux_finite (s : bool) (m e : Z) (l : location) (D E : Z) :
  0 <= m -> Zdigits2 m <= D -> e <= E ->
  exponent_bound p em D E <= em - p ->
  finite_within (D + 1) (exponent_bound p em D E) (binary_round_aux p em s m e l).
Proof.
  intros Hm HD HE Hb. unfold binary_round_aux.
  unfold exponent_bound in *. cbv zeta in *.
  pose proof (shr_fexp_range m e l D E Hm HD HE) as [Hr1 He1].
  destruct (shr_fexp p em m e l) as [r1 e1]; simpl in Hr1, He1.
  set (E1 := Z.max E (fexp p em (D + E))) in *.
  pose proof (round_nearest_even_range (shr_m r1) (loc_of_shr_record r1)) as Hrne.
  set (mr := round_nearest_even (shr_m r1) (loc_of_shr_record r1)) in *.
  assert (Hmr : 0 <= mr) by lia.
  assert (HDr : Zdigits2 mr <= D + 1).
  { transitivity (Zdigits2 (m + 1)).
    - apply Zdigits2_mono. lia.
    - pose proof (Zdigits2_succ m Hm). lia. }
  pose proof (shr_fexp_range mr e1 loc_Exact (D + 1) E1 Hmr HDr He1) as [Hr2 He2].
  destruct (shr_fexp p em mr e1 loc_Exact) as [r2 e2]; simpl in Hr2, He2.
  destruct (shr_m r2) as [|m2|m2] eqn:Hm2; [exact I| |lia].
  assert (Hle : (e2 <=? em - p) = true) by (apply Z.leb_le; lia).
  rewrite Hle. simpl. split; [|lia].
  transitivity (Zdigits2 mr); [|assumption].
  change (Zpos (digits2_pos m2)) with (Zdigits2 (Zpos m2)).
  apply Zdigits2_mono. lia.
Qed.

Lemma iter_xO_value (m d : positive) :
  Zpos (Pos.iter xO m d) = Zpos m * 2 ^ Zpos d.
Proof.
  induction d as [|d IH] using Pos.peano_ind.
  - simpl. lia.
  - rewrite Pos.iter_succ, (Pos2Z.inj_xO (Pos.iter xO m d)), IH, Pos2Z.inj_succ,
      Z.pow_succ_r by lia.
    lia.
Qed.

(** [binary_round] of a mantissa of at most [D >= p] digits. *)
Lemma binary_round_finite (s : bool) (m : positive) (e : Z) (D E : Z) :
  0 < p -> p <= D -> Zpos (digits2_pos m) <= D -> e <= E ->
  exponent_bound p em D E <= em - p ->
  finite_within (D + 1) (exponent_bound p em D E) (binary_round p em s m e).
Proof.
  intros Hp HpD HD HE Hb. unfold binary_round, shl_align.
  destruct (fexp p em (Zpos (digits2_pos m) + e) - e) as [|d|d] eqn:Hd;
    try (apply binary_round_aux_finite; simpl; lia).
  apply binary_round_aux_finite; try lia.
  apply Zdigits2_le; try lia.
  rewrite iter_xO_value.
  pose proof (digits2_pos_bounds m) as [_ Hm].
  assert (Hdd : Zpos (digits2_pos m) + Zpos d <= D) by (unfold fexp in Hd; lia).
  assert (2 ^ (Zpos (digits2_pos m) + Zpos d) <= 2 ^ D)
    by (apply Z.pow_le_mono_r; lia).
  rewrite Z.pow_add_r in * by lia.
  assert (0 < 2 ^ Zpos d) by (apply Z.pow_pos_nonneg; lia).
  forget_pow. nia.
Qed.

End RoundingBounds.



(** ** Facts about the runtime *)

Lemma valid_digits (s : bool) (m : positive) (e : Z) :
  is_float64 (S754_finite s m e) -> Zpos (digits2_pos m) <= 53.
Proof.
  unfold is_float64, valid_binary, bounded, canonical_mantissa, fexp, emin, prec, emax.
  intros H. apply andb_prop in H as [H _]. apply Z.eqb_eq in H. lia.
Qed.

Lemma float_of_int_finite (n : Z) :
  0 <= n <= maxsize -> exists y, float_of_int n = Ok y /\ finite_within 64 21 y.
Proof.
  intros [Hlo Hhi]. unfold float_of_int, binary_normalize.
  destruct n as [|m|m]; [eexists; split; [reflexivity|exact I]| |lia].
  assert (Hd : Zpos (digits2_pos m) <= 63).
  { apply (Zdigits2_le (Zpos m) 63); try lia.
    unfold maxsize in Hhi. lia. }
  pose proof (binary_round_finite prec emax false m 0 63 0) as Hf.
  change (exponent_bound prec emax 63 0) with 21 in Hf.
  change (63 + 1) with 64 in Hf.
  specialize (Hf ltac:(reflexivity) ltac:(unfold prec; lia) Hd ltac:(lia)
                 ltac:(unfold emax, prec; lia)).
  destruct (binary_round prec emax false m 0) eqn:E; simpl in Hf; try contradiction;
    eexists; split; try reflexivity; assumption.
Qed.

Lemma fmul_finite (y t : float) (Et : Z) :
  finite_within 64 21 y -> finite_within 53 Et t -> Et <= 800 ->
  is_finite (fmul y t) = true.
Proof.
  intros Hy Ht HEt.
  destruct y as [sy| | |sy my ey]; simpl in Hy; try contradiction;
    destruct t as [st| | |st mt et]; simpl in Ht; try contradiction;
    try reflexivity.
  unfold fmul, SFmul.
  pose proof (binary_round_aux_finite prec emax (xorb sy st) (Zpos (my * mt))
                (ey + et) loc_Exact 117 (21 + Et)) as Hf.
  assert (Hb : exponent_bound prec emax 117 (21 + Et) <= emax - prec)
    by (unfold exponent_bound, fexp, emin, prec, emax; lia).
  assert (Hd : Zdigits2 (Zpos (my * mt)) <= 117).
  { rewrite Pos2Z.inj_mul.
    pose proof (Zdigits2_mul (Zpos my) (Zpos mt)) as Hm. simpl Zdigits2 in *. lia. }
  specialize (Hf ltac:(lia) Hd ltac:(lia) Hb).
  destruct (binary_round_aux prec emax (xorb sy st) (Zpos (my * mt)) (ey + et) loc_Exact);
    simpl in Hf; try contradiction; reflexivity.
Qed.

Lemma round_finite (x : float) :
  is_finite x = true -> exists cut, round x = Ok cut.
Proof. destruct x; simpl; intros H; try discriminate; eexists; reflexivity. Qed.

(** A float below a finite positive one in absolute value is a zero or
    finite, with an exponent that is not larger. *)
Lemma flt_abs_exponent (t : float) (mc : positive) (ec : Z) :
  flt (SFabs t) (S754_finite false mc ec) = true ->
  match t with
  | S754_zero _ => True
  | S754_finite _ _ e => e <= ec
  | _ => False
  end.
Proof.
  destruct t as [s|s| |s m e]; simpl; unfold flt, SFltb; simpl; try discriminate; auto.
  destruct (Z.compare_spec e ec); try discriminate; intros _; lia.
Qed.

(** [round] goes to the even neighbour on a tie: [round(2.5) == 2],
    [round(3.5) == 4], [round(-2.5) == -2], [round(0.5) == 0]. *)
Example round_ties :
  round (S754_finite false 5 (-1)) = Ok 2 /\
  round (S754_finite false 7 (-1)) = Ok 4 /\
  round (S754_finite true 5 (-1)) = Ok (-2) /\
  round (S754_finite false 1 (-1)) = Ok 0.
Proof. repeat split; reflexivity. Qed.

(** Slices clamp their bounds and count negative ones from the end. *)
Example slices_clamp :
  slice_to 5 [1; 2; 3] = [1; 2; 3] /\ slice_from 5 [1; 2; 3] = [] /\
  slice_to (-1) [1; 2; 3] = [1; 2] /\ slice_from (-1) [1; 2; 3] = [3] /\
  slice_to (-5) [1; 2; 3] = [] /\ slice_from (-5) [1; 2; 3] = [1; 2; 3].
Proof. repeat split; reflexivity. Qed.

(** A keyword that is a parameter binds and the defaults fill the rest; a
    keyword that is none, and a parameter given twice, are [TypeError]s. *)
Example binding_keywords :
  map_result (fun e => (arg e "max_p", arg e "max_q"))
    (bind_args auto_arima_model_sig [VNone] [("max_p", VInt 3)])
  = Ok (VInt 3, VInt 7) /\
  bind_args auto_arima_model_sig [VNone] [("n_d", VInt 1)] = Raise TypeError /\
  bind_args auto_arima_model_sig [VNone; VInt 12] [("m", VInt 12)] = Raise TypeError /\
  bind_args auto_arima_model_sig [] [] = Raise TypeError.
Proof. repeat split; reflexivity. Qed.

Lemma slice_partition {A} (cut : Z) (l : list A) :
  slice_to cut l ++ slice_from cut l = l.
Proof. apply firstn_skipn. Qed.

Lemma slice_lengths {A} (cut : Z) (l : list A) :
  len (slice_to cut l) + len (slice_from cut l) = len l.
Proof.
  unfold len. rewrite <- Nat2Z.inj_add, <- length_app, slice_partition. reflexivity.
Qed.

Section SplitFacts.
Variable B : backend.

(** Without the plot, [ts_split] is [round] and two slices. *)
Lemma ts_split_value (S : series) (t x : float) (cut : Z) :
  int_mul_float (shape0 S) t = Ok x -> round x = Ok cut ->
  ts_split B S t false = (Ok (iloc_to cut S, iloc_from cut S), []).
Proof. intros Hx Hc. unfold ts_split. rewrite Hx. simpl. rewrite Hc. reflexivity. Qed.

(** [ts_split] returns on every series and every threshold that is finite
    with an exponent of at most 800. *)
Lemma ts_split_returns (S : series) (t : float) (Et : Z) :
  shape0 S <= maxsize -> finite_within 53 Et t -> Et <= 800 ->
  exists x cut,
    int_mul_float (shape0 S) t = Ok x /\ round x = Ok cut /\
    ts_split B S t false = (Ok (iloc_to cut S, iloc_from cut S), []).
Proof.
  intros Hn Ht HEt.
  destruct (float_of_int_finite (shape0 S)) as [y [Hy Hfin]].
  { unfold shape0, len in *. lia. }
  pose proof (fmul_finite y t Et Hfin Ht HEt) as Hx.
  destruct (round_finite _ Hx) as [cut Hcut].
  exists (fmul y t), cut.
  assert (Hm : int_mul_float (shape0 S) t = Ok (fmul y t))
    by (unfold int_mul_float; rewrite Hy; reflexivity).
  repeat split; try assumption. apply (ts_split_value S t (fmul y t) cut Hm Hcut).
Qed.

End SplitFacts.

(** ** The splitter *)

(** C2 : For every non-empty series and every threshold strictly between 0
    and 1, [ts_split] called without the plot returns the pair (train,
    test) with train = S[:cut] and test = S[cut:] for cut =
    round(len(S) * threshold); the two lengths add up to len(S) and train
    followed by test is S again, row by row and under the same name. *)
Theorem ts_split_partitions (B : backend) (S : series) (t : float) :
  srows S <> [] -> shape0 S <= maxsize ->
  is_float64 t -> flt fzero t = true -> flt t fone = true ->
  exists x cut train test,
    int_mul_float (shape0 S) t = Ok x /\ round x = Ok cut /\
    ts_split B S t false = (Ok (train, test), []) /\
    train = iloc_to cut S /\ test = iloc_from cut S /\
    shape0 train + shape0 test = shape0 S /\
    srows train ++ srows test = srows S /\
    sname train = sname S /\ sname test = sname S.
Proof.
  intros _ Hn Hv H0 H1.
  assert (Ht : finite_within 53 (-52) t).
  { destruct t as [s|s| |s m e]; try discriminate.
    - destruct s; discriminate.
    - destruct s; [discriminate|].
      split; [apply (valid_digits false m e Hv)|].
      apply (flt_abs_exponent (S754_finite false m e) 4503599627370496 (-52) H1). }
  destruct (ts_split_returns B S t (-52) Hn Ht ltac:(lia)) as [x [cut [Hx [Hc Hs]]]].
  exists x, cut, (iloc_to cut S), (iloc_from cut S).
  repeat split; try assumption; try reflexivity.
  - apply slice_lengths.
  - apply slice_partition.
Qed.

Lemma ts_split_partitions_witness :
  exists x cut train test,
    int_mul_float (shape0 (prices 120)) threshold_default = Ok x /\
    round x = Ok cut /\
    ts_split naive (prices 120) threshold_default false = (Ok (train, test), []) /\
    train = iloc_to cut (prices 120) /\ test = iloc_from cut (prices 120) /\
    shape0 train + shape0 test = shape0 (prices 120) /\
    srows train ++ srows test = srows (prices 120) /\
    sname train = sname (prices 120) /\ sname test = sname (prices 120).
Proof.
  apply (ts_split_partitions naive (prices 120) threshold_default).
  - vm_compute. discriminate.
  - vm_compute. discriminate.
  - reflexivity.
  - reflexivity.
  - reflexivity.
Defined.

(** The scenario of the specification: 120 monthly observations split at
    0.85 into 102 and 18. *)
Example ts_split_120 :
  match value_of (ts_split naive (prices 120) threshold_default false) with
  | Ok (train, test) => (shape0 train, shape0 test)
  | Raise _ => (0, 0)
  end = (102, 18).
Proof. vm_compute. reflexivity. Qed.

(** C4, as stated, fails: an empty series with the default threshold, and
    three observations with the threshold 1.5, are both split without an
    error, into two empty series and into the whole series and an empty
    one. *)
Lemma ts_split_unguarded :
  value_of (ts_split naive (prices 0) threshold_default false)
    = Ok (prices 0, prices 0) /\
  value_of (ts_split naive (prices 3) one_and_half false)
    = Ok (prices 3, prices 0).
Proof. split; vm_compute; reflexivity. Qed.

(** C4, amended : [ts_split] validates neither of its arguments. For every
    series, the empty one included, and every threshold that is finite and
    below 2^64 in absolute value, inside (0,1) or not, it returns
    (S[:cut], S[cut:]) for cut = round(len(S) * threshold), two parts that
    make up S; for the empty series both are empty. It fails where [round]
    does: with [ValueError] on a threshold that is NaN. *)
Theorem ts_split_unvalidated (B : backend) (S : series) (t : float) :
  shape0 S <= maxsize -> is_float64 t -> flt (SFabs t) two64 = true ->
  (exists x cut,
     int_mul_float (shape0 S) t = Ok x /\ round x = Ok cut /\
     ts_split B S t false = (Ok (iloc_to cut S, iloc_from cut S), []) /\
     srows (iloc_to cut S) ++ srows (iloc_from cut S) = srows S /\
     (srows S = [] -> iloc_to cut S = S /\ iloc_from cut S = S)) /\
  ts_split B S S754_nan false = (Raise ValueError, []).
Proof.
  intros Hn Hv Hlt. split.
  - assert (Ht : finite_within 53 12 t).
    { pose proof (flt_abs_exponent t _ _ Hlt) as He.
      destruct t as [s|s| |s m e]; try contradiction; [exact I|].
      split; [apply (valid_digits s m e Hv)|exact He]. }
    destruct (ts_split_returns B S t 12 Hn Ht ltac:(lia)) as [x [cut [Hx [Hc Hs]]]].
    exists x, cut. repeat split; try assumption.
    + apply slice_partition.
    + destruct S as [n rows]; simpl in *; subst rows.
      unfold iloc_to, slice_to. simpl. rewrite firstn_nil. reflexivity.
    + destruct S as [n rows]; simpl in *; subst rows.
      unfold iloc_from, slice_from. simpl. rewrite skipn_nil. reflexivity.
  - destruct (float_of_int_finite (shape0 S)) as [y [Hy _]].
    { unfold shape0, len in *. lia. }
    unfold ts_split, int_mul_float. rewrite Hy.
    replace (fmul y S754_nan) with S754_nan by (destruct y; reflexivity).
    reflexivity.
Qed.

Lemma ts_split_unvalidated_witness :
  (exists x cut,
     int_mul_float (shape0 (prices 3)) one_and_half = Ok x /\ round x = Ok cut /\
     ts_split naive (prices 3) one_and_half false
       = (Ok (iloc_to cut (prices 3), iloc_from cut (prices 3)), []) /\
     srows (iloc_to cut (prices 3)) ++ srows (iloc_from cut (prices 3))
       = srows (prices 3) /\
     (srows (prices 3) = [] ->
      iloc_to cut (prices 3) = prices 3 /\ iloc_from cut (prices 3) = prices 3)) /\
  ts_split naive (prices 3) S754_nan false = (Raise ValueError, []).
Proof.
  apply (ts_split_unvalidated naive (prices 3) one_and_half).
  - vm_compute. discriminate.
  - reflexivity.
  - reflexivity.
Defined.

(** ** Facts about runs *)

Lemma bind_lift_ok {A C} (a : A) (k : A -> M C) : bind (lift (Ok a)) k = k a.
Proof. unfold bind, lift. destruct (k a). reflexivity. Qed.

Lemma bind_lift_raise {A C} (x : exn) (k : A -> M C) :
  bind (lift (Raise x)) k = (Raise x, []).
Proof. reflexivity. Qed.

Lemma bind_ret {A C} (a : A) (k : A -> M C) : bind (ret a) k = k a.
Proof. unfold bind, ret. destruct (k a). reflexivity. Qed.

Lemma value_bind {A C} (c : M A) (k : A -> M C) :
  value_of (bind c k) =
  match value_of c with Ok a => value_of (k a) | Raise x => Raise x end.
Proof.
  unfold value_of, bind. destruct c as [[a|x] tr]; simpl; [|reflexivity].
  destruct (k a). reflexivity.
Qed.

Lemma calls_bind {A C} (c : M A) (k : A -> M C) :
  calls_of (bind c k) =
  calls_of c ++ match value_of c with Ok a => calls_of (k a) | Raise _ => [] end.
Proof.
  unfold calls_of, value_of, bind. destruct c as [[a|x] tr]; simpl.
  - destruct (k a). reflexivity.
  - symmetry. apply app_nil_r.
Qed.

Lemma all_calls_bind {A C} (P : event -> Prop) (c : M A) (k : A -> M C) :
  all_calls P c -> (forall a, value_of c = Ok a -> all_calls P (k a)) ->
  all_calls P (bind c k).
Proof.
  unfold all_calls. intros Hc Hk. rewrite calls_bind. apply Forall_app. split; [assumption|].
  destruct (value_of c) as [a|x]; [apply Hk; reflexivity|constructor].
Qed.

Lemma all_calls_ret {A} (P : event -> Prop) (a : A) : all_calls P (ret a).
Proof. constructor. Qed.

Lemma all_calls_raise {A} (P : event -> Prop) (x : exn) : all_calls P (@raise A x).
Proof. constructor. Qed.

Lemma all_calls_lift {A} (P : event -> Prop) (r : result A) : all_calls P (lift r).
Proof. constructor. Qed.

Lemma all_calls_emit (P : event -> Prop) (e : event) : P e -> all_calls P (emit e).
Proof. intros H. repeat constructor. exact H. Qed.

Lemma raises_bind {A C} (c : M A) (k : A -> M C) :
  (forall a, value_of c = Ok a -> raises (k a)) -> raises (bind c k).
Proof.
  unfold raises. intros Hk. rewrite value_bind.
  destruct (value_of c) as [a|x]; [apply Hk; reflexivity|reflexivity].
Qed.

Lemma raises_first {A C} (c : M A) (k : A -> M C) : raises c -> raises (bind c k).
Proof.
  unfold raises. intros Hc. rewrite value_bind.
  destruct (value_of c); [discriminate|reflexivity].
Qed.

(** The calls of a run built from the operations of the monad. *)
Ltac calls :=
  repeat first
    [ apply all_calls_ret
    | apply all_calls_raise
    | apply all_calls_lift
    | apply all_calls_emit; try reflexivity; try exact I
    | apply all_calls_bind; [|intros ? ?]
    | progress cbv beta iota
    | match goal with
      | |- all_calls _ (if ?b then _ else _) => destruct b
      | |- all_calls _ (match ?x with (_, _) => _ end) => destruct x
      | |- all_calls _ (match ?x with Some _ => _ | None => _ end) => destruct x
      end ].

Section RunFacts.
Variable B : backend.

Lemma plot_calls (P : event -> Prop) (what : string) (y : series) :
  P (EvPlot what) -> all_calls P (plot B what y).
Proof. intros H. unfold plot. calls. exact H. Qed.

(** [ts_split] only draws. *)
Lemma ts_split_calls (S : series) (t : float) (show_vis : bool) :
  all_calls (fun e => past_split e = false) (ts_split B S t show_vis).
Proof. unfold ts_split. calls; apply plot_calls; reflexivity. Qed.

(** The call of [auto_arima_model] that [create_best_model] makes does not
    bind: [n_d] is no parameter of [auto_arima_model]. *)
Lemma auto_arima_model_rejects (ds m sp mp sq mq sP sQ mP mQ nd nD ea : value) :
  auto_arima_model B [ds]
    [ ("m", m); ("start_p", sp); ("max_p", mp); ("start_q", sq); ("max_q", mq);
      ("start_P", sP); ("start_Q", sQ); ("max_P", mP); ("max_Q", mQ);
      ("n_d", nd); ("n_D", nD); ("error_action", ea) ]
  = (Raise TypeError, []).
Proof. reflexivity. Qed.

(** [create_best_model] never returns, and fits nothing on the way. *)
Lemma create_best_model_fails (args : list value) (kw : kwargs) :
  raises (create_best_model B args kw) /\
  calls_of (create_best_model B args kw) = [].
Proof.
  unfold create_best_model.
  destruct (bind_args create_best_model_sig args kw) as [e|x];
    [rewrite bind_lift_ok|split; reflexivity].
  destruct (as_series (arg e "timeseries_dataset")) as [ds|x];
    [rewrite bind_lift_ok|split; reflexivity].
  destruct (ndiffs B ds) as [d|x]; [rewrite bind_lift_ok|split; reflexivity].
  destruct (as_int (arg e "m")) as [m|x]; [rewrite bind_lift_ok|split; reflexivity].
  destruct (nsdiffs B ds m) as [D|x]; [rewrite bind_lift_ok|split; reflexivity].
  rewrite auto_arima_model_rejects. split; reflexivity.
Qed.

End RunFacts.

(** ** The broken call in [create_best_model] *)

Section WorkflowFails.
Variable B : backend.

Lemma create_best_model_calls (P : event -> Prop) (args : list value) (kw : kwargs) :
  all_calls P (create_best_model B args kw).
Proof.
  unfold all_calls. rewrite (proj2 (create_best_model_fails B args kw)). constructor.
Qed.

Lemma no_value_of_raises {A} (c : M A) (a : A) (Q : Prop) :
  raises c -> value_of c = Ok a -> Q.
Proof. unfold raises. intros H E. rewrite E in H. discriminate. Qed.

(** [ts_modeling_workflow] ends in [create_best_model] at the latest. *)
Lemma ts_modeling_workflow_fails (dataframe : list series) (zipcode : label)
  (threshold : float) (m n_yrs_past n_yrs_future : Z) (show_vis : bool) :
  raises (ts_modeling_workflow B dataframe zipcode threshold m n_yrs_past
            n_yrs_future show_vis) /\
  all_calls (fun e => past_split e = false)
    (ts_modeling_workflow B dataframe zipcode threshold m n_yrs_past
       n_yrs_future show_vis).
Proof.
  unfold ts_modeling_workflow. split.
  - apply raises_bind. intros zv _. apply raises_bind. intros [train test] _.
    apply raises_first. apply create_best_model_fails.
  - apply all_calls_bind; [apply all_calls_lift|]. intros zv _.
    apply all_calls_bind; [apply ts_split_calls|]. intros [train test] _.
    apply all_calls_bind; [apply create_best_model_calls|]. intros r Hr.
    exact (no_value_of_raises _ r _ (proj1 (create_best_model_fails B _ _)) Hr).
Qed.

End WorkflowFails.

(** C1, as stated, fails: on an empty dataset, and on a seasonal period of
    1, the differencing tests of lines 129 and 130 raise [ValueError]
    before the call of [auto_arima_model] is reached. *)
Lemma create_best_model_value_error :
  value_of (create_best_model naive [VSeries (prices 0)] []) = Raise ValueError /\
  value_of (create_best_model naive [VSeries (prices 24)] [("m", VInt 1)])
    = Raise ValueError.
Proof. split; reflexivity. Qed.

(** C1, amended : [create_best_model] never returns and fits no model,
    whatever its arguments: when the differencing tests [ndiffs] and
    [nsdiffs] return on the dataset, it raises [TypeError], because it
    calls [auto_arima_model] with the keywords [n_d], [n_D] and
    [error_action], which are no parameters of it; when one of them raises,
    that exception ends the call. So [ts_modeling_workflow] raises on every
    input without a model fit or a forecast, and [make_dict] with it. *)
Theorem create_best_model_type_error (B : backend) :
  (forall args kw,
     raises (create_best_model B args kw) /\
     all_calls (fun e => fits_model e = false) (create_best_model B args kw)) /\
  (forall args kw e ds d m D,
     bind_args create_best_model_sig args kw = Ok e ->
     as_series (arg e "timeseries_dataset") = Ok ds ->
     ndiffs B ds = Ok d ->
     as_int (arg e "m") = Ok m ->
     nsdiffs B ds m = Ok D ->
     create_best_model B args kw = (Raise TypeError, [])) /\
  (forall dataframe zipcode threshold m n_yrs_past n_yrs_future show_vis,
     raises (ts_modeling_workflow B dataframe zipcode threshold m n_yrs_past
               n_yrs_future show_vis) /\
     all_calls (fun e => past_split e = false)
       (ts_modeling_workflow B dataframe zipcode threshold m n_yrs_past
          n_yrs_future show_vis)) /\
  (forall dataframe zipcode m show_vis,
     raises (make_dict B dataframe zipcode m show_vis)).
Proof.
  repeat split.
  - apply create_best_model_fails.
  - apply create_best_model_calls.
  - intros args kw e ds d m D He Hds Hd Hm HD. unfold create_best_model.
    rewrite He, bind_lift_ok, Hds, bind_lift_ok, Hd, bind_lift_ok, Hm,
      bind_lift_ok, HD, bind_lift_ok.
    rewrite auto_arima_model_rejects. reflexivity.
  - apply ts_modeling_workflow_fails.
  - apply ts_modeling_workflow_fails.
  - intros. unfold make_dict. apply raises_first. apply ts_modeling_workflow_fails.
Qed.

Lemma create_best_model_type_error_witness :
  create_best_model naive [VSeries (prices 24)] [("max_p", VInt 3)]
  = (Raise TypeError, []).
Proof.
  refine (proj1 (proj2 (create_best_model_type_error naive))
            [VSeries (prices 24)] [("max_p", VInt 3)] _ (prices 24) 1 12 0 _ _ _ _ _);
    reflexivity.
Defined.

(** ** The return on investment *)

Lemma item_map {A C} (g : A -> C) (i : Z) (l : list A) :
  item i (map g l) = map_result g (item i l).
Proof.
  unfold item, len. rewrite length_map. cbv zeta.
  match goal with |- context [if ?b then Raise IndexError else _] => destruct b end;
    [reflexivity|].
  rewrite nth_error_map. destruct (nth_error l _); reflexivity.
Qed.

Lemma iloc2_frame_map (g : float -> float) (i j : Z) (f : frame) :
  iloc2 i j (frame_map g f) = map_result g (iloc2 i j f).
Proof.
  unfold iloc2, frame_map. simpl. rewrite item_map.
  destruct (item j (fcols f)) as [[n vs]|x]; simpl; [|reflexivity].
  apply item_map.
Qed.

(** A finite float minus itself is +0. *)
Lemma fsub_diag (s : bool) (m : positive) (e : Z) :
  fsub (S754_finite s m e) (S754_finite s m e) = S754_zero false.
Proof.
  unfold fsub, SFsub. rewrite Z.min_id, Z.sub_diag. reflexivity.
Qed.

(** C3, as stated, fails: in the forecast of 100 between 90 and 110 the
    ROI of the first row is -10 percent in the column Lower CI and +10
    percent in the column Upper CI, not 0; every column is set against the
    first entry of the column Forecast, not against its own. *)
Lemma roi_first_row_nonzero :
  iloc2 0 2 forecast_example = Ok (of_Z 100) /\
  exists g,
    roi forecast_example = Ok g /\
    iloc2 0 0 g = Ok (S754_finite true 5629499534213120 (-49)) /\
    iloc2 0 1 g = Ok (S754_finite false 5629499534213120 (-49)) /\
    feq (S754_finite true 5629499534213120 (-49)) fzero = false /\
    feq (S754_finite false 5629499534213120 (-49)) fzero = false.
Proof.
  split; [reflexivity|]. eexists. split; [vm_compute; reflexivity|].
  repeat split; reflexivity.
Qed.

(** C3, amended : For every forecast frame whose first entry of the third
    column, Forecast, is a finite float [c] other than zero, the ROI of the
    workflow has the index and the columns of the forecast and holds
    (v - c) / c * 100 where the forecast holds v, in every column; so the
    first entry of the ROI is exactly 0 in the column Forecast. *)
Theorem roi_forecast_base_zero (f : frame) (s : bool) (m : positive) (e : Z) :
  iloc2 0 2 f = Ok (S754_finite s m e) ->
  exists g,
    roi f = Ok g /\
    findex g = findex f /\
    map fst (fcols g) = map fst (fcols f) /\
    (forall i j v,
       iloc2 i j f = Ok v ->
       iloc2 i j g
       = Ok (fmul (fdiv (fsub v (S754_finite s m e)) (S754_finite s m e)) hundred)) /\
    exists z, iloc2 0 2 g = Ok (S754_zero z) /\ feq (S754_zero z) fzero = true.
Proof.
  intros Hc. unfold roi. rewrite Hc. eexists. split; [reflexivity|].
  split; [reflexivity|]. split.
  { unfold frame_map. simpl. rewrite map_map. reflexivity. }
  split.
  - intros i j v Hv. rewrite iloc2_frame_map, Hv. reflexivity.
  - rewrite iloc2_frame_map, Hc. cbn [map_result]. rewrite fsub_diag.
    eexists. split; reflexivity.
Qed.

Lemma roi_forecast_base_zero_witness :
  exists g,
    roi forecast_example = Ok g /\
    findex g = findex forecast_example /\
    map fst (fcols g) = map fst (fcols forecast_example) /\
    (forall i j v,
       iloc2 i j forecast_example = Ok v ->
       iloc2 i j g
       = Ok (fmul (fdiv (fsub v (S754_finite false 7036874417766400 (-46)))
                     (S754_finite false 7036874417766400 (-46))) hundred)) /\
    exists z, iloc2 0 2 g = Ok (S754_zero z) /\ feq (S754_zero z) fzero = true.
Proof.
  apply (roi_forecast_base_zero forecast_example false 7036874417766400 (-46)).
  reflexivity.
Defined.

(** ** The forecaster *)




Lemma index_equals_spec (a b : list Z) : index_equals a b = true <-> a = b.
Proof.
  revert b. induction a as [|x a IH]; intros [|y b]; simpl; split;
    try discriminate; try reflexivity.
  - intros H. apply andb_prop in H as [Hx Hab]. apply Z.eqb_eq in Hx.
    apply IH in Hab. congruence.
  - intros [= -> ->]. rewrite Z.eqb_refl. apply IH. reflexivity.
Qed.

Lemma is_unique_spec (idx : list Z) : is_unique idx = true <-> NoDup idx.
Proof.
  induction idx as [|t idx IH]; simpl; split; intros H.
  - constructor.
  - reflexivity.
  - apply andb_prop in H as [Hn Hu]. constructor; [|apply IH, Hu].
    intros Hin. rewrite negb_true_iff in Hn.
    assert (Hex : existsb (Z.eqb t) idx = true)
      by (apply existsb_exists; exists t; split; [exact Hin|apply Z.eqb_refl]).
    congruence.
  - inversion H as [|? ? Hn Hu]; subst. apply andb_true_intro. split.
    + rewrite negb_true_iff. destruct (existsb (Z.eqb t) idx) eqn:E; [|reflexivity].
      apply existsb_exists in E as [u [Hu' Heq]]. apply Z.eqb_eq in Heq. subst u.
      contradiction.
    + apply IH, Hu.
Qed.

Lemma combine_fst_snd {A C} (l : list (A * C)) :
  combine (map fst l) (map snd l) = l.
Proof. induction l as [|[a c] l IH]; simpl; [reflexivity|]. rewrite IH. reflexivity. Qed.

(** A Series that has the index of the frame is assigned as it stands. *)
Lemma set_column_same_index (name : string) (s : list (Z * float)) (f : frame) :
  map fst s = findex f ->
  set_column name s f = Ok (mkFrame (findex f) (dict_set name (map snd s) (fcols f))).
Proof.
  intros H. unfold set_column.
  assert (He : ensure_valid_index s f = f).
  { unfold ensure_valid_index. destruct (findex f) as [|t idx]; [|reflexivity].
    destruct s; [reflexivity|discriminate]. }
  rewrite He. cbv zeta.
  replace (index_equals (map fst s) (findex f)) with true
    by (symmetry; apply index_equals_spec; exact H).
  reflexivity.
Qed.

Section ForecastRun.
Variable B : backend.

(** The run of [forecast_and_ci] over a horizon. *)
Lemma forecast_and_ci_run (model : sarimax) (test_data : option series)
  (n_yrs_future : option Z) (steps : Z) :
  horizon test_data n_yrs_future = Some steps ->
  forecast_and_ci B model test_data n_yrs_future =
  match get_forecast B model steps with
  | Raise x => (Raise x, [EvGetForecast model steps])
  | Ok r =>
      match set_columns ["Lower CI"; "Upper CI"] (conf_int r) with
      | Raise x => (Raise x, [EvGetForecast model steps])
      | Ok forecast_df =>
          (set_column "Forecast" (predicted_mean r) forecast_df,
           [EvGetForecast model steps])
      end
  end.
Proof.
  intros Hh. unfold forecast_and_ci, horizon in *.
  assert (Hs : match test_data with
               | None => match n_yrs_future with
                         | Some n => ret (12 * n)
                         | None => raise TypeError
                         end
               | Some t => ret (shape0 t)
               end = ret steps).
  { destruct test_data as [t|]; [|destruct n_yrs_future as [n|]; [|discriminate]];
      injection Hh as <-; reflexivity. }
  rewrite Hs, bind_ret. cbv beta iota delta [bind emit lift ret].
  destruct (get_forecast B model steps) as [r|x]; [|reflexivity].
  destruct (set_columns ["Lower CI"; "Upper CI"] (conf_int r)) as [fdf|x];
    [|reflexivity].
  destruct (set_column "Forecast" (predicted_mean r) fdf); reflexivity.
Qed.

Lemma forecast_and_ci_no_horizon (model : sarimax) :
  forecast_and_ci B model None None = (Raise TypeError, []).
Proof. reflexivity. Qed.

End ForecastRun.




(** ** The fitter *)

Lemma value_bind_ok {A C} (c : M A) (k : A -> M C) (r : C) :
  value_of (bind c k) = Ok r ->
  exists a, value_of c = Ok a /\ value_of (k a) = Ok r.
Proof.
  rewrite value_bind. destruct (value_of c) as [a|x]; [|discriminate].
  intros H. exists a. split; [reflexivity|exact H].
Qed.

Lemma calls_bind_ok {A C} (c : M A) (k : A -> M C) (a : A) :
  value_of c = Ok a -> calls_of (bind c k) = calls_of c ++ calls_of (k a).
Proof. intros H. rewrite calls_bind, H. reflexivity. Qed.



(** Take a run that returned apart, bind by bind. *)
Ltac bind_inv :=
  repeat match goal with
         | H : value_of (bind _ _) = Ok _ |- _ =>
             let E := fresh "E" in
             let a := fresh "a" in
             destruct (value_bind_ok _ _ _ H) as [a [E ?]]; clear H
         end.

Section FitFacts.
Variable B : backend.

(** A fit is the construction of the model and the call of [fit()] on it;
    an exception of either ends it. *)
Lemma fit_sarimax_run (y : series) (o : order_t) (so : seasonal_order_t)
  (inv : bool) :
  fit_sarimax B y o so inv =
  match sarimax_new B (mkSarimax y o so inv) with
  | Raise x => (Raise x, [EvSARIMAX (mkSarimax y o so inv)])
  | Ok _ =>
      match sarimax_fit B (mkSarimax y o so inv) with
      | Raise x =>
          (Raise x,
           [EvSARIMAX (mkSarimax y o so inv); EvFit (mkSarimax y o so inv) []])
      | Ok _ =>
          (Ok (mkSarimax y o so inv),
           [EvSARIMAX (mkSarimax y o so inv); EvFit (mkSarimax y o so inv) []])
      end
  end.
Proof.
  unfold fit_sarimax. cbv zeta.
  destruct (sarimax_new B (mkSarimax y o so inv)) as [[]|x]; [|reflexivity].
  destruct (sarimax_fit B (mkSarimax y o so inv)) as [[]|x]; reflexivity.
Qed.

Lemma fit_sarimax_value (y : series) (o : order_t) (so : seasonal_order_t)
  (inv : bool) (m : sarimax) :
  value_of (fit_sarimax B y o so inv) = Ok m ->
  m = mkSarimax y o so inv /\
  sarimax_new B (mkSarimax y o so inv) = Ok tt /\
  sarimax_fit B (mkSarimax y o so inv) = Ok tt /\
  calls_of (fit_sarimax B y o so inv)
  = [EvSARIMAX (mkSarimax y o so inv); EvFit (mkSarimax y o so inv) []].
Proof.
  rewrite fit_sarimax_run.
  destruct (sarimax_new B (mkSarimax y o so inv)) as [[]|x]; [|discriminate].
  destruct (sarimax_fit B (mkSarimax y o so inv)) as [[]|x]; [|discriminate].
  intros [= <-]. repeat split; reflexivity.
Qed.

(** [model_performance] without the second drawing: the diagnostics,
    [plt.close()], then the summary. *)
Lemma model_performance_run (m : sarimax) :
  model_performance B m false =
  match plot_diagnostics B m with
  | Raise x => (Raise x, [EvPlotDiagnostics m])
  | Ok _ =>
      match model_summary B m with
      | Raise x => (Raise x, [EvPlotDiagnostics m; EvClose; EvSummary m])
      | Ok s =>
          (Ok (s, FigDiagnostics m), [EvPlotDiagnostics m; EvClose; EvSummary m])
      end
  end.
Proof.
  unfold model_performance, diagnostics.
  destruct (plot_diagnostics B m) as [[]|x]; [|reflexivity].
  destruct (model_summary B m) as [s|x]; reflexivity.
Qed.

Lemma model_performance_value (m : sarimax) (s : summary) (d : figure) :
  value_of (model_performance B m false) = Ok (s, d) ->
  model_summary B m = Ok s /\ d = FigDiagnostics m /\
  plot_diagnostics B m = Ok tt /\
  calls_of (model_performance B m false)
  = [EvPlotDiagnostics m; EvClose; EvSummary m].
Proof.
  rewrite model_performance_run.
  destruct (plot_diagnostics B m) as [[]|x]; [|discriminate].
  destruct (model_summary B m) as [s'|x]; [|discriminate].
  intros [= <- <-]. repeat split; reflexivity.
Qed.

Lemma plot_forecast_ttf_value (train test : series) (f : frame) (n : Z)
  (show_vis : bool) (fig : figure) :
  value_of (plot_forecast_ttf B train test f n show_vis) = Ok fig ->
  fig = FigTrainTest train test f.
Proof.
  unfold plot_forecast_ttf. intros H. bind_inv.
  match goal with H : value_of (ret _) = Ok _ |- _ => injection H as <- end.
  reflexivity.
Qed.

Lemma plot_forecast_final_value (y : series) (f : frame) (show_vis : bool)
  (fig : figure) :
  value_of (plot_forecast_final B y f show_vis) = Ok fig -> fig = FigFinal y f.
Proof.
  unfold plot_forecast_final. intros H. bind_inv.
  match goal with H : value_of (ret _) = Ok _ |- _ => injection H as <- end.
  reflexivity.
Qed.



End FitFacts.




(** ** The visualization toggle *)

Section ToggleFacts.
Variable B : backend.






End ToggleFacts.




(** ** The result bundle *)


(** ** The order search *)

Section SearchFacts.
Import Pmdarima.
Variable fit : order_t -> seasonal_order_t -> result Q.
Variable error_action : string.
Hypothesis tolerant : String.eqb error_action "raise" = false.

(** A candidate that cannot be fitted is passed over. *)
Lemma search_skips (cs1 cs2 : list (order_t * seasonal_order_t))
  (o : order_t) (so : seasonal_order_t) (x : exn) :
  fit o so = Raise x ->
  forall best,
    search fit error_action (cs1 ++ (o, so) :: cs2) best
    = search fit error_action (cs1 ++ cs2) best.
Proof.
  intros Hx. induction cs1 as [|[o1 so1] cs1 IH]; intros best; simpl.
  - rewrite Hx, tolerant. reflexivity.
  - destruct (fit o1 so1); [apply IH|]. rewrite tolerant. apply IH.
Qed.

(** The search goes through all the candidates. *)
Lemma search_returns (cands : list (order_t * seasonal_order_t)) :
  forall best, exists res, search fit error_action cands best = Ok res.
Proof.
  induction cands as [|[o so] cands IH]; intros best; simpl.
  - eexists. reflexivity.
  - destruct (fit o so); [apply IH|]. rewrite tolerant. apply IH.
Qed.

Lemma better_spec (best : option auto_model) (c : auto_model) :
  (forall b0, best = Some b0 -> fitted_by fit b0) -> fitted_by fit c ->
  fitted_by fit (better best c) /\
  (am_criterion (better best c) <= am_criterion c)%Q /\
  (forall b0, best = Some b0 -> (am_criterion (better best c) <= am_criterion b0)%Q) /\
  (better best c = c \/ best = Some (better best c)).
Proof.
  intros Hb Hc. unfold better. destruct best as [b0|].
  - destruct (Qle_bool (am_criterion b0) (am_criterion c)) eqn:E.
    + apply Qle_bool_iff in E. repeat split; auto.
      intros b1 [= <-]. apply Qle_refl.
    + assert (Hlt : (am_criterion c < am_criterion b0)%Q).
      { apply Qnot_le_lt. intros Hle. apply Qle_bool_iff in Hle. congruence. }
      repeat split; auto; [apply Qle_refl|].
      intros b1 [= <-]. apply Qlt_le_weak, Hlt.
  - repeat split; auto; [apply Qle_refl|discriminate].
Qed.

(** What the search returns was fitted, is a candidate or the model it
    started from, and has the least criterion of all that could be fitted. *)
Lemma search_least (cands : list (order_t * seasonal_order_t)) :
  forall best res,
    search fit error_action cands best = Ok res ->
    (forall b0, best = Some b0 -> fitted_by fit b0) ->
    match res with
    | Some b =>
        fitted_by fit b /\
        (In (am_order b, am_seasonal_order b) cands \/ best = Some b) /\
        (forall b0, best = Some b0 -> (am_criterion b <= am_criterion b0)%Q) /\
        (forall o so ic, In (o, so) cands -> fit o so = Ok ic ->
                         (am_criterion b <= ic)%Q)
    | None =>
        best = None /\
        forall o so, In (o, so) cands -> is_ok (fit o so) = false
    end.
Proof.
  induction cands as [|[o so] cands IH]; intros best res; simpl.
  - intros [= <-] Hb. destruct best as [b|].
    + repeat split; auto.
      * intros b0 [= <-]. apply Qle_refl.
      * intros ? ? ? [].
    + split; [reflexivity|]. intros ? ? [].
  - destruct (fit o so) as [ic|x] eqn:Hfit.
    + intros Hs Hb.
      pose proof (better_spec best (mkAutoModel o so ic) Hb Hfit)
        as [Hf [Hc [Hb0 Hor]]].
      specialize (IH _ _ Hs). destruct res as [b|].
      * destruct IH as [Hfb [Hin [Hle Hall]]].
        { intros b0 [= <-]. exact Hf. }
        repeat split; auto.
        -- destruct Hin as [Hin|Hin]; [left; right; exact Hin|].
           injection Hin as Hin. rewrite <- Hin.
           destruct Hor as [->|Hor]; [left; left; reflexivity|right; exact Hor].
        -- intros b0 Hb0'. eapply Qle_trans; [apply Hle; reflexivity|].
           apply Hb0, Hb0'.
        -- intros o' so' ic' [[= <- <-]|Hin'] Hfit'.
           ++ rewrite Hfit in Hfit'. injection Hfit' as <-.
              eapply Qle_trans; [apply Hle; reflexivity|]. exact Hc.
           ++ eapply Hall; eauto.
      * destruct IH as [Hnone _]; [|discriminate].
        intros b0 [= <-]. exact Hf.
    + rewrite tolerant. intros Hs Hb. specialize (IH _ _ Hs Hb).
      destruct res as [b|].
      * destruct IH as [Hfb [Hin [Hle Hall]]]. repeat split; auto.
        -- destruct Hin; [left; right|right]; assumption.
        -- intros o' so' ic' [[= <- <-]|Hin'] Hfit'; [congruence|eauto].
      * destruct IH as [Hnone Hall]. split; [assumption|].
        intros o' so' [[= <- <-]|Hin']; [rewrite Hfit; reflexivity|eauto].
Qed.

End SearchFacts.



Section SearchCalls.
Variable B : backend.

(** A run of [auto_arima_model] ends before the search, without a call, or
    is the search of pmdarima with the arguments bound, the differencing
    orders of the tests and [error_action='ignore']. *)
Lemma auto_arima_model_run (args : list value) (kw : kwargs) :
  (raises (auto_arima_model B args kw) /\
   calls_of (auto_arima_model B args kw) = []) \/
  exists e ds a,
    bind_args auto_arima_model_sig args kw = Ok e /\
    as_series (arg e "timeseries_dataset") = Ok ds /\
    ndiffs B ds = Ok (a_d a) /\
    as_int (arg e "m") = Ok (a_m a) /\
    nsdiffs B ds (a_m a) = Ok (a_D a) /\
    as_int (arg e "start_p") = Ok (a_start_p a) /\
    as_int (arg e "max_p") = Ok (a_max_p a) /\
    as_int (arg e "start_q") = Ok (a_start_q a) /\
    as_int (arg e "max_q") = Ok (a_max_q a) /\
    as_int (arg e "start_P") = Ok (a_start_P a) /\
    as_int (arg e "max_P") = Ok (a_max_P a) /\
    as_int (arg e "start_Q") = Ok (a_start_Q a) /\
    as_int (arg e "max_Q") = Ok (a_max_Q a) /\
    a_error_action a = "ignore" /\
    auto_arima_model B args kw
    = (Pmdarima.auto_arima (candidate_fit B ds) a, [EvAutoArima ds a]).
Proof.
  unfold auto_arima_model.
  repeat match goal with
         | |- context [bind (lift ?r) _] =>
             destruct r eqn:?;
             [rewrite bind_lift_ok|left; split; reflexivity]
         end.
  right. do 2 eexists.
  match goal with
  | |- context [pmd_auto_arima _ _ ?A] => exists A
  end.
  repeat split; eassumption || reflexivity.
Qed.

(** The search that a run of [auto_arima_model] has called. *)
Lemma auto_arima_model_search (args : list value) (kw : kwargs) (y : series)
  (a : auto_args) :
  In (EvAutoArima y a) (calls_of (auto_arima_model B args kw)) ->
  a_error_action a = "ignore" /\
  differencing_fixed B (EvAutoArima y a) /\
  value_of (auto_arima_model B args kw)
  = Pmdarima.auto_arima (candidate_fit B y) a /\
  exists e,
    bind_args auto_arima_model_sig args kw = Ok e /\
    as_int (arg e "start_p") = Ok (a_start_p a) /\
    as_int (arg e "max_p") = Ok (a_max_p a) /\
    as_int (arg e "start_q") = Ok (a_start_q a) /\
    as_int (arg e "max_q") = Ok (a_max_q a) /\
    as_int (arg e "start_P") = Ok (a_start_P a) /\
    as_int (arg e "max_P") = Ok (a_max_P a) /\
    as_int (arg e "start_Q") = Ok (a_start_Q a) /\
    as_int (arg e "max_Q") = Ok (a_max_Q a).
Proof.
  intros Hin.
  destruct (auto_arima_model_run args kw)
    as [[_ Hnil]|[e [ds [a' H]]]].
  - rewrite Hnil in Hin. destruct Hin.
  - decompose [and] H. clear H.
    match goal with
    | Hrun : auto_arima_model B args kw = _ |- _ => rewrite Hrun in *
    end.
    simpl in Hin. destruct Hin as [Hin|[]]. injection Hin as -> ->.
    repeat split; try assumption. exists e. repeat split; assumption.
Qed.

End SearchCalls.

(** C7 : The order search that [auto_arima_model] runs is called with
    [error_action='ignore']. In that search a candidate order whose fit
    fails is passed over and nothing else changes: the search returns what
    it returns on the candidates without that one, it goes through all the
    candidates, whichever of them fail, and it returns a model as soon as
    one candidate of the grid can be fitted. *)
Theorem search_skips_failed_candidates (B : backend) (args : list value)
  (kw : kwargs) (y : series) (a : auto_args) :
  In (EvAutoArima y a) (calls_of (auto_arima_model B args kw)) ->
  a_error_action a = "ignore" /\
  value_of (auto_arima_model B args kw)
  = Pmdarima.auto_arima (candidate_fit B y) a /\
  (forall cs1 o so cs2 best x,
     candidate_fit B y o so = Raise x ->
     Pmdarima.search (candidate_fit B y) (a_error_action a)
       (cs1 ++ (o, so) :: cs2) best
     = Pmdarima.search (candidate_fit B y) (a_error_action a) (cs1 ++ cs2) best) /\
  (forall cands best,
     exists res,
       Pmdarima.search (candidate_fit B y) (a_error_action a) cands best = Ok res) /\
  (forall o so ic,
     In (o, so) (Pmdarima.grid a) -> candidate_fit B y o so = Ok ic ->
     is_ok (value_of (auto_arima_model B args kw)) = true).
Proof.
  intros Hin.
  destruct (auto_arima_model_search B args kw y a Hin) as [Hea [_ [Hval _]]].
  assert (Htol : String.eqb (a_error_action a) "raise" = false)
    by (rewrite Hea; reflexivity).
  repeat split; try assumption.
  - intros. eapply search_skips; eassumption.
  - intros. apply search_returns; assumption.
  - intros o so ic Hg Hfit. rewrite Hval. unfold Pmdarima.auto_arima.
    destruct (search_returns (candidate_fit B y) (a_error_action a) Htol
                (Pmdarima.grid a) None) as [res Hres].
    rewrite Hres.
    pose proof (search_least (candidate_fit B y) (a_error_action a) Htol
                  (Pmdarima.grid a) None res Hres) as Hl.
    destruct res as [b|]; [reflexivity|].
    destruct Hl as [_ Hall]; [discriminate|].
    specialize (Hall o so Hg). rewrite Hfit in Hall. discriminate.
Qed.

Lemma search_skips_failed_candidates_witness :
  a_error_action search_example = "ignore" /\
  value_of (auto_arima_model naive [VSeries (prices 24)] search_example_kw)
  = Pmdarima.auto_arima (candidate_fit naive (prices 24)) search_example /\
  (forall cs1 o so cs2 best x,
     candidate_fit naive (prices 24) o so = Raise x ->
     Pmdarima.search (candidate_fit naive (prices 24))
       (a_error_action search_example) (cs1 ++ (o, so) :: cs2) best
     = Pmdarima.search (candidate_fit naive (prices 24))
         (a_error_action search_example) (cs1 ++ cs2) best) /\
  (forall cands best,
     exists res,
       Pmdarima.search (candidate_fit naive (prices 24))
         (a_error_action search_example) cands best = Ok res) /\
  (forall o so ic,
     In (o, so) (Pmdarima.grid search_example) ->
     candidate_fit naive (prices 24) o so = Ok ic ->
     is_ok (value_of (auto_arima_model naive [VSeries (prices 24)] search_example_kw))
     = true).
Proof.
  apply (search_skips_failed_candidates naive [VSeries (prices 24)]
           search_example_kw (prices 24) search_example).
  left. reflexivity.
Defined.

(** The first candidate of that grid, (0, 1, 0)(0, 0, 0, 12), cannot be
    fitted on the backend above; the search returns (1, 1, 2)(0, 0, 0, 12). *)
Example search_example_result :
  candidate_fit naive (prices 24) (0, 1, 0) (0, 0, 0, 12) = Raise ValueError /\
  value_of (auto_arima_model naive [VSeries (prices 24)] search_example_kw)
  = Ok (mkAutoModel (1, 1, 2) (0, 0, 0, 12) 0).
Proof. split; reflexivity. Qed.




(** ** Further properties: the splitter *)

Lemma item_last_empty {A} : item (-1) (@nil A) = Raise IndexError.
Proof. reflexivity. Qed.

Lemma item_last_some {A} (l : list A) :
  l <> [] -> exists a, item (-1) l = Ok a.
Proof.
  intros Hl. unfold item, len. cbv zeta.
  assert (Hn : (0 < List.length l)%nat) by (destruct l; [congruence|simpl; lia]).
  replace (-1 <? 0) with true by reflexivity.
  assert (Hb : (-1 + Z.of_nat (List.length l) <? 0)
               || (Z.of_nat (List.length l) <=? -1 + Z.of_nat (List.length l))
               = false).
  { apply orb_false_iff. split; [apply Z.ltb_ge|apply Z.leb_gt]; lia. }
  rewrite Hb.
  destruct (nth_error l (Z.to_nat (-1 + Z.of_nat (List.length l)))) as [a|] eqn:E.
  - exists a. reflexivity.
  - apply nth_error_None in E. lia.
Qed.

Lemma sindex_nil (s : series) : sindex s = [] <-> srows s = [].
Proof.
  unfold sindex. split; intros H.
  - destruct (srows s); [reflexivity|discriminate].
  - rewrite H. reflexivity.
Qed.

Section SplitPlot.
Variable B : backend.

(** The run of [ts_split] with the plot, once the cut index is there. *)
Lemma ts_split_plot_run (S : series) (t x : float) (cut : Z) :
  int_mul_float (shape0 S) t = Ok x -> round x = Ok cut ->
  ts_split B S t true =
  match series_plot B (iloc_to cut S) with
  | Raise e => (Raise e, [])
  | Ok _ =>
      match series_plot B (iloc_from cut S) with
      | Raise e => (Raise e, [EvPlot "Training Data"])
      | Ok _ =>
          match item (-1) (sindex (iloc_to cut S)) with
          | Raise e =>
              (Raise e,
               [ EvPlot "Training Data"; EvPlot "Testing Data"; EvPlot "legend";
                 EvPlot "set_xlabel"; EvPlot "set_ylabel"; EvPlot "set_title" ])
          | Ok _ =>
              (Ok (iloc_to cut S, iloc_from cut S),
               [ EvPlot "Training Data"; EvPlot "Testing Data"; EvPlot "legend";
                 EvPlot "set_xlabel"; EvPlot "set_ylabel"; EvPlot "set_title";
                 EvPlot "axvline"; EvShow ])
          end
      end
  end.
Proof.
  intros Hx Hc. unfold ts_split, plot. rewrite Hx, bind_lift_ok, Hc, bind_lift_ok.
  cbv zeta.
  destruct (series_plot B (iloc_to cut S)) as [[]|e1]; [|reflexivity].
  destruct (series_plot B (iloc_from cut S)) as [[]|e2]; [|reflexivity].
  destruct (item (-1) (sindex (iloc_to cut S))) as [a|e3]; reflexivity.
Qed.

End SplitPlot.

(** X1 : With [show_vis=True], [ts_split] returns a split exactly when it
    returns that split without the plot, pandas accepts the two parts for
    plotting and the training part is not empty, which [train.index[-1]]
    needs. A split that is returned was drawn and shown. *)
Theorem ts_split_with_plot (B : backend) (S : series) (t : float) :
  (forall r,
     value_of (ts_split B S t true) = Ok r <->
     value_of (ts_split B S t false) = Ok r /\
     series_plot B (fst r) = Ok tt /\ series_plot B (snd r) = Ok tt /\
     srows (fst r) <> []) /\
  (forall r,
     value_of (ts_split B S t true) = Ok r ->
     calls_of (ts_split B S t true)
     = [ EvPlot "Training Data"; EvPlot "Testing Data"; EvPlot "legend";
         EvPlot "set_xlabel"; EvPlot "set_ylabel"; EvPlot "set_title";
         EvPlot "axvline"; EvShow ]).
Proof.
  destruct (int_mul_float (shape0 S) t) as [x|e] eqn:Hx.
  2:{ unfold ts_split. rewrite Hx. repeat split; try (intros; discriminate).
      intros [H _]. discriminate. }
  destruct (round x) as [cut|e] eqn:Hc.
  2:{ unfold ts_split. rewrite Hx, !bind_lift_ok, Hc.
      repeat split; try (intros; discriminate). intros [H _]. discriminate. }
  rewrite (ts_split_plot_run B S t x cut Hx Hc),
    (ts_split_value B S t x cut Hx Hc).
  unfold value_of, calls_of.
  destruct (series_plot B (iloc_to cut S)) as [[]|e1] eqn:E1;
    destruct (series_plot B (iloc_from cut S)) as [[]|e2] eqn:E2;
    destruct (srows (iloc_to cut S)) as [|row rows] eqn:Er.
  all: try (rewrite (proj2 (sindex_nil (iloc_to cut S)) Er), item_last_empty).
  all: try (destruct (item_last_some (sindex (iloc_to cut S))) as [a Ha];
            [ intros Hn; apply sindex_nil in Hn; congruence | rewrite Ha ]).
  all: cbn [fst snd].
  all: split.
  all: try (intros r; split; [intros H; try discriminate|]).
  all: try (intros [H [H1 [H2 H3]]]; injection H as <-;
            cbn [fst snd] in H1, H2, H3; congruence).
  all: try (injection H as <-; cbn [fst snd]; repeat split; congruence).
  all: try (intros r H; try discriminate; reflexivity).
Qed.

Lemma ts_split_with_plot_witness :
  value_of (ts_split naive (prices 24) threshold_default true)
  = Ok (iloc_to 20 (prices 24), iloc_from 20 (prices 24)).
Proof.
  apply (proj1 (ts_split_with_plot naive (prices 24) threshold_default)).
  repeat split; try (vm_compute; reflexivity). vm_compute. discriminate.
Defined.
(** ** Further properties: the forecast frame *)

Lemma lookup_dict_set_same {V} (k : string) (v : V) (d : list (string * V)) :
  lookup k (dict_set k v d) = Some v.
Proof.
  induction d as [|[k' v'] d IH]; simpl.
  - rewrite String.eqb_refl. reflexivity.
  - destruct (String.eqb k k') eqn:E; simpl.
    + rewrite String.eqb_refl. reflexivity.
    + rewrite E. exact IH.
Qed.

Lemma at_label_missing (t : Z) (rows : list (Z * float)) :
  ~ In t (map fst rows) -> at_label t rows = S754_nan.
Proof.
  induction rows as [|[t' v] rows IH]; intros Hn; [reflexivity|]. simpl in *.
  destruct (Z.eqb_spec t t') as [->|Hne]; [exfalso; apply Hn; left; reflexivity|].
  apply IH. intros H. apply Hn. right. exact H.
Qed.

(** A label that a Series carries once has the value of its row. *)
Lemma at_label_row (t : Z) (v : float) (rows : list (Z * float)) :
  NoDup (map fst rows) -> In (t, v) rows -> at_label t rows = v.
Proof.
  induction rows as [|[t' v'] rows IH]; intros Hnd Hin; [destruct Hin|].
  simpl in *. inversion Hnd as [|? ? Hnot Hnd']; subst.
  destruct Hin as [[= -> ->]|Hin]; [rewrite Z.eqb_refl; reflexivity|].
  destruct (Z.eqb_spec t t') as [->|_]; [|apply IH; assumption].
  exfalso. apply Hnot. apply in_map_iff. exists (t', v). split; [reflexivity|exact Hin].
Qed.

Lemma combine_map_self {A C} (g : A -> C) (l : list A) :
  combine l (map g l) = map (fun a => (a, g a)) l.
Proof. induction l as [|a l IH]; simpl; [reflexivity|]. rewrite IH. reflexivity. Qed.

Lemma index_equals_refl (idx : list Z) : index_equals idx idx = true.
Proof. apply index_equals_spec. reflexivity. Qed.

(** The three ways in which a Series becomes a column: as it stands on
    its own index, as the first rows of a frame without rows, and
    reindexed. *)
Lemma set_column_cases (name : string) (s : list (Z * float)) (f : frame) :
  set_column name s f =
  if index_equals (map fst s) (findex f) then
    Ok (mkFrame (findex f) (dict_set name (map snd s) (fcols f)))
  else
    match findex f with
    | [] =>
        Ok (mkFrame (map fst s)
              (dict_set name (map snd s)
                 (map (fun c => (fst c, map (fun _ => S754_nan) s)) (fcols f))))
    | _ :: _ =>
        if is_unique (map fst s) then
          Ok (mkFrame (findex f)
                (dict_set name (map (fun t => at_label t s) (findex f)) (fcols f)))
        else Raise ValueError
    end.
Proof.
  unfold set_column, ensure_valid_index.
  destruct (findex f) as [|t idx] eqn:Hf.
  - destruct s as [|a s]; cbv zeta.
    + rewrite Hf. reflexivity.
    + cbn [findex fcols]. rewrite index_equals_refl. reflexivity.
  - cbv zeta. rewrite Hf. reflexivity.
Qed.

Lemma set_column_ok (name : string) (s : list (Z * float)) (f : frame) :
  is_ok (set_column name s f) = true <->
  map fst s = findex f \/ findex f = [] \/ NoDup (map fst s).
Proof.
  rewrite set_column_cases.
  destruct (index_equals (map fst s) (findex f)) eqn:E.
  - apply index_equals_spec in E. split; [intros _; left; exact E|reflexivity].
  - assert (Hne : map fst s <> findex f).
    { intros H. apply index_equals_spec in H. congruence. }
    destruct (findex f) as [|t idx] eqn:Hf.
    + split; [intros _; right; left; reflexivity|reflexivity].
    + destruct (is_unique (map fst s)) eqn:U.
      * split; [intros _; right; right; apply is_unique_spec, U|reflexivity].
      * split; [discriminate|].
        intros [H|[H|H]]; [contradiction|discriminate|].
        apply is_unique_spec in H. congruence.
Qed.

Lemma set_columns_two (f : frame) (g : frame) :
  set_columns ["Lower CI"; "Upper CI"] f = Ok g <->
  exists lower upper,
    map snd (fcols f) = [lower; upper] /\
    g = mkFrame (findex f) [("Lower CI", lower); ("Upper CI", upper)].
Proof.
  unfold set_columns. destruct f as [idx cols]. simpl.
  destruct cols as [|[n1 c1] [|[n2 c2] [|c3 cols]]]; simpl; split;
    try discriminate;
    try (intros [lower [upper [H _]]]; discriminate).
  - intros [= <-]. exists c1, c2. split; reflexivity.
  - intros [lower [upper [[= <- <-] ->]]]. reflexivity.
Qed.

Lemma set_columns_length (f : frame) :
  is_ok (set_columns ["Lower CI"; "Upper CI"] f) = true <->
  List.length (fcols f) = 2%nat.
Proof.
  unfold set_columns. cbn [List.length].
  destruct (Nat.eqb_spec 2 (List.length (fcols f))) as [E|E]; split;
    try reflexivity; try discriminate; intros; lia.
Qed.

Section ForecastFrame.
Variable B : backend.

(** The frame that [forecast_and_ci] returns, and when. *)
Lemma forecast_and_ci_frame (model : sarimax) (test_data : option series)
  (n_yrs_future : option Z) (df : frame) :
  value_of (forecast_and_ci B model test_data n_yrs_future) = Ok df <->
  exists steps r lower upper,
    horizon test_data n_yrs_future = Some steps /\
    get_forecast B model steps = Ok r /\
    map snd (fcols (conf_int r)) = [lower; upper] /\
    set_column "Forecast" (predicted_mean r)
      (mkFrame (findex (conf_int r)) [("Lower CI", lower); ("Upper CI", upper)])
    = Ok df.
Proof.
  destruct (horizon test_data n_yrs_future) as [steps|] eqn:Hh.
  - rewrite (forecast_and_ci_run B model test_data n_yrs_future steps Hh).
    destruct (get_forecast B model steps) as [r|x] eqn:Hr.
    + destruct (set_columns ["Lower CI"; "Upper CI"] (conf_int r)) as [g|x] eqn:Hg.
      * apply set_columns_two in Hg as [lower [upper [Hc ->]]].
        unfold value_of. cbn [fst]. split.
        -- intros H. exists steps, r, lower, upper.
           repeat split; assumption || reflexivity.
        -- intros [steps' [r' [lower' [upper' [[= <-] [Hr' [Hc' H]]]]]]].
           rewrite Hr in Hr'. injection Hr' as <-.
           rewrite Hc in Hc'. injection Hc' as <- <-. exact H.
      * split; [discriminate|].
        intros [steps' [r' [lower' [upper' [[= <-] [Hr' [Hc' _]]]]]]].
        rewrite Hr in Hr'. injection Hr' as <-.
        assert (Hok : set_columns ["Lower CI"; "Upper CI"] (conf_int r)
                      = Ok (mkFrame (findex (conf_int r))
                              [("Lower CI", lower'); ("Upper CI", upper')])).
        { apply set_columns_two. exists lower', upper'. split; [assumption|reflexivity]. }
        congruence.
    + split; [discriminate|].
      intros [steps' [r' [lower' [upper' [[= <-] [Hr' _]]]]]]. congruence.
  - unfold forecast_and_ci, horizon in *.
    destruct test_data; [discriminate|]. destruct n_yrs_future; [discriminate|].
    split; [discriminate|]. intros [steps [r [lower [upper [H _]]]]]. discriminate.
Qed.

(** The frame on the answer that has one index for the bounds and the
    predicted mean. *)
Lemma forecast_and_ci_on_index (model : sarimax) (test_data : option series)
  (n_yrs_future : option Z) (steps : Z) (r : forecast_results)
  (lower upper : list float) :
  horizon test_data n_yrs_future = Some steps ->
  get_forecast B model steps = Ok r ->
  map snd (fcols (conf_int r)) = [lower; upper] ->
  map fst (predicted_mean r) = findex (conf_int r) ->
  value_of (forecast_and_ci B model test_data n_yrs_future)
  = Ok (mkFrame (findex (conf_int r))
          [ ("Lower CI", lower); ("Upper CI", upper);
            ("Forecast", map snd (predicted_mean r)) ]).
Proof.
  intros Hh Hr Hc Hidx. apply forecast_and_ci_frame.
  exists steps, r, lower, upper. repeat split; try assumption.
  rewrite set_column_same_index by exact Hidx. reflexivity.
Qed.

End ForecastFrame.

(** X2 : [forecast_and_ci] returns a frame exactly when a horizon is
    given, the library returns a forecast over it, the confidence
    intervals have exactly two columns and the predicted mean can be made
    a column: it has the index of the confidence intervals, or these have
    no row, or it carries no label twice. With neither test data nor a
    number of years it raises [TypeError] without asking the library; with
    test data the number of years is not looked at; an exception of the
    library is passed on; confidence intervals with another number of
    columns, and a predicted mean that repeats a label on another index
    than that of the confidence intervals, end in [ValueError]. *)
Theorem forecast_and_ci_returns (B : backend) (model : sarimax)
  (test_data : option series) (n_yrs_future : option Z) :
  (is_ok (value_of (forecast_and_ci B model test_data n_yrs_future)) = true <->
   exists steps r,
     horizon test_data n_yrs_future = Some steps /\
     get_forecast B model steps = Ok r /\
     List.length (fcols (conf_int r)) = 2%nat /\
     (map fst (predicted_mean r) = findex (conf_int r) \/
      findex (conf_int r) = [] \/
      NoDup (map fst (predicted_mean r)))) /\
  (horizon test_data n_yrs_future = None ->
   forecast_and_ci B model test_data n_yrs_future = (Raise TypeError, [])) /\
  (forall t,
     forecast_and_ci B model (Some t) n_yrs_future
     = forecast_and_ci B model (Some t) None) /\
  (forall steps x,
     horizon test_data n_yrs_future = Some steps ->
     get_forecast B model steps = Raise x ->
     forecast_and_ci B model test_data n_yrs_future
     = (Raise x, [EvGetForecast model steps])) /\
  (forall steps r,
     horizon test_data n_yrs_future = Some steps ->
     get_forecast B model steps = Ok r ->
     List.length (fcols (conf_int r)) <> 2%nat \/
     (findex (conf_int r) <> [] /\
      map fst (predicted_mean r) <> findex (conf_int r) /\
      ~ NoDup (map fst (predicted_mean r))) ->
     forecast_and_ci B model test_data n_yrs_future
     = (Raise ValueError, [EvGetForecast model steps])).
Proof.
  split; [|split; [|split; [|split]]].
  - destruct (horizon test_data n_yrs_future) as [steps|] eqn:Hh.
    + rewrite (forecast_and_ci_run B model test_data n_yrs_future steps Hh).
      destruct (get_forecast B model steps) as [r|x] eqn:Hr.
      * destruct (set_columns ["Lower CI"; "Upper CI"] (conf_int r)) as [g|x] eqn:Hg.
        -- assert (Hlen : List.length (fcols (conf_int r)) = 2%nat)
             by (apply set_columns_length; rewrite Hg; reflexivity).
           apply set_columns_two in Hg as [lower [upper [Hc ->]]].
           unfold value_of. cbn [fst]. rewrite set_column_ok. cbn [findex]. split.
           ++ intros H. exists steps, r. repeat split; assumption.
           ++ intros [steps' [r' [[= <-] [Hr' [_ H]]]]].
              rewrite Hr in Hr'. injection Hr' as <-. exact H.
        -- split; [discriminate|].
           intros [steps' [r' [[= <-] [Hr' [Hlen _]]]]].
           rewrite Hr in Hr'. injection Hr' as <-.
           apply set_columns_length in Hlen. rewrite Hg in Hlen. discriminate.
      * split; [discriminate|].
        intros [steps' [r' [[= <-] [Hr' _]]]]. congruence.
    + unfold forecast_and_ci, horizon in *.
      destruct test_data; [discriminate|]. destruct n_yrs_future; [discriminate|].
      split; [discriminate|]. intros [steps [r [H _]]]. discriminate.
  - intros Hh. unfold forecast_and_ci, horizon in *.
    destruct test_data; [discriminate|]. destruct n_yrs_future; [discriminate|].
    reflexivity.
  - intros t. reflexivity.
  - intros steps x Hh Hx.
    rewrite (forecast_and_ci_run B model test_data n_yrs_future steps Hh), Hx.
    reflexivity.
  - intros steps r Hh Hr Hbad.
    rewrite (forecast_and_ci_run B model test_data n_yrs_future steps Hh), Hr.
    destruct (set_columns ["Lower CI"; "Upper CI"] (conf_int r)) as [g|x] eqn:Hg.
    + assert (Hlen : List.length (fcols (conf_int r)) = 2%nat)
        by (apply set_columns_length; rewrite Hg; reflexivity).
      destruct Hbad as [Hbad|[Hi [Hne Hdup]]]; [contradiction|].
      apply set_columns_two in Hg as [lower [upper [Hc ->]]].
      rewrite set_column_cases. cbn [findex fcols].
      destruct (index_equals _ _) eqn:E;
        [apply index_equals_spec in E; contradiction|].
      destruct (findex (conf_int r)) as [|t idx]; [congruence|].
      destruct (is_unique _) eqn:U; [apply is_unique_spec in U; contradiction|].
      reflexivity.
    + unfold set_columns in Hg.
      destruct (_ =? _)%nat; [discriminate|]. injection Hg as <-. reflexivity.
Qed.

Lemma forecast_and_ci_returns_witness :
  is_ok (value_of (forecast_and_ci naive
                     (mkSarimax (listings 102) (1, 1, 2) (0, 0, 0, 12) false)
                     (Some (iloc_from 102 (listings 120))) None)) = true.
Proof.
  apply (proj1 (forecast_and_ci_returns naive
                  (mkSarimax (listings 102) (1, 1, 2) (0, 0, 0, 12) false)
                  (Some (iloc_from 102 (listings 120))) None)).
  destruct (get_forecast naive
              (mkSarimax (listings 102) (1, 1, 2) (0, 0, 0, 12) false) 18)
    as [r|x] eqn:Hr; [|vm_compute in Hr; discriminate].
  exists 18, r. split; [reflexivity|]. split; [exact Hr|].
  vm_compute in Hr. injection Hr as <-. split; [reflexivity|]. left. reflexivity.
Defined.

(** X3 : The column Forecast of the frame that [forecast_and_ci] returns.
    When the predicted mean has the index of the confidence intervals,
    the column holds it row by row, labels twice in the index included.
    On another index, the confidence intervals having rows, the predicted
    mean carries no label twice and each row of the column holds the
    predicted mean at the label of the row, NaN where there is none. When
    the confidence intervals have no row, the frame takes the index of the
    predicted mean, which is the column, and the bounds are NaN. *)
Theorem forecast_column_aligned (B : backend) (model : sarimax)
  (test_data : option series) (n_yrs_future : option Z) (steps : Z)
  (r : forecast_results) (df : frame) :
  horizon test_data n_yrs_future = Some steps ->
  get_forecast B model steps = Ok r ->
  value_of (forecast_and_ci B model test_data n_yrs_future) = Ok df ->
  exists fc,
    column "Forecast" df = Ok fc /\
    sname fc = LStr "Forecast" /\
    sindex fc = findex df /\
    (map fst (predicted_mean r) = findex (conf_int r) ->
     findex df = findex (conf_int r) /\ srows fc = predicted_mean r) /\
    (map fst (predicted_mean r) <> findex (conf_int r) ->
     findex (conf_int r) <> [] ->
     findex df = findex (conf_int r) /\
     NoDup (map fst (predicted_mean r)) /\
     srows fc
     = map (fun t => (t, at_label t (predicted_mean r))) (findex (conf_int r)) /\
     (forall t v, In (t, v) (predicted_mean r) -> In t (findex (conf_int r)) ->
                  In (t, v) (srows fc)) /\
     (forall t, In t (findex (conf_int r)) ->
                ~ In t (map fst (predicted_mean r)) ->
                In (t, S754_nan) (srows fc))) /\
    (map fst (predicted_mean r) <> findex (conf_int r) ->
     findex (conf_int r) = [] ->
     findex df = map fst (predicted_mean r) /\
     srows fc = predicted_mean r /\
     forall name vs,
       In (name, vs) (fcols df) -> name <> "Forecast" ->
       vs = map (fun _ => S754_nan) (predicted_mean r)).
Proof.
  intros Hh Hr Hdf.
  apply forecast_and_ci_frame in Hdf
    as [steps' [r' [lower [upper [Hh' [Hr' [Hc Hset]]]]]]].
  rewrite Hh in Hh'. injection Hh' as <-. rewrite Hr in Hr'. injection Hr' as <-.
  rewrite set_column_cases in Hset. cbn [findex fcols] in Hset.
  destruct (index_equals (map fst (predicted_mean r)) (findex (conf_int r))) eqn:E.
  - apply index_equals_spec in E. injection Hset as <-.
    exists (mkSeries (LStr "Forecast")
              (combine (findex (conf_int r)) (map snd (predicted_mean r)))).
    split; [reflexivity|]. unfold sindex. cbn [sname srows findex].
    split; [reflexivity|].
    split; [rewrite <- E, combine_fst_snd; reflexivity|].
    split; [|split].
    + intros _. split; [reflexivity|]. rewrite <- E. apply combine_fst_snd.
    + intros Hne. contradiction.
    + intros Hne. contradiction.
  - assert (Hne : map fst (predicted_mean r) <> findex (conf_int r)).
    { intros H. apply index_equals_spec in H. congruence. }
    destruct (findex (conf_int r)) as [|t0 idx] eqn:Hidx.
    + injection Hset as <-.
      exists (mkSeries (LStr "Forecast")
                (combine (map fst (predicted_mean r)) (map snd (predicted_mean r)))).
      split; [reflexivity|]. unfold sindex. cbn [sname srows findex].
      rewrite combine_fst_snd.
      split; [reflexivity|]. split; [reflexivity|]. split; [|split].
      * intros H. contradiction.
      * intros _ H. congruence.
      * intros _ _. split; [reflexivity|]. split; [reflexivity|].
        intros name vs Hin Hname. cbn in Hin.
        destruct Hin as [[= <- <-]|[[= <- <-]|[[= <- <-]|[]]]];
          [reflexivity|reflexivity|congruence].
    + destruct (is_unique (map fst (predicted_mean r))) eqn:U; [|discriminate].
      apply is_unique_spec in U. injection Hset as <-.
      exists (mkSeries (LStr "Forecast")
                (combine (t0 :: idx)
                   (map (fun t => at_label t (predicted_mean r)) (t0 :: idx)))).
      split; [reflexivity|]. unfold sindex. cbn [sname srows findex].
      rewrite combine_map_self.
      split; [reflexivity|].
      split; [rewrite map_map; cbn [fst]; rewrite map_id; reflexivity|].
      split; [|split].
      * intros H. contradiction.
      * intros _ _. split; [reflexivity|]. split; [exact U|].
        split; [reflexivity|]. split.
        -- intros t v Hin Ht. apply in_map_iff. exists t. split; [|exact Ht].
           rewrite (at_label_row t v _ U Hin). reflexivity.
        -- intros t Ht Hn. apply in_map_iff. exists t. split; [|exact Ht].
           rewrite (at_label_missing t _ Hn). reflexivity.
      * intros _ H. discriminate.
Qed.

Lemma forecast_column_aligned_witness :
  exists r df fc,
    get_forecast naive (mkSarimax (listings 102) (1, 1, 2) (0, 0, 0, 12) false) 18
    = Ok r /\
    value_of (forecast_and_ci naive
                (mkSarimax (listings 102) (1, 1, 2) (0, 0, 0, 12) false)
                (Some (iloc_from 102 (listings 120))) None) = Ok df /\
    column "Forecast" df = Ok fc /\
    srows fc = predicted_mean r.
Proof.
  destruct (get_forecast naive
              (mkSarimax (listings 102) (1, 1, 2) (0, 0, 0, 12) false) 18)
    as [r|x] eqn:Hr; [|vm_compute in Hr; discriminate].
  destruct (value_of (forecast_and_ci naive
                        (mkSarimax (listings 102) (1, 1, 2) (0, 0, 0, 12) false)
                        (Some (iloc_from 102 (listings 120))) None))
    as [df|x] eqn:Hdf; [|vm_compute in Hdf; discriminate].
  destruct (forecast_column_aligned naive
              (mkSarimax (listings 102) (1, 1, 2) (0, 0, 0, 12) false)
              (Some (iloc_from 102 (listings 120))) None 18 r df eq_refl Hr Hdf)
    as [fc [H1 [_ [_ [H4 _]]]]].
  exists r, df, fc. repeat split; try assumption. apply H4.
  vm_compute in Hr. injection Hr as <-. reflexivity.
Defined.

(** ** Further properties: the final ROI *)

Lemma nth_error_last {A} (l : list A) (d : A) :
  l <> [] -> nth_error l (List.length l - 1) = Some (last l d).
Proof.
  induction l as [|a l IH]; intros Hl; [congruence|].
  destruct l as [|b l]; [reflexivity|].
  replace (List.length (a :: b :: l) - 1)%nat with (S (List.length (b :: l) - 1))
    by (simpl; lia).
  cbn [nth_error]. rewrite IH by discriminate. reflexivity.
Qed.

Lemma item_last_value {A} (l : list A) (d : A) :
  l <> [] -> item (-1) l = Ok (last l d).
Proof.
  intros Hl. unfold item, len. cbv zeta.
  assert (Hn : (0 < List.length l)%nat) by (destruct l; [congruence|simpl; lia]).
  replace (-1 <? 0) with true by reflexivity.
  assert (Hb : (-1 + Z.of_nat (List.length l) <? 0)
               || (Z.of_nat (List.length l) <=? -1 + Z.of_nat (List.length l))
               = false).
  { apply orb_false_iff. split; [apply Z.ltb_ge|apply Z.leb_gt]; lia. }
  rewrite Hb.
  replace (Z.to_nat (-1 + Z.of_nat (List.length l))) with (List.length l - 1)%nat by lia.
  rewrite (nth_error_last l d Hl). reflexivity.
Qed.

Lemma item_raises_index_error {A} (i : Z) (l : list A) (x : exn) :
  item i l = Raise x -> x = IndexError.
Proof.
  unfold item. cbv zeta.
  match goal with |- context [if ?b then _ else _] => destruct b end;
    [congruence|].
  destruct (nth_error l _); congruence.
Qed.

Lemma item_beyond {A} (i : Z) (l : list A) :
  len l <= i -> item i l = Raise IndexError.
Proof.
  intros H. unfold item. cbv zeta.
  assert (Hi : (i <? 0) = false) by (apply Z.ltb_ge; unfold len in *; lia).
  rewrite Hi, Hi. simpl.
  assert (Hle : (len l <=? i) = true) by (apply Z.leb_le; exact H).
  rewrite Hle. reflexivity.
Qed.

Lemma last_map {A C} (g : A -> C) (l : list A) (d : A) :
  last (map g l) (g d) = g (last l d).
Proof.
  induction l as [|a l IH]; [reflexivity|].
  destruct l as [|b l]; [reflexivity|]. exact IH.
Qed.

Lemma last_default {A} (l : list A) (d d' : A) : l <> [] -> last l d = last l d'.
Proof.
  induction l as [|a l IH]; intros Hl; [congruence|].
  destruct l as [|b l]; [reflexivity|]. apply IH. discriminate.
Qed.

(** The last row of a frame whose columns have entries. *)
Lemma row_values_last (cols : list (string * list float)) :
  Forall (fun c => snd c <> []) cols ->
  row_values (-1) cols
  = Ok (map (fun c => (fst c, last (snd c) S754_nan)) cols).
Proof.
  induction cols as [|[n vs] cols IH]; intros H; [reflexivity|].
  inversion H as [|? ? Hvs Hrest]; subst. simpl in *.
  rewrite (item_last_value vs S754_nan Hvs), (IH Hrest). reflexivity.
Qed.

Lemma row_values_raises (i : Z) (cols : list (string * list float)) (x : exn) :
  row_values i cols = Raise x -> x = IndexError.
Proof.
  induction cols as [|[n vs] cols IH]; simpl; [discriminate|].
  destruct (item i vs) as [v|y] eqn:E.
  - destruct (row_values i cols) as [r|y]; [discriminate|].
    intros [= <-]. apply IH. reflexivity.
  - intros [= <-]. apply (item_raises_index_error _ _ _ E).
Qed.

Lemma well_formed_columns (f : frame) :
  well_formed f -> findex f <> [] -> Forall (fun c => snd c <> []) (fcols f).
Proof.
  unfold well_formed. intros Hw Hi. eapply Forall_impl; [|exact Hw].
  intros c Hc Hnil. cbv beta in Hc. rewrite Hnil in Hc. simpl in Hc.
  destruct (findex f); [congruence|discriminate].
Qed.

(** The last row of the ROI frame, from the forecast. *)
Lemma roi_last_row (f : frame) (c : float) :
  well_formed f -> findex f <> [] -> iloc2 0 2 f = Ok c ->
  roi f = Ok (frame_map (percent_of c) f) /\
  iloc_row (-1) (frame_map (percent_of c) f)
  = Ok (mkRow (RTimestamp (last (findex f) 0))
          (map (fun col => (fst col, percent_of c (last (snd col) S754_nan)))
               (fcols f))).
Proof.
  intros Hw Hi Hc. split.
  - unfold roi. rewrite Hc. reflexivity.
  - unfold iloc_row. cbn [findex fcols frame_map].
    rewrite (item_last_value (findex f) 0 Hi).
    rewrite row_values_last.
    + rewrite map_map. cbn [fst snd]. f_equal. f_equal.
      apply map_ext_in. intros [n vs] Hin. cbn [fst snd].
      assert (Hvs : vs <> []).
      { pose proof (well_formed_columns f Hw Hi) as Hall.
        rewrite Forall_forall in Hall. apply (Hall (n, vs) Hin). }
      apply (f_equal (pair n)).
      transitivity (last (map (percent_of c) vs) (percent_of c S754_nan));
        [|apply last_map].
      apply last_default. destruct vs; [congruence|discriminate].
    + apply Forall_map.
      pose proof (well_formed_columns f Hw Hi) as Hall.
      eapply Forall_impl; [|exact Hall].
      intros [n vs] Hvs Hnil. cbn [fst snd] in *.
      destruct vs; [congruence|discriminate].
Qed.

Lemma item_in {A} (i : Z) (l : list A) (a : A) : item i l = Ok a -> In a l.
Proof.
  unfold item. cbv zeta.
  match goal with |- context [if ?b then _ else _] => destruct b end;
    [discriminate|].
  destruct (nth_error l _) as [c|] eqn:En; [|discriminate].
  intros [= <-]. apply (nth_error_In _ _ En).
Qed.

(** The ROI of a frame without rows. *)
Lemma roi_no_row (f : frame) :
  well_formed f -> findex f = [] -> roi f = Raise IndexError.
Proof.
  unfold well_formed, roi, iloc2. intros Hw Hi.
  destruct (item 2 (fcols f)) as [[n vs]|x] eqn:E.
  - assert (Hin : In (n, vs) (fcols f)) by apply (item_in _ _ _ E).
    rewrite Forall_forall in Hw. specialize (Hw _ Hin). cbn [snd] in Hw.
    rewrite Hi in Hw. destruct vs; [reflexivity|discriminate].
  - rewrite (item_raises_index_error _ _ _ E). reflexivity.
Qed.

(** X4 : The final ROI of lines 268 to 272. On a forecast frame whose
    columns are as long as its index, with at least one row and three
    columns, the ROI and its last row exist, and the last row holds, for
    every column of the forecast and under its name, (last value - c) / c
    * 100 with [c = forecast.iloc[0,2]]; its name is the last timestamp of
    the forecast. On a frame with fewer than three columns, and on one
    without rows, [forecast.iloc[0,2]] raises [IndexError]; neither it nor
    [roi_df.iloc[-1]] raises anything else, and on a frame whose columns
    are as long as its index [roi_df.iloc[-1]] does not raise once
    [forecast.iloc[0,2]] is there. *)
Theorem final_roi_row (f : frame) :
  (forall c,
     well_formed f -> findex f <> [] -> iloc2 0 2 f = Ok c ->
     exists roi_df last_row,
       roi f = Ok roi_df /\
       iloc_row (-1) roi_df = Ok last_row /\
       r_name last_row = RTimestamp (last (findex f) 0) /\
       r_values last_row
       = map (fun col => (fst col, percent_of c (last (snd col) S754_nan)))
             (fcols f)) /\
  (len (fcols f) <= 2 -> roi f = Raise IndexError) /\
  (well_formed f -> findex f = [] -> roi f = Raise IndexError) /\
  (forall x, roi f = Raise x -> x = IndexError) /\
  (forall roi_df x,
     roi f = Ok roi_df -> iloc_row (-1) roi_df = Raise x -> x = IndexError) /\
  (forall roi_df,
     well_formed f -> roi f = Ok roi_df ->
     exists last_row, iloc_row (-1) roi_df = Ok last_row).
Proof.
  split; [|split; [|split; [|split; [|split]]]].
  - intros c Hw Hi Hc. destruct (roi_last_row f c Hw Hi Hc) as [H1 H2].
    eexists. eexists. split; [exact H1|]. split; [exact H2|].
    split; reflexivity.
  - intros H. unfold roi, iloc2. rewrite (item_beyond 2 (fcols f) H). reflexivity.
  - apply roi_no_row.
  - intros x. unfold roi, iloc2.
    destruct (item 2 (fcols f)) as [[n vs]|y] eqn:E.
    + destruct (item 0 vs) as [c|y] eqn:E0; [discriminate|].
      intros [= <-]. apply (item_raises_index_error _ _ _ E0).
    + intros [= <-]. apply (item_raises_index_error _ _ _ E).
  - intros roi_df x _. unfold iloc_row.
    destruct (item (-1) (findex roi_df)) as [t|y] eqn:E.
    + destruct (row_values (-1) (fcols roi_df)) as [r|y] eqn:Er; [discriminate|].
      intros [= <-]. apply (row_values_raises _ _ _ Er).
    + intros [= <-]. apply (item_raises_index_error _ _ _ E).
  - intros roi_df Hw Hroi.
    assert (Hi : findex f <> []).
    { intros Hi. rewrite (roi_no_row f Hw Hi) in Hroi. discriminate. }
    destruct (iloc2 0 2 f) as [c|x] eqn:Hc;
      [|unfold roi in Hroi; rewrite Hc in Hroi; discriminate].
    destruct (roi_last_row f c Hw Hi Hc) as [H1 H2].
    rewrite H1 in Hroi. injection Hroi as <-. eexists. exact H2.
Qed.

Lemma final_roi_row_witness :
  exists roi_df last_row,
    roi forecast_example = Ok roi_df /\
    iloc_row (-1) roi_df = Ok last_row /\
    r_name last_row = RTimestamp (last (findex forecast_example) 0) /\
    r_values last_row
    = map (fun col => (fst col, percent_of (of_Z 100) (last (snd col) S754_nan)))
          (fcols forecast_example).
Proof.
  apply (proj1 (final_roi_row forecast_example) (of_Z 100)).
  - repeat constructor.
  - discriminate.
  - reflexivity.
Defined.

(** X5 : The final ROI of a forecast that [forecast_and_ci] returned, on an
    answer of the library that has one index, with at least one label,
    for the predicted mean and for confidence intervals with as many
    values as labels: the ROI stage does not fail, its last row is named
    by the last label, and under Forecast it holds the change from the
    first predicted mean to the last one, in percent of the first. *)
Theorem final_roi_of_forecast (B : backend) (model : sarimax)
  (test_data : option series) (n_yrs_future : option Z) (steps : Z)
  (r : forecast_results) (df : frame) :
  horizon test_data n_yrs_future = Some steps ->
  get_forecast B model steps = Ok r ->
  value_of (forecast_and_ci B model test_data n_yrs_future) = Ok df ->
  map fst (predicted_mean r) = findex (conf_int r) ->
  well_formed (conf_int r) ->
  findex (conf_int r) <> [] ->
  exists roi_df last_row,
    roi df = Ok roi_df /\
    iloc_row (-1) roi_df = Ok last_row /\
    r_name last_row = RTimestamp (last (findex (conf_int r)) 0) /\
    map fst (r_values last_row) = ["Lower CI"; "Upper CI"; "Forecast"] /\
    lookup "Forecast" (r_values last_row)
    = Some (percent_of (hd S754_nan (map snd (predicted_mean r)))
                       (last (map snd (predicted_mean r)) S754_nan)).
Proof.
  intros Hh Hr Hdf Hidx Hw Hi.
  assert (Hcols : exists lower upper, map snd (fcols (conf_int r)) = [lower; upper]).
  { apply forecast_and_ci_frame in Hdf
      as [steps' [r' [lower [upper [Hh' [Hr' [Hc _]]]]]]].
    rewrite Hh in Hh'. injection Hh' as <-. rewrite Hr in Hr'. injection Hr' as <-.
    exists lower, upper. exact Hc. }
  destruct Hcols as [lower [upper Hc]].
  rewrite (forecast_and_ci_on_index B _ _ _ _ _ _ _ Hh Hr Hc Hidx) in Hdf.
  injection Hdf as <-.
  set (pm := map snd (predicted_mean r)).
  set (f := mkFrame (findex (conf_int r))
              [("Lower CI", lower); ("Upper CI", upper); ("Forecast", pm)]).
  assert (Hlen : List.length pm = List.length (findex (conf_int r))).
  { unfold pm. rewrite <- Hidx, !length_map. reflexivity. }
  assert (Hwf : well_formed f).
  { unfold well_formed in *. cbn [f findex fcols].
    destruct (fcols (conf_int r)) as [|[n1 c1] [|[n2 c2] [|]]]; try discriminate.
    injection Hc as <- <-.
    inversion Hw as [|? ? H1 Hw']; subst. inversion Hw' as [|? ? H2 _]; subst.
    repeat constructor; cbn [snd] in *; assumption. }
  assert (Hpm : pm <> []).
  { intros Hn. apply Hi. rewrite Hn in Hlen.
    destruct (findex (conf_int r)); [reflexivity|discriminate]. }
  assert (Hc0 : iloc2 0 2 f = Ok (hd S754_nan pm)).
  { unfold iloc2, f. cbn. destruct pm; [congruence|reflexivity]. }
  destruct (roi_last_row f (hd S754_nan pm) Hwf Hi Hc0) as [H1 H2].
  eexists. eexists. split; [exact H1|]. split; [exact H2|].
  cbn [r_name r_values]. split; [reflexivity|]. split; reflexivity.
Qed.

Lemma final_roi_of_forecast_witness :
  exists r df roi_df last_row,
    get_forecast naive (mkSarimax (listings 120) (1, 1, 2) (0, 0, 0, 12) false) 24
    = Ok r /\
    value_of (forecast_and_ci naive
                (mkSarimax (listings 120) (1, 1, 2) (0, 0, 0, 12) false)
                None (Some 2)) = Ok df /\
    roi df = Ok roi_df /\
    iloc_row (-1) roi_df = Ok last_row /\
    r_name last_row = RTimestamp 144.
Proof.
  destruct (get_forecast naive
              (mkSarimax (listings 120) (1, 1, 2) (0, 0, 0, 12) false) 24)
    as [r|x] eqn:Hr; [|vm_compute in Hr; discriminate].
  destruct (value_of (forecast_and_ci naive
                        (mkSarimax (listings 120) (1, 1, 2) (0, 0, 0, 12) false)
                        None (Some 2)))
    as [df|x] eqn:Hdf; [|vm_compute in Hdf; discriminate].
  assert (Hshape : map fst (predicted_mean r) = findex (conf_int r) /\
                   well_formed (conf_int r) /\
                   findex (conf_int r) <> [] /\
                   last (findex (conf_int r)) 0 = 144).
  { vm_compute in Hr. injection Hr as <-.
    split; [reflexivity|]. split; [repeat constructor|].
    split; [discriminate|reflexivity]. }
  destruct Hshape as [Hidx [Hw [Hi Hlast]]].
  destruct (final_roi_of_forecast naive
              (mkSarimax (listings 120) (1, 1, 2) (0, 0, 0, 12) false)
              None (Some 2) 24 r df eq_refl Hr Hdf Hidx Hw Hi)
    as [roi_df [last_row [H1 [H2 [H3 _]]]]].
  exists r, df, roi_df, last_row. repeat split; try assumption.
  rewrite H3, Hlast. reflexivity.
Defined.

(** ** Further properties: the plots of a forecast *)

Section PlotRuns.
Variable B : backend.

(** The run of [plot_forecast_ttf] on a frame that has the three columns. *)
Lemma plot_forecast_ttf_run (train test : series) (f : frame) (n : Z)
  (show_vis : bool) (fc lo up : series) :
  column "Forecast" f = Ok fc -> column "Lower CI" f = Ok lo ->
  column "Upper CI" f = Ok up ->
  plot_forecast_ttf B train test f n show_vis =
  match series_plot B (iloc_from (- (12 * n)) train) with
  | Raise e => (Raise e, [EvPlot "subplots"])
  | Ok _ =>
      match series_plot B test with
      | Raise e => (Raise e, [EvPlot "subplots"; EvPlot "Training Data"])
      | Ok _ =>
          match series_plot B fc with
          | Raise e =>
              (Raise e,
               [EvPlot "subplots"; EvPlot "Training Data"; EvPlot "Test Data"])
          | Ok _ =>
              match item (-1) (sindex train) with
              | Raise e =>
                  (Raise e,
                   [ EvPlot "subplots"; EvPlot "Training Data"; EvPlot "Test Data";
                     EvPlot "Forecast"; EvPlot "fill_between"; EvPlot "set";
                     EvPlot "set"; EvPlot "set_title" ])
              | Ok _ =>
                  (Ok (FigTrainTest train test f),
                   [ EvPlot "subplots"; EvPlot "Training Data"; EvPlot "Test Data";
                     EvPlot "Forecast"; EvPlot "fill_between"; EvPlot "set";
                     EvPlot "set"; EvPlot "set_title"; EvPlot "axvline";
                     EvPlot "legend"; if show_vis then EvShow else EvClose ])
              end
          end
      end
  end.
Proof.
  intros Hfc Hlo Hup. unfold plot_forecast_ttf, plot. cbv zeta.
  rewrite Hfc, Hlo, Hup. cbv beta iota delta [bind emit lift ret].
  destruct (series_plot B (iloc_from (- (12 * n)) train)) as [[]|e1]; [|reflexivity].
  destruct (series_plot B test) as [[]|e2]; [|reflexivity].
  destruct (series_plot B fc) as [[]|e3]; [|reflexivity].
  destruct (item (-1) (sindex train)) as [a|e4]; [|reflexivity].
  destruct show_vis; reflexivity.
Qed.

Lemma plot_forecast_final_run (y : series) (f : frame) (show_vis : bool)
  (fc lo up : series) :
  column "Forecast" f = Ok fc -> column "Lower CI" f = Ok lo ->
  column "Upper CI" f = Ok up ->
  plot_forecast_final B y f show_vis =
  match series_plot B y with
  | Raise e => (Raise e, [EvPlot "subplots"])
  | Ok _ =>
      match series_plot B fc with
      | Raise e => (Raise e, [EvPlot "subplots"; EvPlot "Original Data"])
      | Ok _ =>
          match item (-1) (sindex y) with
          | Raise e =>
              (Raise e,
               [ EvPlot "subplots"; EvPlot "Original Data"; EvPlot "Forecast";
                 EvPlot "fill_between"; EvPlot "set"; EvPlot "set";
                 EvPlot "set_title" ])
          | Ok _ =>
              (Ok (FigFinal y f),
               [ EvPlot "subplots"; EvPlot "Original Data"; EvPlot "Forecast";
                 EvPlot "fill_between"; EvPlot "set"; EvPlot "set";
                 EvPlot "set_title"; EvPlot "axvline"; EvPlot "legend";
                 if show_vis then EvShow else EvClose ])
          end
      end
  end.
Proof.
  intros Hfc Hlo Hup. unfold plot_forecast_final, plot.
  rewrite Hfc, Hlo, Hup. cbv beta iota delta [bind emit lift ret].
  destruct (series_plot B y) as [[]|e1]; [|reflexivity].
  destruct (series_plot B fc) as [[]|e3]; [|reflexivity].
  destruct (item (-1) (sindex y)) as [a|e4]; [|reflexivity].
  destruct show_vis; reflexivity.
Qed.

(** A frame of [forecast_and_ci] has the columns that the plots read. *)
Lemma forecast_frame_columns (model : sarimax) (test_data : option series)
  (n_yrs_future : option Z) (df : frame) :
  value_of (forecast_and_ci B model test_data n_yrs_future) = Ok df ->
  exists fc lo up,
    column "Forecast" df = Ok fc /\ column "Lower CI" df = Ok lo /\
    column "Upper CI" df = Ok up.
Proof.
  intros H. apply forecast_and_ci_frame in H
    as [steps [r [lower [upper [_ [_ [_ H]]]]]]].
  rewrite set_column_cases in H. cbn [findex fcols] in H.
  destruct (index_equals _ _).
  - injection H as <-. eexists. eexists. eexists. repeat split; reflexivity.
  - destruct (findex (conf_int r)).
    + injection H as <-. eexists. eexists. eexists. repeat split; reflexivity.
    + destruct (is_unique _); [|discriminate].
      injection H as <-. eexists. eexists. eexists. repeat split; reflexivity.
Qed.

End PlotRuns.

(** X6 : A frame that [forecast_and_ci] returned has the three columns that
    [plot_forecast_ttf] and [plot_forecast_final] read, so neither raises
    [KeyError] on it. [plot_forecast_ttf] then returns its figure exactly
    when pandas accepts the last [12 * n_yrs_past] rows of the training data
    (all of them for [n_yrs_past = 0]), the test data and the column
    Forecast for plotting and the training data are not empty; the last
    call of a run that returns is [plt.show()] with [show_vis] and
    [plt.close()] without. *)
Theorem plot_forecast_ttf_on_forecast (B : backend) (model : sarimax)
  (test_data : option series) (n_yrs_future : option Z) (df : frame)
  (train test : series) (n_yrs_past : Z) (show_vis : bool) :
  value_of (forecast_and_ci B model test_data n_yrs_future) = Ok df ->
  exists fc,
    column "Forecast" df = Ok fc /\
    is_ok (column "Lower CI" df) = true /\
    is_ok (column "Upper CI" df) = true /\
    (forall fig,
       value_of (plot_forecast_ttf B train test df n_yrs_past show_vis) = Ok fig <->
       fig = FigTrainTest train test df /\
       series_plot B (iloc_from (- (12 * n_yrs_past)) train) = Ok tt /\
       series_plot B test = Ok tt /\
       series_plot B fc = Ok tt /\
       srows train <> []) /\
    (forall fig,
       value_of (plot_forecast_ttf B train test df n_yrs_past show_vis) = Ok fig ->
       exists drawn,
         calls_of (plot_forecast_ttf B train test df n_yrs_past show_vis)
         = drawn ++ [if show_vis then EvShow else EvClose] /\
         forallb is_drawing drawn = true).
Proof.
  intros Hdf.
  destruct (forecast_frame_columns B model test_data n_yrs_future df Hdf)
    as [fc [lo [up [Hfc [Hlo Hup]]]]].
  exists fc. rewrite Hlo, Hup. repeat split; try assumption.
  - rewrite (plot_forecast_ttf_run B train test df n_yrs_past show_vis fc lo up
               Hfc Hlo Hup) in H.
    destruct (series_plot B _) as [[]|]; [|discriminate].
    destruct (series_plot B test) as [[]|]; [|discriminate].
    destruct (series_plot B fc) as [[]|]; [|discriminate].
    destruct (item (-1) (sindex train)); [|discriminate].
    injection H as <-. reflexivity.
  - rewrite (plot_forecast_ttf_run B train test df n_yrs_past show_vis fc lo up
               Hfc Hlo Hup) in H.
    destruct (series_plot B _) as [[]|]; [reflexivity|discriminate].
  - rewrite (plot_forecast_ttf_run B train test df n_yrs_past show_vis fc lo up
               Hfc Hlo Hup) in H.
    destruct (series_plot B _) as [[]|]; [|discriminate].
    destruct (series_plot B test) as [[]|]; [reflexivity|discriminate].
  - rewrite (plot_forecast_ttf_run B train test df n_yrs_past show_vis fc lo up
               Hfc Hlo Hup) in H.
    destruct (series_plot B _) as [[]|]; [|discriminate].
    destruct (series_plot B test) as [[]|]; [|discriminate].
    destruct (series_plot B fc) as [[]|]; [reflexivity|discriminate].
  - rewrite (plot_forecast_ttf_run B train test df n_yrs_past show_vis fc lo up
               Hfc Hlo Hup) in H.
    destruct (series_plot B _) as [[]|]; [|discriminate].
    destruct (series_plot B test) as [[]|]; [|discriminate].
    destruct (series_plot B fc) as [[]|]; [|discriminate].
    intros Hnil. apply sindex_nil in Hnil. rewrite Hnil in H. discriminate.
  - intros [-> [H1 [H2 [H3 H4]]]].
    rewrite (plot_forecast_ttf_run B train test df n_yrs_past show_vis fc lo up
               Hfc Hlo Hup), H1, H2, H3.
    destruct (item_last_some (sindex train)) as [a Ha].
    { intros Hn. apply sindex_nil in Hn. contradiction. }
    rewrite Ha. reflexivity.
  - intros fig H.
    rewrite (plot_forecast_ttf_run B train test df n_yrs_past show_vis fc lo up
               Hfc Hlo Hup) in *.
    destruct (series_plot B _) as [[]|]; [|discriminate].
    destruct (series_plot B test) as [[]|]; [|discriminate].
    destruct (series_plot B fc) as [[]|]; [|discriminate].
    destruct (item (-1) (sindex train)); [|discriminate].
    exists [ EvPlot "subplots"; EvPlot "Training Data"; EvPlot "Test Data";
             EvPlot "Forecast"; EvPlot "fill_between"; EvPlot "set";
             EvPlot "set"; EvPlot "set_title"; EvPlot "axvline"; EvPlot "legend" ].
    split; reflexivity.
Qed.

Lemma plot_forecast_ttf_on_forecast_witness :
  exists df,
    value_of (forecast_and_ci naive
                (mkSarimax (prices 20) (1, 1, 2) (0, 0, 0, 12) false)
                (Some (iloc_from 20 (prices 24))) None) = Ok df /\
    value_of (plot_forecast_ttf naive (prices 20) (iloc_from 20 (prices 24)) df 5 false)
    = Ok (FigTrainTest (prices 20) (iloc_from 20 (prices 24)) df).
Proof.
  destruct (value_of (forecast_and_ci naive
                        (mkSarimax (prices 20) (1, 1, 2) (0, 0, 0, 12) false)
                        (Some (iloc_from 20 (prices 24))) None))
    as [df|x] eqn:Hdf; [|vm_compute in Hdf; discriminate].
  exists df. split; [reflexivity|].
  destruct (plot_forecast_ttf_on_forecast naive
              (mkSarimax (prices 20) (1, 1, 2) (0, 0, 0, 12) false)
              (Some (iloc_from 20 (prices 24))) None df
              (prices 20) (iloc_from 20 (prices 24)) 5 false Hdf)
    as [fc [Hfc [_ [_ [H _]]]]].
  apply H. vm_compute in Hdf. injection Hdf as <-.
  vm_compute in Hfc. injection Hfc as <-.
  repeat split; try reflexivity. vm_compute. discriminate.
Defined.

(** X7 : On a frame that [forecast_and_ci] returned, [plot_forecast_final]
    returns its figure exactly when pandas accepts the series and the
    column Forecast for plotting and the series is not empty; the last call
    of a run that returns is [plt.show()] with [show_vis] and [plt.close()]
    without. *)
Theorem plot_forecast_final_on_forecast (B : backend) (model : sarimax)
  (test_data : option series) (n_yrs_future : option Z) (df : frame)
  (zipcode_val : series) (show_vis : bool) :
  value_of (forecast_and_ci B model test_data n_yrs_future) = Ok df ->
  exists fc,
    column "Forecast" df = Ok fc /\
    (forall fig,
       value_of (plot_forecast_final B zipcode_val df show_vis) = Ok fig <->
       fig = FigFinal zipcode_val df /\
       series_plot B zipcode_val = Ok tt /\
       series_plot B fc = Ok tt /\
       srows zipcode_val <> []) /\
    (forall fig,
       value_of (plot_forecast_final B zipcode_val df show_vis) = Ok fig ->
       exists drawn,
         calls_of (plot_forecast_final B zipcode_val df show_vis)
         = drawn ++ [if show_vis then EvShow else EvClose] /\
         forallb is_drawing drawn = true).
Proof.
  intros Hdf.
  destruct (forecast_frame_columns B model test_data n_yrs_future df Hdf)
    as [fc [lo [up [Hfc [Hlo Hup]]]]].
  exists fc. repeat split; try assumption.
  - rewrite (plot_forecast_final_run B zipcode_val df show_vis fc lo up
               Hfc Hlo Hup) in H.
    destruct (series_plot B zipcode_val) as [[]|]; [|discriminate].
    destruct (series_plot B fc) as [[]|]; [|discriminate].
    destruct (item (-1) (sindex zipcode_val)); [|discriminate].
    injection H as <-. reflexivity.
  - rewrite (plot_forecast_final_run B zipcode_val df show_vis fc lo up
               Hfc Hlo Hup) in H.
    destruct (series_plot B zipcode_val) as [[]|]; [reflexivity|discriminate].
  - rewrite (plot_forecast_final_run B zipcode_val df show_vis fc lo up
               Hfc Hlo Hup) in H.
    destruct (series_plot B zipcode_val) as [[]|]; [|discriminate].
    destruct (series_plot B fc) as [[]|]; [reflexivity|discriminate].
  - rewrite (plot_forecast_final_run B zipcode_val df show_vis fc lo up
               Hfc Hlo Hup) in H.
    destruct (series_plot B zipcode_val) as [[]|]; [|discriminate].
    destruct (series_plot B fc) as [[]|]; [|discriminate].
    intros Hnil. apply sindex_nil in Hnil. rewrite Hnil in H. discriminate.
  - intros [-> [H1 [H3 H4]]].
    rewrite (plot_forecast_final_run B zipcode_val df show_vis fc lo up
               Hfc Hlo Hup), H1, H3.
    destruct (item_last_some (sindex zipcode_val)) as [a Ha].
    { intros Hn. apply sindex_nil in Hn. contradiction. }
    rewrite Ha. reflexivity.
  - intros fig H.
    rewrite (plot_forecast_final_run B zipcode_val df show_vis fc lo up
               Hfc Hlo Hup) in *.
    destruct (series_plot B zipcode_val) as [[]|]; [|discriminate].
    destruct (series_plot B fc) as [[]|]; [|discriminate].
    destruct (item (-1) (sindex zipcode_val)); [|discriminate].
    exists [ EvPlot "subplots"; EvPlot "Original Data"; EvPlot "Forecast";
             EvPlot "fill_between"; EvPlot "set"; EvPlot "set";
             EvPlot "set_title"; EvPlot "axvline"; EvPlot "legend" ].
    split; reflexivity.
Qed.

Lemma plot_forecast_final_on_forecast_witness :
  exists df,
    value_of (forecast_and_ci naive
                (mkSarimax (prices 24) (1, 1, 2) (0, 0, 0, 12) false)
                None (Some 2)) = Ok df /\
    value_of (plot_forecast_final naive (prices 24) df true)
    = Ok (FigFinal (prices 24) df).
Proof.
  destruct (value_of (forecast_and_ci naive
                        (mkSarimax (prices 24) (1, 1, 2) (0, 0, 0, 12) false)
                        None (Some 2)))
    as [df|x] eqn:Hdf; [|vm_compute in Hdf; discriminate].
  exists df. split; [reflexivity|].
  destruct (plot_forecast_final_on_forecast naive
              (mkSarimax (prices 24) (1, 1, 2) (0, 0, 0, 12) false)
              None (Some 2) df (prices 24) true Hdf)
    as [fc [Hfc [H _]]].
  apply H. vm_compute in Hdf. injection Hdf as <-.
  vm_compute in Hfc. injection Hfc as <-.
  repeat split; try reflexivity. vm_compute. discriminate.
Defined.
(** ** Further properties: the workflow *)

Section WorkflowStages.
Variable B : backend.

(** A run of the later stages that returns, stage by stage. *)
Lemma workflow_after_models_stages (zipcode_val train test : series)
  (a : auto_model) (best_model_train : sarimax) (n_yrs_past n_yrs_future : Z)
  (show_vis : bool) (r : workflow_result) :
  value_of (workflow_after_models B zipcode_val train test a best_model_train
              n_yrs_past n_yrs_future show_vis) = Ok r ->
  let best_model_full :=
    mkSarimax zipcode_val (am_order a) (am_seasonal_order a) false in
  exists summary_train summary_full forecast_train forecast_full roi_df last name,
    plot_diagnostics B best_model_train = Ok tt /\
    model_summary B best_model_train = Ok summary_train /\
    value_of (forecast_and_ci B best_model_train (Some test) None)
      = Ok forecast_train /\
    value_of (plot_forecast_ttf B train test forecast_train n_yrs_past show_vis)
      = Ok (FigTrainTest train test forecast_train) /\
    sarimax_new B best_model_full = Ok tt /\
    sarimax_fit B best_model_full = Ok tt /\
    plot_diagnostics B best_model_full = Ok tt /\
    model_summary B best_model_full = Ok summary_full /\
    value_of (forecast_and_ci B best_model_full None (Some n_yrs_future))
      = Ok forecast_full /\
    value_of (plot_forecast_final B zipcode_val forecast_full show_vis)
      = Ok (FigFinal zipcode_val forecast_full) /\
    roi forecast_full = Ok roi_df /\
    iloc_row (-1) roi_df = Ok last /\
    astype_str (sname zipcode_val) = Ok name /\
    r = (forecast_full, set_name name last,
         summary_train, FigDiagnostics best_model_train,
         summary_full, FigDiagnostics best_model_full,
         FigTrainTest train test forecast_train,
         FigFinal zipcode_val forecast_full) /\
    calls_of (workflow_after_models B zipcode_val train test a best_model_train
                n_yrs_past n_yrs_future show_vis)
    = [EvPlotDiagnostics best_model_train; EvClose; EvSummary best_model_train]
      ++ calls_of (forecast_and_ci B best_model_train (Some test) None)
      ++ calls_of (plot_forecast_ttf B train test forecast_train n_yrs_past show_vis)
      ++ [EvSARIMAX best_model_full; EvFit best_model_full []]
      ++ [EvPlotDiagnostics best_model_full; EvClose; EvSummary best_model_full]
      ++ calls_of (forecast_and_ci B best_model_full None (Some n_yrs_future))
      ++ calls_of (plot_forecast_final B zipcode_val forecast_full show_vis)
      ++ (if show_vis then [] else [EvClose]).
Proof.
  intros H best_model_full. unfold workflow_after_models in *.
  destruct (value_bind_ok _ _ _ H) as [[s1 d1] [E1 H1]].
  rewrite (calls_bind_ok _ _ _ E1). clear H.
  destruct (value_bind_ok _ _ _ H1) as [ft [E2 H2]].
  rewrite (calls_bind_ok _ _ _ E2). clear H1.
  destruct (value_bind_ok _ _ _ H2) as [fig1 [E3 H3]].
  rewrite (calls_bind_ok _ _ _ E3). clear H2.
  destruct (value_bind_ok _ _ _ H3) as [bmf [E4 H4]].
  rewrite (calls_bind_ok _ _ _ E4). clear H3.
  apply fit_sarimax_value in E4 as [-> [N4 [F4 C4]]].
  destruct (value_bind_ok _ _ _ H4) as [[s2 d2] [E5 H5]].
  rewrite (calls_bind_ok _ _ _ E5). clear H4.
  destruct (value_bind_ok _ _ _ H5) as [ff [E6 H6]].
  rewrite (calls_bind_ok _ _ _ E6). clear H5.
  destruct (value_bind_ok _ _ _ H6) as [fig2 [E7 H7]].
  rewrite (calls_bind_ok _ _ _ E7). clear H6.
  destruct (value_bind_ok _ _ _ H7) as [roi_df [E8 H8]].
  rewrite (calls_bind_ok _ _ _ E8). clear H7.
  destruct (value_bind_ok _ _ _ H8) as [last [E9 H9]].
  rewrite (calls_bind_ok _ _ _ E9). clear H8.
  destruct (value_bind_ok _ _ _ H9) as [name [E10 H10]].
  rewrite (calls_bind_ok _ _ _ E10). clear H9.
  apply model_performance_value in E1 as [S1 [-> [D1 C1]]].
  pose proof (plot_forecast_ttf_value B _ _ _ _ _ _ E3) as ->.
  apply model_performance_value in E5 as [S5 [-> [D5 C5]]].
  pose proof (plot_forecast_final_value B _ _ _ _ E7) as ->.
  rewrite C1, C4, C5.
  exists s1, s2, ft, ff, roi_df, last, name.
  split; [exact D1|]. split; [exact S1|]. split; [exact E2|]. split; [exact E3|].
  split; [exact N4|]. split; [exact F4|]. split; [exact D5|]. split; [exact S5|].
  split; [exact E6|]. split; [exact E7|]. split; [exact E8|]. split; [exact E9|].
  split; [exact E10|]. split.
  - destruct show_vis; simpl in H10; injection H10 as <-; reflexivity.
  - destruct show_vis; reflexivity.
Qed.





End WorkflowStages.



(** X9 : The name of the final ROI. A run of the workflow behind the two
    models of the training data (line 244 on) that returns was given a
    series whose name has [astype]: for a numpy integer the final ROI
    carries its decimal digits as its name, for a numpy string the string
    itself, in both cases over the values of the last row of the ROI
    frame. For a series named by a [str] no run returns: [str] has no
    [astype]. *)
Theorem workflow_names_final_roi (B : backend) (zipcode_val train test : series)
  (a : auto_model) (best_model_train : sarimax) (n_yrs_past n_yrs_future : Z)
  (show_vis : bool) :
  (forall r,
     value_of (workflow_after_models B zipcode_val train test a best_model_train
                 n_yrs_past n_yrs_future show_vis) = Ok r ->
     exists name forecast_full roi_df last,
       match sname zipcode_val with
       | LInt z => name = NilZero.string_of_int (Z.to_int z)
       | LNpStr s => name = s
       | LStr _ => False
       end /\
       value_of (forecast_and_ci B
                   (mkSarimax zipcode_val (am_order a) (am_seasonal_order a) false)
                   None (Some n_yrs_future)) = Ok forecast_full /\
       roi forecast_full = Ok roi_df /\
       iloc_row (-1) roi_df = Ok last /\
       roi_final_of r = mkRow (RName name) (r_values last)) /\
  (forall s, sname zipcode_val = LStr s ->
     raises (workflow_after_models B zipcode_val train test a best_model_train
               n_yrs_past n_yrs_future show_vis)).
Proof.
  split.
  - intros r H.
    destruct (workflow_after_models_stages B _ _ _ _ _ _ _ _ _ H)
      as [s1 [s2 [ft [ff [roi_df [last [name
           [_ [_ [_ [_ [_ [_ [_ [_ [E2 [_ [E3 [E4 [E5 [-> _]]]]]]]]]]]]]]]]]]]]].
    exists name, ff, roi_df, last.
    split; [|repeat split; assumption].
    destruct (sname zipcode_val) as [z|s|s]; simpl in E5;
      [injection E5 as <-; reflexivity|discriminate|injection E5 as <-; reflexivity].
  - intros s Hs. unfold raises.
    destruct (value_of (workflow_after_models B zipcode_val train test a
                          best_model_train n_yrs_past n_yrs_future show_vis))
      as [r|x] eqn:H; [|reflexivity].
    destruct (workflow_after_models_stages B _ _ _ _ _ _ _ _ _ H)
      as [s1 [s2 [ft [ff [roi_df [last [name
           [_ [_ [_ [_ [_ [_ [_ [_ [_ [_ [_ [_ [E5 _]]]]]]]]]]]]]]]]]]]].
    rewrite Hs in E5. discriminate.
Qed.

Lemma workflow_names_final_roi_witness :
  (exists r,
     value_of (workflow_after_models naive (listings 24) (iloc_to 20 (listings 24))
                 (iloc_from 20 (listings 24)) auto_example
                 (mkSarimax (iloc_to 20 (listings 24)) (1, 1, 2) (0, 0, 0, 12) false)
                 5 2 false) = Ok r /\
     r_name (roi_final_of r) = RName "10001") /\
  raises (workflow_after_models naive
            (mkSeries (LStr "10001") (srows (prices 24)))
            (iloc_to 20 (listings 24)) (iloc_from 20 (listings 24)) auto_example
            (mkSarimax (iloc_to 20 (listings 24)) (1, 1, 2) (0, 0, 0, 12) false)
            5 2 false).
Proof.
  split.
  - destruct (value_of (workflow_after_models naive (listings 24)
                          (iloc_to 20 (listings 24)) (iloc_from 20 (listings 24))
                          auto_example
                          (mkSarimax (iloc_to 20 (listings 24)) (1, 1, 2)
                             (0, 0, 0, 12) false)
                          5 2 false)) as [r|x] eqn:H; [|vm_compute in H; discriminate].
    exists r. split; [reflexivity|].
    destruct (proj1 (workflow_names_final_roi naive (listings 24)
                       (iloc_to 20 (listings 24)) (iloc_from 20 (listings 24))
                       auto_example
                       (mkSarimax (iloc_to 20 (listings 24)) (1, 1, 2)
                          (0, 0, 0, 12) false)
                       5 2 false) r H)
      as [name [ff [roi_df [last [Hz [_ [_ [_ ->]]]]]]]].
    cbn in Hz. rewrite Hz. reflexivity.
  - exact (proj2 (workflow_names_final_roi naive
                    (mkSeries (LStr "10001") (srows (prices 24)))
                    (iloc_to 20 (listings 24)) (iloc_from 20 (listings 24))
                    auto_example
                    (mkSarimax (iloc_to 20 (listings 24)) (1, 1, 2) (0, 0, 0, 12) false)
                    5 2 false) "10001" eq_refl).
Defined.



(** ** Further properties: the arguments of the order search *)

Lemma lookup_app {V} (k : string) (d d' : list (string * V)) :
  lookup k (d ++ d') = match lookup k d with Some v => Some v | None => lookup k d' end.
Proof.
  induction d as [|[k' v'] d IH]; simpl; [reflexivity|].
  destruct (String.eqb k k'); [reflexivity|exact IH].
Qed.

Lemma lookup_in {V} (k : string) (v : V) (d : list (string * V)) :
  lookup k d = Some v -> In (k, v) d.
Proof.
  induction d as [|[k' v'] d IH]; simpl; [discriminate|].
  destruct (String.eqb_spec k k') as [->|_].
  - intros [= ->]. left. reflexivity.
  - intros H. right. apply IH, H.
Qed.

Lemma lookup_none {V} (k : string) (d : list (string * V)) :
  ~ In k (map fst d) -> lookup k d = None.
Proof.
  induction d as [|[k' v'] d IH]; simpl; intros Hn; [reflexivity|].
  destruct (String.eqb_spec k k') as [->|_]; [exfalso; apply Hn; left; reflexivity|].
  apply IH. intros H. apply Hn. right. exact H.
Qed.

Lemma lookup_has_key {V} (k : string) (d : list (string * V)) :
  In k (map fst d) -> has_key k d = true.
Proof.
  unfold has_key. induction d as [|[k' v'] d IH]; simpl; intros H; [destruct H|].
  destruct (String.eqb_spec k k') as [->|Hne]; [reflexivity|].
  destruct H as [->|H]; [contradiction|]. apply IH, H.
Qed.

Lemma map_fst_combine {A C} (l : list A) (l' : list C) :
  map fst (combine l l') = firstn (List.length l') l.
Proof.
  revert l'. induction l as [|a l IH]; intros [|c l']; simpl; try reflexivity.
  f_equal. apply IH.
Qed.

(** A call binds its keywords only when each names a parameter that no
    positional argument and no earlier keyword has bound. *)
Lemma bind_keywords_ok (sig : signature) (kw : kwargs) :
  forall e e', bind_keywords sig kw e = Ok e' ->
  forall k, In k (map fst kw) ->
            existsb (String.eqb k) (map p_name sig) = true /\ has_key k e = false.
Proof.
  induction kw as [|[k0 v0] kw IH]; intros e e' H k Hin; [destruct Hin|].
  simpl in H.
  destruct (existsb (String.eqb k0) (map p_name sig)) eqn:Hex; [|discriminate].
  destruct (has_key k0 e) eqn:Hk; [discriminate|]. simpl in H.
  destruct Hin as [<-|Hin]; [split; assumption|].
  destruct (IH _ _ H k Hin) as [H1 H2]. split; [exact H1|].
  unfold has_key in *. rewrite lookup_app in H2.
  destruct (lookup k e); [discriminate|reflexivity].
Qed.

Lemma bind_keywords_all (sig : signature) (kw : kwargs) :
  forall e,
    NoDup (map fst kw) ->
    (forall k, In k (map fst kw) ->
               existsb (String.eqb k) (map p_name sig) = true /\ has_key k e = false) ->
    bind_keywords sig kw e = Ok (e ++ kw).
Proof.
  induction kw as [|[k0 v0] kw IH]; intros e Hnd Hk; simpl.
  - rewrite app_nil_r. reflexivity.
  - inversion Hnd as [|? ? Hnot Hnd']; subst.
    destruct (Hk k0 (or_introl eq_refl)) as [-> ->]. simpl.
    rewrite IH.
    + rewrite <- app_assoc. reflexivity.
    + exact Hnd'.
    + intros k Hin. destruct (Hk k (or_intror Hin)) as [H1 H2]. split; [exact H1|].
      unfold has_key in *. rewrite lookup_app.
      destruct (lookup k e); [discriminate|]. simpl.
      destruct (String.eqb_spec k k0) as [->|_]; [contradiction|reflexivity].
Qed.

(** Every way a call can fail to bind is a [TypeError]. *)
Lemma bind_args_type_error (sig : signature) (args : list value) (kw : kwargs)
  (x : exn) :
  bind_args sig args kw = Raise x -> x = TypeError.
Proof.
  unfold bind_args, bind_positional.
  destruct (List.length sig <? List.length args)%nat; [congruence|].
  generalize (combine (map p_name sig) args). intros e.
  assert (Hk : forall kw e y, bind_keywords sig kw e = Raise y -> y = TypeError).
  { clear. induction kw as [|[k v] kw IH]; intros e y; simpl; [discriminate|].
    destruct (negb _); [congruence|]. destruct (has_key k e); [congruence|].
    apply IH. }
  assert (Hd : forall sig' e y, bind_defaults sig' e = Raise y -> y = TypeError).
  { clear. induction sig' as [|p sig' IH]; intros e y; simpl; [discriminate|].
    destruct (match lookup (p_name p) e with Some v => Some v | None => p_default p end);
      [|congruence].
    destruct (bind_defaults sig' e) eqn:E; [discriminate|].
    intros [= <-]. apply (IH e). exact E. }
  destruct (bind_keywords sig kw e) as [e1|y] eqn:E.
  - apply Hd.
  - intros [= <-]. apply (Hk _ _ _ E).
Qed.

(** The environment of a call in which every parameter without a default
    is bound: each parameter holds what the call gave for it, else its
    default. *)
Lemma bind_defaults_all (sig : signature) (e : env) :
  (forall p, In p sig -> p_default p = None -> has_key (p_name p) e = true) ->
  bind_defaults sig e
  = Ok (map (fun p => (p_name p,
                       match lookup (p_name p) e with
                       | Some v => v
                       | None => match p_default p with Some v => v | None => VNone end
                       end)) sig).
Proof.
  induction sig as [|p sig IH]; intros H; [reflexivity|]. simpl.
  rewrite IH by (intros q Hq; apply H; right; exact Hq).
  destruct (lookup (p_name p) e) as [v|] eqn:El; [reflexivity|].
  destruct (p_default p) as [v|] eqn:Ed; [reflexivity|].
  specialize (H p (or_introl eq_refl) Ed). unfold has_key in H. rewrite El in H.
  discriminate.
Qed.

Lemma keyword_as_int (kw : kwargs) (k : string) (dflt : Z) :
  (forall k v, In (k, v) kw -> exists z, v = VInt z) ->
  as_int (match lookup k kw with Some v => v | None => VInt dflt end)
  = Ok (keyword_or kw k dflt).
Proof.
  intros Hint. unfold keyword_or. destruct (lookup k kw) as [v|] eqn:E; [|reflexivity].
  destruct (Hint k v (lookup_in _ _ _ E)) as [z ->]. reflexivity.
Qed.

(** X11 : [auto_arima_model(y, **kw)] with keywords among [m] and the
    eight bounds, none twice, each an integer, calls [pmd.auto_arima] once,
    on [y], with each bound as the keyword gives it and 12 for [m], 0 for
    a start and 7 for a maximum where there is no keyword, with the
    differencing orders of [ndiffs] and [nsdiffs] and with
    [error_action='ignore'], and returns what the search returns.
    Positional arguments bind in the order of the signature, in which
    [start_Q] comes before [max_P]. A keyword that is no parameter, a
    parameter given both ways or more than ten positional arguments end
    the call with [TypeError] before any library call, and so does every
    other call that does not bind. *)
Theorem auto_arima_model_binding (B : backend) :
  (forall y kw d D,
     NoDup (map fst kw) ->
     (forall k v, In (k, v) kw ->
        In k ["m"; "start_p"; "max_p"; "start_q"; "max_q";
              "start_P"; "start_Q"; "max_P"; "max_Q"] /\ exists z, v = VInt z) ->
     ndiffs B y = Ok d -> nsdiffs B y (keyword_or kw "m" 12) = Ok D ->
     auto_arima_model B [VSeries y] kw
     = (Pmdarima.auto_arima (candidate_fit B y)
          {| a_m := keyword_or kw "m" 12;
             a_start_p := keyword_or kw "start_p" 0;
             a_max_p := keyword_or kw "max_p" 7;
             a_start_q := keyword_or kw "start_q" 0;
             a_max_q := keyword_or kw "max_q" 7;
             a_start_P := keyword_or kw "start_P" 0;
             a_max_P := keyword_or kw "max_P" 7;
             a_start_Q := keyword_or kw "start_Q" 0;
             a_max_Q := keyword_or kw "max_Q" 7;
             a_d := d; a_D := D; a_error_action := "ignore" |},
        [EvAutoArima y
           {| a_m := keyword_or kw "m" 12;
              a_start_p := keyword_or kw "start_p" 0;
              a_max_p := keyword_or kw "max_p" 7;
              a_start_q := keyword_or kw "start_q" 0;
              a_max_q := keyword_or kw "max_q" 7;
              a_start_P := keyword_or kw "start_P" 0;
              a_max_P := keyword_or kw "max_P" 7;
              a_start_Q := keyword_or kw "start_Q" 0;
              a_max_Q := keyword_or kw "max_Q" 7;
              a_d := d; a_D := D; a_error_action := "ignore" |}])) /\
  (forall y m a2 a3 a4 a5 a6 a7 a8 a9 d D,
     ndiffs B y = Ok d -> nsdiffs B y m = Ok D ->
     calls_of (auto_arima_model B
                 [VSeries y; VInt m; VInt a2; VInt a3; VInt a4; VInt a5;
                  VInt a6; VInt a7; VInt a8; VInt a9] [])
     = [EvAutoArima y
          {| a_m := m;
             a_start_p := a2; a_max_p := a3;
             a_start_q := a4; a_max_q := a5;
             a_start_P := a6; a_max_P := a8;
             a_start_Q := a7; a_max_Q := a9;
             a_d := d; a_D := D; a_error_action := "ignore" |}]) /\
  (forall args kw,
     is_ok (bind_args auto_arima_model_sig args kw) = false ->
     auto_arima_model B args kw = (Raise TypeError, [])) /\
  (forall args kw,
     (exists k, In k (map fst kw) /\
                (~ In k (map p_name auto_arima_model_sig) \/
                 In k (firstn (List.length args) (map p_name auto_arima_model_sig)))) \/
     (10 < List.length args)%nat ->
     is_ok (bind_args auto_arima_model_sig args kw) = false).
Proof.
  split; [|split; [|split]].
  - intros y kw d D Hnd Hkw Hd HD.
    assert (Hint : forall k v, In (k, v) kw -> exists z, v = VInt z)
      by (intros k v H; apply (Hkw k v H)).
    assert (Hnot : lookup "timeseries_dataset" kw = None).
    { apply lookup_none. intros Hin. apply in_map_iff in Hin as [[k v] [Hk Hin]].
      simpl in Hk. subst k. destruct (Hkw _ _ Hin) as [H _].
      simpl in H. intuition discriminate. }
    assert (Hb : bind_args auto_arima_model_sig [VSeries y] kw
                 = bind_defaults auto_arima_model_sig
                     (("timeseries_dataset", VSeries y) :: kw)).
    { unfold bind_args. change (bind_positional auto_arima_model_sig [VSeries y])
        with (Ok [("timeseries_dataset", VSeries y)]).
      cbv beta iota.
      rewrite bind_keywords_all; [reflexivity|exact Hnd|].
      intros k Hin. apply in_map_iff in Hin as [[k' v] [Hk Hin]].
      simpl in Hk. subst k'. destruct (Hkw _ _ Hin) as [H _].
      simpl in H. intuition (subst; split; reflexivity). }
    rewrite bind_defaults_all in Hb.
    2:{ intros p Hp Hdef. simpl in Hp.
        intuition (subst; try discriminate; reflexivity). }
    unfold auto_arima_model. rewrite Hb, bind_lift_ok.
    cbn [map auto_arima_model_sig required optional p_name p_default arg lookup
         String.eqb Ascii.eqb Bool.eqb as_series].
    rewrite bind_lift_ok, Hd, bind_lift_ok.
    rewrite (keyword_as_int kw "m" 12 Hint), bind_lift_ok, HD, bind_lift_ok.
    rewrite (keyword_as_int kw "start_p" 0 Hint), bind_lift_ok.
    rewrite (keyword_as_int kw "max_p" 7 Hint), bind_lift_ok.
    rewrite (keyword_as_int kw "start_q" 0 Hint), bind_lift_ok.
    rewrite (keyword_as_int kw "max_q" 7 Hint), bind_lift_ok.
    rewrite (keyword_as_int kw "start_P" 0 Hint), bind_lift_ok.
    rewrite (keyword_as_int kw "max_P" 7 Hint), bind_lift_ok.
    rewrite (keyword_as_int kw "start_Q" 0 Hint), bind_lift_ok.
    rewrite (keyword_as_int kw "max_Q" 7 Hint), bind_lift_ok.
    unfold pmd_auto_arima, bind, emit, lift. reflexivity.
  - intros y m a2 a3 a4 a5 a6 a7 a8 a9 d D Hd HD.
    unfold auto_arima_model.
    change (bind_args auto_arima_model_sig
              [VSeries y; VInt m; VInt a2; VInt a3; VInt a4; VInt a5;
               VInt a6; VInt a7; VInt a8; VInt a9] [])
      with (Ok [ ("timeseries_dataset", VSeries y); ("m", VInt m);
                 ("start_p", VInt a2); ("max_p", VInt a3);
                 ("start_q", VInt a4); ("max_q", VInt a5);
                 ("start_P", VInt a6); ("start_Q", VInt a7);
                 ("max_P", VInt a8); ("max_Q", VInt a9) ]).
    rewrite bind_lift_ok.
    change (as_series (arg _ "timeseries_dataset")) with (Ok y).
    rewrite bind_lift_ok, Hd, bind_lift_ok.
    change (as_int (arg _ "m")) with (Ok m).
    rewrite bind_lift_ok, HD, bind_lift_ok.
    reflexivity.
  - intros args kw H. unfold auto_arima_model.
    destruct (bind_args auto_arima_model_sig args kw) as [e|x] eqn:E; [discriminate|].
    rewrite (bind_args_type_error _ _ _ _ E). reflexivity.
  - intros args kw H.
    destruct (bind_args auto_arima_model_sig args kw) as [e|x] eqn:E; [|reflexivity].
    exfalso. unfold bind_args, bind_positional in E.
    destruct (List.length auto_arima_model_sig <? List.length args)%nat eqn:El.
    { discriminate. }
    apply Nat.ltb_ge in El. change (List.length auto_arima_model_sig) with 10%nat in El.
    destruct H as [[k [Hin Hk]]|Hlen]; [|lia].
    destruct (bind_keywords auto_arima_model_sig kw
                (combine (map p_name auto_arima_model_sig) args)) as [e1|] eqn:Ek;
      [|discriminate].
    destruct (bind_keywords_ok _ _ _ _ Ek k Hin) as [Hex Hhas].
    destruct Hk as [Hk|Hk].
    + apply Hk. apply existsb_exists in Hex as [n [Hn Heq]].
      apply String.eqb_eq in Heq. subst n. exact Hn.
    + rewrite <- map_fst_combine in Hk. apply lookup_has_key in Hk.
      rewrite Hk in Hhas. discriminate.
Qed.

Lemma auto_arima_model_binding_witness :
  calls_of (auto_arima_model naive [VSeries (prices 24)] search_example_kw)
  = [EvAutoArima (prices 24) search_example].
Proof.
  rewrite (proj1 (auto_arima_model_binding naive) (prices 24) search_example_kw 1 0).
  - reflexivity.
  - repeat constructor; simpl; intuition discriminate.
  - intros k v H. simpl in H.
    repeat (destruct H as [H|H]; [injection H as <- <-; simpl; eauto 12|]).
    destruct H.
  - reflexivity.
  - reflexivity.
Defined.
(** ** Further properties: where the cut falls

    The product [len(S) * threshold] is rounded twice, by the float
    multiplication and by [round]; neither rounding crosses an integer
    that the exact product stays below. *)

Lemma shr_1_half (r : shr_record) :
  0 <= shr_m r -> shr_m (shr_1 r) = shr_m r / 2.
Proof.
  destruct r as [m r s]. destruct m as [|[m|m|]|m]; simpl; intros H.
  - reflexivity.
  - apply (Z.div_unique_pos _ _ _ 1); lia.
  - apply (Z.div_unique_pos _ _ _ 0); lia.
  - reflexivity.
  - lia.
Qed.

Lemma iter_shr_1_div (n : positive) :
  forall r, 0 <= shr_m r -> shr_m (iter_pos shr_1 n r) = shr_m r / 2 ^ Zpos n.
Proof.
  assert (Hp : forall k : positive, 0 < 2 ^ Zpos k)
    by (intros k; apply Z.pow_pos_nonneg; lia).
  induction n as [n IH|n IH|]; intros r Hr; simpl iter_pos.
  - pose proof (shr_1_range r Hr) as H1.
    pose proof (iter_shr_1_range n (shr_1 r) (proj1 H1)) as H2.
    rewrite IH by apply H2. rewrite IH by apply H1. rewrite shr_1_half by exact Hr.
    pose proof (Hp n).
    rewrite !Z.div_div by lia. f_equal.
    rewrite (Pos2Z.inj_xI n).
    replace (2 * Zpos n + 1) with (1 + Zpos n + Zpos n) by lia.
    rewrite !Z.pow_add_r by lia. change (2 ^ 1) with 2. lia.
  - pose proof (iter_shr_1_range n r Hr) as H2.
    rewrite IH by apply H2. rewrite IH by exact Hr.
    pose proof (Hp n).
    rewrite !Z.div_div by lia. f_equal.
    rewrite (Pos2Z.inj_xO n).
    replace (2 * Zpos n) with (Zpos n + Zpos n) by lia.
    rewrite !Z.pow_add_r by lia. reflexivity.
  - rewrite shr_1_half by exact Hr. reflexivity.
Qed.

(** Aligning a mantissa on its canonical exponent: a division by a power
    of two when the exponent grows, nothing otherwise. *)
Lemma shr_fexp_div (m e : Z) (l : location) :
  0 <= m ->
  (0 < fexp prec emax (Zdigits2 m + e) - e ->
   shr_m (fst (shr_fexp prec emax m e l))
   = m / 2 ^ (fexp prec emax (Zdigits2 m + e) - e) /\
   snd (shr_fexp prec emax m e l) = fexp prec emax (Zdigits2 m + e)) /\
  (fexp prec emax (Zdigits2 m + e) - e <= 0 ->
   shr_fexp prec emax m e l = (shr_record_of_loc m l, e)).
Proof.
  intros Hm. unfold shr_fexp, shr.
  destruct (fexp prec emax (Zdigits2 m + e) - e) as [|k|k] eqn:Hk; split;
    try lia; try reflexivity.
  intros _. simpl. rewrite iter_shr_1_div by (rewrite shr_m_of_loc; exact Hm).
  rewrite shr_m_of_loc. split; [reflexivity|lia].
Qed.

Lemma pow2_pos (k : Z) : 0 <= k -> 0 < 2 ^ k.
Proof. intros H. apply Z.pow_pos_nonneg; lia. Qed.

Lemma pow2_split (a b : Z) : 0 <= a -> 0 <= b -> 2 ^ (a + b) = 2 ^ a * 2 ^ b.
Proof. intros. apply Z.pow_add_r; assumption. Qed.

(** A mantissa under [n * 2^-e] for an [n] below [2^53] has at most
    [53 - e] digits. *)
Lemma digits_below (n m e : Z) :
  0 <= n < 2 ^ 53 -> e <= 0 -> 0 <= m <= n * 2 ^ (- e) -> Zdigits2 m <= 53 - e.
Proof.
  intros Hn He Hm. apply Zdigits2_le; try lia.
  replace (53 - e) with (53 + - e) by lia. rewrite pow2_split by lia.
  pose proof (pow2_pos (- e) ltac:(lia)). nia.
Qed.

(** The second alignment and the packing of [binary_round_aux]. *)
Lemma round_aux_packs (n : Z) (s : bool) (m1 e1 : Z) :
  0 <= n < 2 ^ 53 -> e1 <= 0 -> 0 <= m1 <= n * 2 ^ (- e1) ->
  match (let '(mrs, e2) := shr_fexp prec emax m1 e1 loc_Exact in
         match shr_m mrs with
         | 0 => S754_zero s
         | Zpos m => if e2 <=? emax - prec then S754_finite s m e2
                     else S754_infinity s
         | Zneg _ => S754_nan
         end) with
  | S754_zero s' => s' = s
  | S754_finite s' m2 e2 => s' = s /\ e2 <= 0 /\ Zpos m2 <= n * 2 ^ (- e2)
  | _ => False
  end.
Proof.
  intros Hn He Hm.
  pose proof (digits_below n m1 e1 Hn He Hm) as Hd.
  destruct (shr_fexp_div m1 e1 loc_Exact (proj1 Hm)) as [Hshift Hstay].
  destruct (Z_lt_le_dec 0 (fexp prec emax (Zdigits2 m1 + e1) - e1)) as [Hk|Hk].
  - destruct (Hshift Hk) as [Hm2 He2].
    destruct (shr_fexp prec emax m1 e1 loc_Exact) as [mrs e2]. simpl in Hm2, He2.
    assert (He2' : e2 <= 0) by (subst e2; unfold fexp, emin, prec, emax in *; lia).
    assert (Hle : shr_m mrs <= n * 2 ^ (- e2)).
    { rewrite Hm2. rewrite <- He2.
      apply Z.div_le_upper_bound; [apply pow2_pos; lia|].
      rewrite Z.mul_comm, <- Z.mul_assoc, <- pow2_split by lia.
      replace (- e2 + (e2 - e1)) with (- e1) by lia. apply Hm. }
    assert (Hnn : 0 <= shr_m mrs).
    { rewrite Hm2. apply Z.div_pos; [lia|apply pow2_pos; lia]. }
    destruct (shr_m mrs) as [|m2|m2]; [reflexivity| |lia].
    replace (e2 <=? emax - prec) with true
      by (symmetry; apply Z.leb_le; unfold emax, prec; lia).
    split; [reflexivity|split; assumption].
  - rewrite (Hstay Hk). cbn [shr_record_of_loc shr_m].
    destruct m1 as [|m2|m2]; [reflexivity| |lia].
    replace (e1 <=? emax - prec) with true
      by (symmetry; apply Z.leb_le; unfold emax, prec; lia).
    split; [reflexivity|split; [assumption|apply Hm]].
Qed.

Lemma binary_round_aux_unfold (s : bool) (m e : Z) (l : location) :
  binary_round_aux prec emax s m e l
  = (let '(mrs, e2) :=
       shr_fexp prec emax
         (round_nearest_even (shr_m (fst (shr_fexp prec emax m e l)))
            (loc_of_shr_record (fst (shr_fexp prec emax m e l))))
         (snd (shr_fexp prec emax m e l)) loc_Exact in
     match shr_m mrs with
     | 0 => S754_zero s
     | Zpos m => if e2 <=? emax - prec then S754_finite s m e2
                 else S754_infinity s
     | Zneg _ => S754_nan
     end).
Proof.
  unfold binary_round_aux. destruct (shr_fexp prec emax m e l). reflexivity.
Qed.

(** Rounding a mantissa that stays strictly below the integer [n] does
    not pass [n]. *)
Lemma round_aux_below (n : Z) (s : bool) (m e : Z) (l : location) :
  0 <= n < 2 ^ 53 -> e <= 0 -> 0 <= m < n * 2 ^ (- e) ->
  match binary_round_aux prec emax s m e l with
  | S754_zero s' => s' = s
  | S754_finite s' m2 e2 => s' = s /\ e2 <= 0 /\ Zpos m2 <= n * 2 ^ (- e2)
  | _ => False
  end.
Proof.
  intros Hn He Hm. rewrite binary_round_aux_unfold.
  pose proof (digits_below n m e Hn He ltac:(lia)) as Hd.
  destruct (shr_fexp_div m e l (proj1 Hm)) as [Hshift Hstay].
  destruct (Z_lt_le_dec 0 (fexp prec emax (Zdigits2 m + e) - e)) as [Hk|Hk].
  - destruct (Hshift Hk) as [Hm1 He1].
    set (r1 := fst (shr_fexp prec emax m e l)) in *.
    set (e1 := snd (shr_fexp prec emax m e l)) in *.
    pose proof (round_nearest_even_range (shr_m r1) (loc_of_shr_record r1)) as Hr.
    assert (He1' : e1 <= 0) by (rewrite He1; unfold fexp, emin, prec, emax in *; lia).
    assert (Hnn : 0 <= shr_m r1).
    { rewrite Hm1. apply Z.div_pos; [lia|apply pow2_pos; lia]. }
    assert (Hlt : shr_m r1 < n * 2 ^ (- e1)).
    { rewrite Hm1. rewrite <- He1.
      apply Z.div_lt_upper_bound; [apply pow2_pos; lia|].
      rewrite Z.mul_comm, <- Z.mul_assoc, <- pow2_split by lia.
      replace (- e1 + (e1 - e)) with (- e) by lia. apply Hm. }
    apply round_aux_packs; try assumption. lia.
  - rewrite (Hstay Hk). simpl fst. simpl snd. rewrite shr_m_of_loc.
    pose proof (round_nearest_even_range m
                  (loc_of_shr_record (shr_record_of_loc m l))) as Hr.
    apply round_aux_packs; try assumption. lia.
Qed.

(** A mantissa that needs no rounding stays where it is. *)
Lemma round_aux_exact (n : Z) (s : bool) (m e : Z) :
  0 <= n < 2 ^ 53 -> - 52 <= e <= 0 -> 0 <= m <= n * 2 ^ (- e) ->
  Zdigits2 m <= 53 ->
  match binary_round_aux prec emax s m e loc_Exact with
  | S754_zero s' => s' = s
  | S754_finite s' m2 e2 => s' = s /\ e2 <= 0 /\ Zpos m2 <= n * 2 ^ (- e2)
  | _ => False
  end.
Proof.
  intros Hn He Hm Hd. rewrite binary_round_aux_unfold.
  destruct (shr_fexp_div m e loc_Exact (proj1 Hm)) as [_ Hstay].
  rewrite Hstay by (unfold fexp, emin, prec, emax; lia).
  simpl. apply round_aux_packs; try assumption; lia.
Qed.

(** [float(n)] does not exceed [n] below [2^53]. *)
Lemma float_of_int_below (n : Z) :
  0 <= n < 2 ^ 53 ->
  exists y, float_of_int n = Ok y /\
    match y with
    | S754_zero s => s = false
    | S754_finite s m e => s = false /\ e <= 0 /\ Zpos m <= n * 2 ^ (- e)
    | _ => False
    end.
Proof.
  intros Hn. unfold float_of_int, binary_normalize.
  destruct n as [|m|m]; [eexists; split; reflexivity| |lia].
  unfold binary_round, shl_align.
  assert (Hd : Zpos (digits2_pos m) <= 53).
  { apply (Zdigits2_le (Zpos m) 53); lia. }
  assert (Hf : fexp prec emax (Zpos (digits2_pos m) + 0) = Zpos (digits2_pos m) - 53)
    by (unfold fexp, emin, prec, emax; lia).
  rewrite Hf.
  assert (Hgoal : forall mz ez,
             - 52 <= ez <= 0 -> Zpos mz = Zpos m * 2 ^ (- ez) ->
             Zdigits2 (Zpos mz) <= 53 ->
             exists y,
               match binary_round_aux prec emax false (Zpos mz) ez loc_Exact with
               | S754_infinity _ => Raise OverflowError
               | x => Ok x
               end = Ok y /\
               match y with
               | S754_zero s => s = false
               | S754_finite s m0 e => s = false /\ e <= 0 /\
                                       Zpos m0 <= Zpos m * 2 ^ (- e)
               | _ => False
               end).
  { intros mz ez Hez Hmz Hdz.
    pose proof (round_aux_exact (Zpos m) false (Zpos mz) ez Hn Hez ltac:(lia) Hdz) as H.
    destruct (binary_round_aux prec emax false (Zpos mz) ez loc_Exact);
      try contradiction; eexists; split; try reflexivity; exact H. }
  destruct (Zpos (digits2_pos m) - 53 - 0) as [|d|d] eqn:Hs.
  - apply Hgoal; [lia|simpl; lia|simpl; lia].
  - lia.
  - assert (Hez : Zpos (digits2_pos m) - 53 = - Zpos d) by lia.
    rewrite Hez. apply Hgoal.
    + lia.
    + rewrite iter_xO_value. replace (- - Zpos d) with (Zpos d) by lia. reflexivity.
    + apply Zdigits2_le; try lia. rewrite iter_xO_value.
      pose proof (digits2_pos_bounds m) as [_ Hm].
      replace 53 with (Zpos (digits2_pos m) + Zpos d) by lia.
      rewrite pow2_split by lia. pose proof (pow2_pos (Zpos d) ltac:(lia)). nia.
Qed.

Lemma compare_cont_lt (m q : positive) :
  PosDef.Pos.compare_cont Eq m q = Lt -> Zpos m < Zpos q.
Proof. intros H. change (m < q)%positive in H. lia. Qed.

(** A positive float below one: its mantissa stays below [2^-e]. *)
Lemma below_one (s : bool) (m : positive) (e : Z) :
  is_float64 (S754_finite s m e) -> flt (S754_finite s m e) fone = true ->
  s = true \/ (e < 0 /\ Zpos m < 2 ^ (- e)).
Proof.
  intros Hv Hlt. destruct s; [left; reflexivity|right].
  pose proof (valid_digits false m e Hv) as Hd.
  pose proof (digits2_pos_bounds m) as [_ Hm].
  unfold flt, SFltb in Hlt.
  change fone with (S754_finite false 4503599627370496 (-52)) in Hlt.
  cbn [SFcompare] in Hlt.
  destruct (Z.compare_spec e (-52)) as [->|He|He]; try discriminate.
  - split; [lia|].
    change (2 ^ (- -52)) with (Zpos 4503599627370496).
    apply compare_cont_lt.
    destruct (PosDef.Pos.compare_cont Eq m 4503599627370496); try discriminate.
    reflexivity.
  - split; [lia|].
    assert (2 ^ Zpos (digits2_pos m) <= 2 ^ (- e)) by (apply Z.pow_le_mono_r; lia).
    lia.
Qed.

(** [round] of a float that does not exceed the integer [n]. *)
Lemma round_half_even_below (n m e : Z) :
  0 <= m -> e <= 0 -> m <= n * 2 ^ (- e) -> 0 <= round_half_even m e <= n.
Proof.
  intros Hm He Hle. unfold round_half_even.
  destruct (Z.leb_spec 0 e) as [H0|H0].
  - replace e with 0 in * by lia. change (2 ^ (- 0)) with 1 in Hle.
    change (2 ^ 0) with 1. lia.
  - cbv zeta. pose proof (pow2_pos (- e) ltac:(lia)) as Hd.
    set (d := 2 ^ (- e)) in *.
    pose proof (Z.div_mod m d ltac:(lia)) as Hdm.
    pose proof (Z.mod_pos_bound m d Hd) as Hr.
    pose proof (Z.div_pos m d Hm Hd) as Hq.
    assert (Hqn : m / d <= n) by (apply Z.div_le_upper_bound; lia).
    assert (Hup : 0 < m mod d -> m / d + 1 <= n) by nia.
    destruct (Z.compare_spec (2 * (m mod d)) d) as [E|E|E].
    + destruct (Z.even (m / d)); lia.
    + lia.
    + lia.
Qed.

Section CutFacts.
Variable B : backend.

(** The cut of a series of fewer than [2^53] rows at a threshold between
    0 and 1. *)
Lemma cut_within (n : Z) (t : float) :
  0 <= n < 2 ^ 53 -> is_float64 t ->
  flt fzero t = true -> flt t fone = true ->
  exists x cut,
    int_mul_float n t = Ok x /\ round x = Ok cut /\ 0 <= cut <= n.
Proof.
  intros Hn Hv H0 H1.
  destruct (float_of_int_below n Hn) as [y [Hy Hyb]].
  unfold int_mul_float. rewrite Hy.
  destruct t as [s|s| |s mt et];
    [ vm_compute in H0; discriminate
    | destruct s; [vm_compute in H0|vm_compute in H1]; discriminate
    | vm_compute in H0; discriminate
    | ].
  destruct s; [vm_compute in H0; discriminate|].
  destruct (below_one false mt et Hv H1) as [Hs|[Het Hmt]]; [discriminate|].
  destruct y as [sy|sy| |sy my ey]; try contradiction.
  - exists (S754_zero (xorb sy false)), 0. repeat split; try reflexivity; lia.
  - destruct Hyb as [-> [Hey Hmy]].
    pose proof (round_aux_below n false (Zpos (my * mt)) (ey + et) loc_Exact Hn
                  ltac:(lia)) as Hb.
    assert (Hprod : 0 <= Zpos (my * mt) < n * 2 ^ (- (ey + et))).
    { split; [lia|]. rewrite Pos2Z.inj_mul.
      replace (- (ey + et)) with (- ey + - et) by lia.
      rewrite pow2_split by lia.
      pose proof (pow2_pos (- ey) ltac:(lia)). pose proof (pow2_pos (- et) ltac:(lia)).
      nia. }
    specialize (Hb Hprod).
    exists (fmul (S754_finite false my ey) (S754_finite false mt et)).
    unfold fmul, SFmul. simpl xorb.
    destruct (binary_round_aux prec emax false (Zpos (my * mt)) (ey + et) loc_Exact)
      as [s2|s2| |s2 m2 e2]; try contradiction.
    + exists 0. repeat split; try reflexivity; lia.
    + destruct Hb as [-> [He2 Hm2]].
      exists (round_half_even (Zpos m2) e2). repeat split; try reflexivity;
        apply (round_half_even_below n (Zpos m2) e2); lia.
Qed.

End CutFacts.

Lemma slice_to_length {A} (cut : Z) (l : list A) :
  0 <= cut <= len l -> len (slice_to cut l) = cut.
Proof.
  intros H. unfold slice_to, clamp, len in *.
  replace (cut <? 0) with false by (symmetry; apply Z.ltb_ge; lia).
  rewrite length_firstn. lia.
Qed.

(** X12 : For a series of fewer than 2^53 rows and a threshold strictly
    between 0 and 1, the cut round(len(S) * threshold) of [ts_split] lies
    between 0 and len(S): the two roundings, of the float product and of
    [round], never carry it past the length. The training part then has
    exactly cut rows, the first ones, and the test part the remaining
    len(S) - cut. *)
Theorem ts_split_cut_within (B : backend) (S : series) (t : float) :
  shape0 S < 2 ^ 53 -> is_float64 t ->
  flt fzero t = true -> flt t fone = true ->
  exists x cut train test,
    int_mul_float (shape0 S) t = Ok x /\ round x = Ok cut /\
    value_of (ts_split B S t false) = Ok (train, test) /\
    0 <= cut <= shape0 S /\
    shape0 train = cut /\ shape0 test = shape0 S - cut /\
    srows train = firstn (Z.to_nat cut) (srows S) /\
    srows test = skipn (Z.to_nat cut) (srows S).
Proof.
  intros Hn Hv H0 H1.
  destruct (cut_within (shape0 S) t) as [x [cut [Hx [Hc Hcut]]]]; try assumption.
  { split; [unfold shape0, len; lia|exact Hn]. }
  exists x, cut, (iloc_to cut S), (iloc_from cut S).
  rewrite (ts_split_value B S t x cut Hx Hc).
  assert (Hl : shape0 (iloc_to cut S) = cut) by (apply slice_to_length; exact Hcut).
  assert (Hclamp : clamp (len (srows S)) cut = Z.to_nat cut).
  { unfold clamp. replace (cut <? 0) with false by (symmetry; apply Z.ltb_ge; lia).
    unfold shape0 in Hcut. f_equal. lia. }
  repeat split; try assumption; try reflexivity; try apply Hcut.
  - pose proof (slice_lengths cut (srows S)) as Hs.
    unfold shape0 in *. simpl in *. lia.
  - unfold iloc_to, slice_to. simpl. rewrite Hclamp. reflexivity.
  - unfold iloc_from, slice_from. simpl. rewrite Hclamp. reflexivity.
Qed.

Lemma ts_split_cut_within_witness :
  exists x cut train test,
    int_mul_float (shape0 (prices 120)) threshold_default = Ok x /\
    round x = Ok cut /\
    value_of (ts_split naive (prices 120) threshold_default false)
      = Ok (train, test) /\
    0 <= cut <= shape0 (prices 120) /\
    shape0 train = cut /\ shape0 test = shape0 (prices 120) - cut /\
    srows train = firstn (Z.to_nat cut) (srows (prices 120)) /\
    srows test = skipn (Z.to_nat cut) (srows (prices 120)).
Proof.
  apply (ts_split_cut_within naive (prices 120) threshold_default).
  - vm_compute. reflexivity.
  - reflexivity.
  - reflexivity.
  - reflexivity.
Defined.
(** ** Further properties: thresholds outside (0, 1) *)

(** Rounding keeps the sign. *)
Lemma binary_round_aux_sign (s : bool) (m e : Z) (l : location) :
  match binary_round_aux prec emax s m e l with
  | S754_zero s' | S754_infinity s' | S754_finite s' _ _ => s' = s
  | S754_nan => True
  end.
Proof.
  rewrite binary_round_aux_unfold.
  destruct (shr_fexp prec emax _ _ loc_Exact) as [mrs e2].
  destruct (shr_m mrs); [reflexivity| |exact I].
  destruct (e2 <=? emax - prec); reflexivity.
Qed.

Lemma float_of_int_sign (n : Z) (y : float) :
  0 <= n -> float_of_int n = Ok y ->
  match y with
  | S754_zero s | S754_finite s _ _ => s = false
  | S754_nan => True
  | S754_infinity _ => False
  end.
Proof.
  intros Hn. unfold float_of_int, binary_normalize.
  destruct n as [|m|m]; [intros [= <-]; reflexivity| |lia].
  unfold binary_round. destruct (shl_align _ _ _) as [mz ez].
  pose proof (binary_round_aux_sign false (Zpos mz) ez loc_Exact) as Hs.
  destruct (binary_round_aux prec emax false (Zpos mz) ez loc_Exact);
    intros [= <-]; exact Hs.
Qed.

Lemma round_half_even_nonneg (m e : Z) : 0 <= m -> 0 <= round_half_even m e.
Proof.
  intros Hm. unfold round_half_even. destruct (Z.leb_spec 0 e) as [H0|H0].
  - pose proof (pow2_pos e H0). nia.
  - cbv zeta. pose proof (pow2_pos (- e) ltac:(lia)) as Hd.
    pose proof (Z.div_pos m (2 ^ (- e)) Hm Hd).
    destruct (2 * (m mod 2 ^ (- e)) ?= 2 ^ (- e));
      [destruct (Z.even (m / 2 ^ (- e)))| |]; lia.
Qed.

(** The sign of the cut is the sign of the threshold. *)
Lemma cut_sign (n : Z) (t x : float) (cut : Z) :
  0 <= n -> int_mul_float n t = Ok x -> round x = Ok cut ->
  (flt t fzero = false -> 0 <= cut) /\
  (flt t fzero = true -> cut <= 0) /\
  (feq t fzero = true -> cut = 0).
Proof.
  intros Hn Hx Hc. unfold int_mul_float in Hx.
  destruct (float_of_int n) as [y|] eqn:Hy; [|discriminate].
  injection Hx as <-.
  pose proof (float_of_int_sign n y Hn Hy) as Hs.
  destruct y as [sy|sy| |sy my ey]; destruct t as [st|st| |st mt et];
    cbv beta iota delta [fmul SFmul round] in Hc;
    try contradiction; try discriminate;
    try (injection Hc as <-; split; [|split]; intros; lia).
  subst sy. simpl xorb in Hc.
  pose proof (binary_round_aux_sign st (Zpos (my * mt)) (ey + et) loc_Exact) as Hb.
  destruct (binary_round_aux prec emax st (Zpos (my * mt)) (ey + et) loc_Exact)
    as [s2|s2| |s2 m2 e2]; try discriminate.
  - injection Hc as <-. split; [|split]; intros; lia.
  - subst s2. injection Hc as <-.
    pose proof (round_half_even_nonneg (Zpos m2) e2 ltac:(lia)) as Hr.
    destruct st; cbn [cond_Zopp]; (split; [|split]); intros H;
      try (vm_compute in H; discriminate); lia.
Qed.

Lemma slices_from_start {A} (cut : Z) (l : list A) :
  0 <= cut ->
  slice_to cut l = firstn (Z.to_nat cut) l /\
  slice_from cut l = skipn (Z.to_nat cut) l.
Proof.
  intros Hc. unfold slice_to, slice_from, clamp, len.
  replace (cut <? 0) with false by (symmetry; apply Z.ltb_ge; lia).
  destruct (Z_le_gt_dec cut (Z.of_nat (List.length l))) as [Hle|Hgt].
  - rewrite Z.min_l by exact Hle. split; reflexivity.
  - rewrite Z.min_r by lia. rewrite Nat2Z.id.
    rewrite firstn_all, skipn_all.
    rewrite firstn_all2 by lia. rewrite skipn_all2 by lia. split; reflexivity.
Qed.

Lemma slices_from_end {A} (cut : Z) (l : list A) :
  cut < 0 ->
  slice_to cut l = firstn (List.length l - Z.to_nat (- cut)) l /\
  slice_from cut l = skipn (List.length l - Z.to_nat (- cut)) l.
Proof.
  intros Hc. unfold slice_to, slice_from, clamp, len.
  replace (cut <? 0) with true by (symmetry; apply Z.ltb_lt; lia).
  replace (Z.to_nat (Z.max (cut + Z.of_nat (List.length l)) 0))
    with (List.length l - Z.to_nat (- cut))%nat by lia.
  split; reflexivity.
Qed.

(** X13 : On a threshold outside (0, 1) [ts_split] does not fail, and the
    sign of the threshold decides how the slices count. A threshold that
    is zero, of either sign, gives an empty training part and the whole
    series as test part. With a threshold that is not negative the cut
    is not negative and the parts are the first cut rows and the rest,
    the whole series and an empty one when the cut passes the length.
    With a negative threshold the cut is not positive, and where it is
    negative the slices count from the end: the test part is the last
    -cut rows, the training part what precedes them. *)
Theorem ts_split_threshold_sign (B : backend) (S : series) (t : float) :
  shape0 S <= maxsize -> is_float64 t -> flt (SFabs t) two64 = true ->
  exists x cut,
    int_mul_float (shape0 S) t = Ok x /\ round x = Ok cut /\
    value_of (ts_split B S t false) = Ok (iloc_to cut S, iloc_from cut S) /\
    (feq t fzero = true ->
       cut = 0 /\ srows (iloc_to cut S) = [] /\ iloc_from cut S = S) /\
    (flt t fzero = false ->
       0 <= cut /\
       srows (iloc_to cut S) = firstn (Z.to_nat cut) (srows S) /\
       srows (iloc_from cut S) = skipn (Z.to_nat cut) (srows S) /\
       (shape0 S <= cut -> iloc_to cut S = S /\ srows (iloc_from cut S) = [])) /\
    (flt t fzero = true ->
       cut <= 0 /\
       (cut < 0 ->
        srows (iloc_to cut S)
        = firstn (List.length (srows S) - Z.to_nat (- cut)) (srows S) /\
        srows (iloc_from cut S)
        = skipn (List.length (srows S) - Z.to_nat (- cut)) (srows S))).
Proof.
  intros Hn Hv Hlt.
  assert (Ht : finite_within 53 12 t).
  { pose proof (flt_abs_exponent t _ _ Hlt) as He.
    destruct t as [s|s| |s m e]; try contradiction; [exact I|].
    split; [apply (valid_digits s m e Hv)|exact He]. }
  destruct (ts_split_returns B S t 12 Hn Ht ltac:(lia)) as [x [cut [Hx [Hc Hs]]]].
  assert (H0 : 0 <= shape0 S) by (unfold shape0, len; lia).
  destruct (cut_sign (shape0 S) t x cut H0 Hx Hc) as [Hpos [Hneg Hzero]].
  exists x, cut. rewrite Hs. split; [exact Hx|]. split; [exact Hc|].
  split; [reflexivity|]. split; [|split].
  - intros Hz. specialize (Hzero Hz). subst cut.
    destruct (slices_from_start 0 (srows S) ltac:(lia)) as [H1 H2].
    split; [reflexivity|]. unfold iloc_to, iloc_from. rewrite H1, H2.
    split; [reflexivity|]. destruct S as [name rows]. reflexivity.
  - intros Hs0. specialize (Hpos Hs0).
    destruct (slices_from_start cut (srows S) Hpos) as [H1 H2].
    split; [exact Hpos|]. split; [exact H1|]. split; [exact H2|].
    intros Hlen. unfold iloc_to, iloc_from in *. simpl in *. rewrite H1, H2.
    unfold shape0, len in Hlen.
    rewrite firstn_all2 by lia. rewrite skipn_all2 by lia.
    destruct S as [name rows]. split; reflexivity.
  - intros Hs0. split; [apply Hneg, Hs0|]. intros Hc0.
    apply (slices_from_end cut (srows S) Hc0).
Qed.

Lemma ts_split_threshold_sign_witness :
  exists cut,
    value_of (ts_split naive (prices 24) (S754_finite true 4503599627370496 (-54)) false)
    = Ok (iloc_to cut (prices 24), iloc_from cut (prices 24)) /\
    cut = -6 /\
    shape0 (iloc_to cut (prices 24)) = 18 /\ shape0 (iloc_from cut (prices 24)) = 6.
Proof.
  destruct (ts_split_threshold_sign naive (prices 24)
              (S754_finite true 4503599627370496 (-54)))
    as [x [cut [Hx [Hc [Hv _]]]]].
  - vm_compute. discriminate.
  - reflexivity.
  - reflexivity.
  - exists cut. split; [exact Hv|].
    vm_compute in Hx. injection Hx as <-.
    vm_compute in Hc. injection Hc as <-.
    repeat split; reflexivity.
Defined.
(** ** Further properties: when the later stages return *)

Section ReturnFacts.
Variable B : backend.

Lemma model_performance_returns (m : sarimax) (s : summary) :
  plot_diagnostics B m = Ok tt -> model_summary B m = Ok s ->
  value_of (model_performance B m false) = Ok (s, FigDiagnostics m).
Proof.
  intros H Hs. rewrite model_performance_run, H, Hs. reflexivity.
Qed.

Lemma fit_sarimax_returns (y : series) (o : order_t) (so : seasonal_order_t)
  (inv : bool) :
  sarimax_new B (mkSarimax y o so inv) = Ok tt ->
  sarimax_fit B (mkSarimax y o so inv) = Ok tt ->
  value_of (fit_sarimax B y o so inv) = Ok (mkSarimax y o so inv).
Proof. intros Hn H. rewrite fit_sarimax_run, Hn, H. reflexivity. Qed.

Lemma two_columns (f : frame) :
  List.length (fcols f) = 2%nat ->
  exists lower upper, map snd (fcols f) = [lower; upper].
Proof.
  destruct (fcols f) as [|[n1 c1] [|[n2 c2] [|c cols]]]; try discriminate.
  intros _. exists c1, c2. reflexivity.
Qed.

(** The last rows of a series, none left out when there are fewer. *)
Lemma tail_not_empty (n : Z) (s : series) :
  0 <= n -> srows s <> [] -> srows (iloc_from (- (12 * n)) s) <> [].
Proof.
  intros Hn Hs. unfold iloc_from, slice_from, clamp, len. cbn [srows].
  destruct (srows s) as [|a l]; [congruence|].
  destruct (Z.ltb_spec (- (12 * n)) 0) as [Hlt|Hge].
  - intros Hnil. apply (f_equal (@List.length _)) in Hnil.
    rewrite length_skipn in Hnil. simpl List.length in Hnil. lia.
  - replace (- (12 * n)) with 0 by lia. simpl. discriminate.
Qed.

(** The ROI stage on a frame as [forecast_and_ci] builds it. *)
Lemma forecast_frame_roi (idx : list Z) (lower upper fc : list float) :
  idx <> [] ->
  List.length lower = List.length idx -> List.length upper = List.length idx ->
  List.length fc = List.length idx ->
  exists roi_df last_row,
    roi (mkFrame idx [("Lower CI", lower); ("Upper CI", upper); ("Forecast", fc)])
    = Ok roi_df /\
    iloc_row (-1) roi_df = Ok last_row.
Proof.
  intros Hi Hl Hu Hf.
  set (f := mkFrame idx [("Lower CI", lower); ("Upper CI", upper); ("Forecast", fc)]).
  assert (Hwf : well_formed f) by (repeat constructor; assumption).
  assert (Hc : exists c, iloc2 0 2 f = Ok c).
  { unfold iloc2, f. cbn.
    destruct fc as [|c fc']; [destruct idx; [congruence|discriminate]|].
    exists c. reflexivity. }
  destruct Hc as [c Hc].
  destruct (roi_last_row f c Hwf Hi Hc) as [H1 H2].
  eexists. eexists. split; [exact H1|exact H2].
Qed.

End ReturnFacts.

(** X14 : The stages of the workflow behind the two models of the training
    data (line 244 on) return their eight results whenever the libraries
    answer: the diagnostics of both models are drawn and both have a
    summary, the model of the whole series is constructed and fitted, both
    forecasts come with two confidence columns and a predicted mean over
    one index of at least one label, the columns of the final forecast as
    long as their index, pandas plots every series that is not empty, the
    series and its two parts are not empty, [n_yrs_past] is not negative
    and the name of the series has [astype], as a numpy integer and a
    numpy string have. The final ROI then carries that name as a string. *)
Theorem workflow_after_models_returns (B : backend)
  (zipcode_val train test : series) (a : auto_model) (best_model_train : sarimax)
  (n_yrs_past n_yrs_future : Z) (show_vis : bool)
  (r1 r2 : forecast_results) (summary_train summary_full : summary)
  (name : string) :
  (forall s, srows s <> [] -> series_plot B s = Ok tt) ->
  plot_diagnostics B best_model_train = Ok tt ->
  model_summary B best_model_train = Ok summary_train ->
  sarimax_new B
    (mkSarimax zipcode_val (am_order a) (am_seasonal_order a) false) = Ok tt ->
  sarimax_fit B
    (mkSarimax zipcode_val (am_order a) (am_seasonal_order a) false) = Ok tt ->
  plot_diagnostics B
    (mkSarimax zipcode_val (am_order a) (am_seasonal_order a) false) = Ok tt ->
  model_summary B
    (mkSarimax zipcode_val (am_order a) (am_seasonal_order a) false)
  = Ok summary_full ->
  get_forecast B best_model_train (shape0 test) = Ok r1 ->
  get_forecast B
    (mkSarimax zipcode_val (am_order a) (am_seasonal_order a) false)
    (12 * n_yrs_future) = Ok r2 ->
  List.length (fcols (conf_int r1)) = 2%nat ->
  List.length (fcols (conf_int r2)) = 2%nat ->
  map fst (predicted_mean r1) = findex (conf_int r1) ->
  map fst (predicted_mean r2) = findex (conf_int r2) ->
  findex (conf_int r1) <> [] -> findex (conf_int r2) <> [] ->
  well_formed (conf_int r2) ->
  srows zipcode_val <> [] -> srows train <> [] -> srows test <> [] ->
  0 <= n_yrs_past ->
  astype_str (sname zipcode_val) = Ok name ->
  exists forecast_full roi_final,
    value_of (workflow_after_models B zipcode_val train test a best_model_train
                n_yrs_past n_yrs_future show_vis)
    = Ok (forecast_full, roi_final,
          summary_train, FigDiagnostics best_model_train,
          summary_full,
          FigDiagnostics
            (mkSarimax zipcode_val (am_order a) (am_seasonal_order a) false),
          FigTrainTest train test
            (mkFrame (findex (conf_int r1))
               [ ("Lower CI", nth 0 (map snd (fcols (conf_int r1))) []);
                 ("Upper CI", nth 1 (map snd (fcols (conf_int r1))) []);
                 ("Forecast", map snd (predicted_mean r1)) ]),
          FigFinal zipcode_val forecast_full) /\
    value_of (forecast_and_ci B
                (mkSarimax zipcode_val (am_order a) (am_seasonal_order a) false)
                None (Some n_yrs_future)) = Ok forecast_full /\
    r_name roi_final = RName name.
Proof.
  intros Hplot Hd1 Hs1 Hnew Hfit Hd2 Hs2 Hf1 Hf2 Hc1 Hc2 Hp1 Hp2 Hi1 Hi2 Hw2
    Hzv Htr Hte Hnp Hname.
  set (bmf := mkSarimax zipcode_val (am_order a) (am_seasonal_order a) false) in *.
  destruct (two_columns _ Hc1) as [l1 [u1 Hl1]].
  destruct (two_columns _ Hc2) as [l2 [u2 Hl2]].
  rewrite Hl1. cbn [nth].
  set (ft := mkFrame (findex (conf_int r1))
               [ ("Lower CI", l1); ("Upper CI", u1);
                 ("Forecast", map snd (predicted_mean r1)) ]).
  set (ff := mkFrame (findex (conf_int r2))
               [ ("Lower CI", l2); ("Upper CI", u2);
                 ("Forecast", map snd (predicted_mean r2)) ]).
  assert (E1 : value_of (forecast_and_ci B best_model_train (Some test) None) = Ok ft).
  { apply (forecast_and_ci_on_index B _ _ _ (shape0 test) r1 l1 u1);
      try assumption; reflexivity. }
  assert (E2 : value_of (forecast_and_ci B bmf None (Some n_yrs_future)) = Ok ff).
  { apply (forecast_and_ci_on_index B _ _ _ (12 * n_yrs_future) r2 l2 u2);
      try assumption; reflexivity. }
  assert (Hne : forall (r : forecast_results),
             map fst (predicted_mean r) = findex (conf_int r) ->
             findex (conf_int r) <> [] ->
             combine (findex (conf_int r)) (map snd (predicted_mean r)) <> []).
  { intros r Hp Hi. rewrite <- Hp, combine_fst_snd. intros Hn.
    rewrite Hn in Hp. apply Hi. rewrite <- Hp. reflexivity. }
  assert (E3 : value_of (plot_forecast_ttf B train test ft n_yrs_past show_vis)
               = Ok (FigTrainTest train test ft)).
  { assert (Hcol : column "Forecast" ft
                   = Ok (mkSeries (LStr "Forecast")
                           (combine (findex (conf_int r1))
                              (map snd (predicted_mean r1)))))
      by reflexivity.
    rewrite (plot_forecast_ttf_run B train test ft n_yrs_past show_vis
               _ _ _ Hcol eq_refl eq_refl).
    rewrite (Hplot _ (tail_not_empty n_yrs_past train Hnp Htr)).
    rewrite (Hplot test Hte).
    rewrite (Hplot (mkSeries (LStr "Forecast") _) (Hne r1 Hp1 Hi1)).
    destruct (item_last_some (sindex train)) as [t Ht].
    { intros Hn. apply sindex_nil in Hn. contradiction. }
    rewrite Ht. reflexivity. }
  assert (E4 : value_of (plot_forecast_final B zipcode_val ff show_vis)
               = Ok (FigFinal zipcode_val ff)).
  { assert (Hcol : column "Forecast" ff
                   = Ok (mkSeries (LStr "Forecast")
                           (combine (findex (conf_int r2))
                              (map snd (predicted_mean r2)))))
      by reflexivity.
    rewrite (plot_forecast_final_run B zipcode_val ff show_vis
               _ _ _ Hcol eq_refl eq_refl).
    rewrite (Hplot zipcode_val Hzv).
    rewrite (Hplot (mkSeries (LStr "Forecast") _) (Hne r2 Hp2 Hi2)).
    destruct (item_last_some (sindex zipcode_val)) as [t Ht].
    { intros Hn. apply sindex_nil in Hn. contradiction. }
    rewrite Ht. reflexivity. }
  assert (E5 : exists roi_df last_row,
             roi ff = Ok roi_df /\ iloc_row (-1) roi_df = Ok last_row).
  { unfold ff. unfold well_formed in Hw2.
    destruct (fcols (conf_int r2)) as [|[n1 c1] [|[n2 c2] [|c cols]]];
      try discriminate.
    injection Hl2 as <- <-.
    inversion Hw2 as [|? ? H1 Hw']; subst. inversion Hw' as [|? ? H2 _]; subst.
    apply forecast_frame_roi; try assumption.
    rewrite <- Hp2, !length_map. reflexivity. }
  destruct E5 as [roi_df [last_row [E5 E6]]].
  exists ff, (set_name name last_row).
  split; [|split; [exact E2|reflexivity]].
  unfold workflow_after_models.
  rewrite value_bind, (model_performance_returns B _ _ Hd1 Hs1). cbv beta iota.
  rewrite value_bind, E1. cbv beta iota.
  rewrite value_bind, E3. cbv beta iota.
  rewrite value_bind, (fit_sarimax_returns B _ _ _ _ Hnew Hfit). cbv beta iota.
  fold bmf.
  rewrite value_bind, (model_performance_returns B _ _ Hd2 Hs2). cbv beta iota.
  rewrite value_bind, E2. cbv beta iota.
  rewrite value_bind, E4. cbv beta iota.
  rewrite E5, bind_lift_ok, E6, bind_lift_ok.
  rewrite Hname, bind_lift_ok.
  destruct show_vis; reflexivity.
Qed.

Lemma workflow_after_models_returns_witness :
  exists forecast_full roi_final,
    value_of (workflow_after_models naive (listings 24) (iloc_to 20 (listings 24))
                (iloc_from 20 (listings 24)) auto_example
                (mkSarimax (iloc_to 20 (listings 24)) (1, 1, 2) (0, 0, 0, 12) false)
                5 2 true)
    = Ok (forecast_full, roi_final,
          "SARIMAX Results",
          FigDiagnostics
            (mkSarimax (iloc_to 20 (listings 24)) (1, 1, 2) (0, 0, 0, 12) false),
          "SARIMAX Results",
          FigDiagnostics (mkSarimax (listings 24) (1, 1, 2) (0, 0, 0, 12) false),
          FigTrainTest (iloc_to 20 (listings 24)) (iloc_from 20 (listings 24))
            (mkFrame [21; 22; 23; 24]
               [ ("Lower CI", map (fun _ => of_Z 109999) [21; 22; 23; 24]);
                 ("Upper CI", map (fun _ => of_Z 110001) [21; 22; 23; 24]);
                 ("Forecast", map (fun _ => of_Z 110000) [21; 22; 23; 24]) ]),
          FigFinal (listings 24) forecast_full) /\
    r_name roi_final = RName "10001".
Proof.
  destruct (get_forecast naive
              (mkSarimax (iloc_to 20 (listings 24)) (1, 1, 2) (0, 0, 0, 12) false)
              (shape0 (iloc_from 20 (listings 24)))) as [r1|x] eqn:H1;
    [|vm_compute in H1; discriminate].
  destruct (get_forecast naive (mkSarimax (listings 24) (1, 1, 2) (0, 0, 0, 12) false)
              (12 * 2)) as [r2|x] eqn:H2;
    [|vm_compute in H2; discriminate].
  assert (Hplot : forall s, srows s <> [] -> series_plot naive s = Ok tt).
  { intros s Hs. reflexivity. }
  assert (Hr1 : r1 = mkForecast
                       (mkFrame [21; 22; 23; 24]
                          [ ("lower y", map (fun _ => of_Z 109999) [21; 22; 23; 24]);
                            ("upper y", map (fun _ => of_Z 110001) [21; 22; 23; 24]) ])
                       (map (fun i => (i, of_Z 110000)) [21; 22; 23; 24])).
  { vm_compute in H1. injection H1 as <-. vm_compute. reflexivity. }
  assert (Hc1 : List.length (fcols (conf_int r1)) = 2%nat)
    by (rewrite Hr1; reflexivity).
  assert (Hp1 : map fst (predicted_mean r1) = findex (conf_int r1))
    by (rewrite Hr1; reflexivity).
  assert (Hi1 : findex (conf_int r1) <> []) by (rewrite Hr1; discriminate).
  assert (Hr2 : List.length (fcols (conf_int r2)) = 2%nat /\
                map fst (predicted_mean r2) = findex (conf_int r2) /\
                findex (conf_int r2) <> [] /\ well_formed (conf_int r2)).
  { vm_compute in H2. injection H2 as <-.
    split; [reflexivity|]. split; [reflexivity|]. split; [discriminate|].
    repeat constructor. }
  destruct Hr2 as [Hc2 [Hp2 [Hi2 Hw2]]].
  destruct (workflow_after_models_returns naive (listings 24)
              (iloc_to 20 (listings 24))
              (iloc_from 20 (listings 24)) auto_example
              (mkSarimax (iloc_to 20 (listings 24)) (1, 1, 2) (0, 0, 0, 12) false)
              5 2 true r1 r2 "SARIMAX Results" "SARIMAX Results" "10001"
              Hplot eq_refl eq_refl eq_refl eq_refl eq_refl eq_refl H1 H2 Hc1 Hc2
              Hp1 Hp2 Hi1 Hi2 Hw2)
    as [ff [rf [Hv [_ Hn]]]].
  - vm_compute. discriminate.
  - vm_compute. discriminate.
  - vm_compute. discriminate.
  - lia.
  - reflexivity.
  - exists ff, rf. split; [|exact Hn].
    rewrite Hv, Hr1. vm_compute. reflexivity.
Defined.

(** ** Further properties: the code behind the order search *)

(** X15 : The code of [create_best_model] behind the order search (lines
    139 to 147), on the model that a search returned: it constructs one
    SARIMAX model on the dataset, with the order and the seasonal order of
    that model and [enforce_invertibility=False], and calls [fit()] on it
    without arguments; it returns the pair of the two models exactly when
    the construction and the fit succeed, and an exception of either ends
    it. With [show_vis] it then displays the summary of the search and the
    performance of the fitted model, and returns the same pair. *)
Theorem create_best_model_fit_run (B : backend) (timeseries_dataset : series)
  (auto_model_best : auto_model) :
  let model :=
    mkSarimax timeseries_dataset (am_order auto_model_best)
      (am_seasonal_order auto_model_best) false in
  (forall show_vis r,
     value_of (create_best_model_fit B timeseries_dataset auto_model_best show_vis)
     = Ok r ->
     r = (auto_model_best, model) /\
     sarimax_new B model = Ok tt /\ sarimax_fit B model = Ok tt) /\
  (sarimax_new B model = Ok tt -> sarimax_fit B model = Ok tt ->
   create_best_model_fit B timeseries_dataset auto_model_best false
   = (Ok (auto_model_best, model), [EvSARIMAX model; EvFit model []])) /\
  (forall show_vis x,
     sarimax_new B model = Raise x ->
     create_best_model_fit B timeseries_dataset auto_model_best show_vis
     = (Raise x, [EvSARIMAX model])) /\
  (forall show_vis x,
     sarimax_new B model = Ok tt -> sarimax_fit B model = Raise x ->
     create_best_model_fit B timeseries_dataset auto_model_best show_vis
     = (Raise x, [EvSARIMAX model; EvFit model []])) /\
  (forall r,
     value_of (create_best_model_fit B timeseries_dataset auto_model_best true)
     = Ok r ->
     calls_of (create_best_model_fit B timeseries_dataset auto_model_best true)
     = [ EvSARIMAX model; EvFit model [];
         EvAutoSummary auto_model_best; EvDisplay;
         EvPlotDiagnostics model; EvClose; EvSummary model; EvDisplay ]).
Proof.
  intros model. unfold create_best_model_fit.
  split; [|split; [|split; [|split]]].
  - intros show_vis r H.
    destruct (value_bind_ok _ _ _ H) as [m [E H1]].
    apply fit_sarimax_value in E as [-> [Hn [Hf _]]].
    destruct (value_bind_ok _ _ _ H1) as [[] [_ H2]].
    injection H2 as <-. repeat split; assumption.
  - intros Hn Hf. rewrite fit_sarimax_run. fold model. rewrite Hn, Hf. reflexivity.
  - intros show_vis x Hn. rewrite fit_sarimax_run. fold model. rewrite Hn.
    reflexivity.
  - intros show_vis x Hn Hf. rewrite fit_sarimax_run. fold model. rewrite Hn, Hf.
    reflexivity.
  - intros r. rewrite fit_sarimax_run. fold model.
    destruct (sarimax_new B model) as [[]|x]; [|discriminate].
    destruct (sarimax_fit B model) as [[]|x]; [|discriminate].
    cbv beta iota delta [bind emit lift ret].
    destruct (auto_summary B auto_model_best) as [s|x]; [|discriminate].
    rewrite model_performance_run.
    destruct (plot_diagnostics B model) as [[]|x]; [|discriminate].
    destruct (model_summary B model) as [s'|x]; [|discriminate].
    reflexivity.
Qed.

Lemma create_best_model_fit_run_witness :
  create_best_model_fit naive (iloc_to 102 (listings 120)) auto_example false
  = (Ok (auto_example,
         mkSarimax (iloc_to 102 (listings 120)) (1, 1, 2) (0, 0, 0, 12) false),
     [ EvSARIMAX
         (mkSarimax (iloc_to 102 (listings 120)) (1, 1, 2) (0, 0, 0, 12) false);
       EvFit
         (mkSarimax (iloc_to 102 (listings 120)) (1, 1, 2) (0, 0, 0, 12) false)
         [] ]).
Proof.
  apply (proj1 (proj2 (create_best_model_fit_run naive (iloc_to 102 (listings 120))
                         auto_example))).
  - reflexivity.
  - vm_compute. reflexivity.
Defined.

(** X16 : The dict of [make_dict] (lines 282 to 300) holds the forecast
    under [forecasted_prices], the final ROI under [ROI], under
    [model_metrics] the two lists of a summary and a diagnostic plot,
    [train] and [full], and under [model_visuals] the two forecast plots,
    [train] and [full], in this order of keys. From a run of the workflow
    behind the two models of the training data (line 244 on) that
    returns, the forecast is the one of the model of the whole series
    over [12 * n_yrs_future] steps, the final ROI is the last row of its
    ROI frame under the name of the series, and the summaries and plots
    are those of the training model and of the model of the whole
    series. *)
Theorem make_dict_packaging (B : backend) :
  (forall forecast roi summary_train diag_train summary_full diag_full
          training_frcst final_frcst,
     make_dict_of (forecast, roi, summary_train, diag_train, summary_full,
                   diag_full, training_frcst, final_frcst)
     = [ ("forecasted_prices", OFrame forecast);
         ("ROI", ORow roi);
         ("model_metrics",
          ODict [ ("train", OList [OSummary summary_train; OFigure diag_train]);
                  ("full", OList [OSummary summary_full; OFigure diag_full]) ]);
         ("model_visuals",
          ODict [ ("train", OFigure training_frcst);
                  ("full", OFigure final_frcst) ]) ]) /\
  (forall zipcode_val train test a best_model_train n_yrs_past n_yrs_future
          show_vis r,
     value_of (workflow_after_models B zipcode_val train test a best_model_train
                 n_yrs_past n_yrs_future show_vis) = Ok r ->
     let best_model_full :=
       mkSarimax zipcode_val (am_order a) (am_seasonal_order a) false in
     exists summary_train summary_full forecast_train forecast_full roi_df last
            name,
       model_summary B best_model_train = Ok summary_train /\
       model_summary B best_model_full = Ok summary_full /\
       value_of (forecast_and_ci B best_model_train (Some test) None)
         = Ok forecast_train /\
       value_of (forecast_and_ci B best_model_full None (Some n_yrs_future))
         = Ok forecast_full /\
       roi forecast_full = Ok roi_df /\
       iloc_row (-1) roi_df = Ok last /\
       astype_str (sname zipcode_val) = Ok name /\
       make_dict_of r
       = [ ("forecasted_prices", OFrame forecast_full);
           ("ROI", ORow (mkRow (RName name) (r_values last)));
           ("model_metrics",
            ODict
              [ ("train",
                 OList [ OSummary summary_train;
                         OFigure (FigDiagnostics best_model_train) ]);
                ("full",
                 OList [ OSummary summary_full;
                         OFigure (FigDiagnostics best_model_full) ]) ]);
           ("model_visuals",
            ODict
              [ ("train", OFigure (FigTrainTest train test forecast_train));
                ("full", OFigure (FigFinal zipcode_val forecast_full)) ]) ]).
Proof.
  split.
  - intros. reflexivity.
  - intros zipcode_val train test a best_model_train n_yrs_past n_yrs_future
      show_vis r H best_model_full.
    destruct (workflow_after_models_stages B _ _ _ _ _ _ _ _ _ H)
      as [s1 [s2 [ft [ff [roi_df [last [name
           [_ [S1 [E1 [_ [_ [_ [_ [S2 [E2 [_ [E3 [E4 [E5 [-> _]]]]]]]]]]]]]]]]]]]]].
    exists s1, s2, ft, ff, roi_df, last, name.
    repeat split; assumption.
Qed.

Lemma make_dict_packaging_witness :
  exists r,
    value_of (workflow_after_models naive (listings 24) (iloc_to 20 (listings 24))
                (iloc_from 20 (listings 24)) auto_example
                (mkSarimax (iloc_to 20 (listings 24)) (1, 1, 2) (0, 0, 0, 12) false)
                5 2 false) = Ok r /\
    exists forecast_train forecast_full roi_df last,
      value_of (forecast_and_ci naive
                  (mkSarimax (listings 24) (1, 1, 2) (0, 0, 0, 12) false)
                  None (Some 2)) = Ok forecast_full /\
      roi forecast_full = Ok roi_df /\
      iloc_row (-1) roi_df = Ok last /\
      make_dict_of r
      = [ ("forecasted_prices", OFrame forecast_full);
          ("ROI", ORow (mkRow (RName "10001") (r_values last)));
          ("model_metrics",
           ODict
             [ ("train",
                OList [ OSummary "SARIMAX Results";
                        OFigure
                          (FigDiagnostics
                             (mkSarimax (iloc_to 20 (listings 24)) (1, 1, 2)
                                (0, 0, 0, 12) false)) ]);
               ("full",
                OList [ OSummary "SARIMAX Results";
                        OFigure
                          (FigDiagnostics
                             (mkSarimax (listings 24) (1, 1, 2) (0, 0, 0, 12)
                                false)) ]) ]);
          ("model_visuals",
           ODict
             [ ("train",
                OFigure (FigTrainTest (iloc_to 20 (listings 24))
                           (iloc_from 20 (listings 24)) forecast_train));
               ("full", OFigure (FigFinal (listings 24) forecast_full)) ]) ].
Proof.
  destruct (value_of (workflow_after_models naive (listings 24)
                        (iloc_to 20 (listings 24)) (iloc_from 20 (listings 24))
                        auto_example
                        (mkSarimax (iloc_to 20 (listings 24)) (1, 1, 2)
                           (0, 0, 0, 12) false)
                        5 2 false)) as [r|x] eqn:H; [|vm_compute in H; discriminate].
  exists r. split; [reflexivity|].
  destruct (proj2 (make_dict_packaging naive) (listings 24)
              (iloc_to 20 (listings 24)) (iloc_from 20 (listings 24)) auto_example
              (mkSarimax (iloc_to 20 (listings 24)) (1, 1, 2) (0, 0, 0, 12) false)
              5 2 false r H)
    as [s1 [s2 [ft [ff [roi_df [last [name [S1 [S2 [_ [E2 [E3 [E4 [E5 ->]]]]]]]]]]]]]].
  injection S1 as <-. injection S2 as <-. injection E5 as <-.
  exists ft, ff, roi_df, last. repeat split; assumption.
Defined.
